(** * The ledger orchestrator (package visor, src/wallet/readable.go)

    A shallow embedding of the Visor operations that create and execute
    blocks, inject transactions, rebuild the history index, compute
    balances and scan addresses for activity, together with the
    properties they are expected to satisfy.

    Unsigned machine integers are integers of [Z] with the wrap-around
    written out; Go maps are [gmap]s; Go interfaces are records of
    operations over the contents of the backing store. *)

From stdpp Require Import gmap list strings pretty.
From Stdlib Require Import ZArith Lia.

Local Open Scope Z_scope.

(** ** Errors and results *)

(** The error values the embedded code creates, compares or switches on. *)
Inductive error : Type :=
  | ErrUint64AddOverflow
  | ErrUint64MultOverflow
  | ErrUint32AddOverflow
  | ErrAddEarnedCoinHoursAdditionOverflow
  | ErrTxnViolatesHardConstraint (msg : string)
  | ErrTxnViolatesSoftConstraint (msg : string)
  | ErrTxnViolatesUserConstraint (msg : string)
  | errors_New (msg : string)
  | fmt_Errorf (msg : string) (cause : error)
  | ErrNoBlockInDepth (depth : Z)
  | ErrStore (msg : string).

#[global] Instance error_eq_dec : EqDecision error.
Proof. solve_decision. Defined.

(** A Go result [(value, error)]: either the value with a nil error, or
    the error. *)
Inductive result (A : Type) : Type :=
  | Ok (a : A)
  | Err (e : error).
Arguments Ok {A} a.
Arguments Err {A} e.

#[global] Instance result_ret : MRet result := fun A a => Ok a.
#[global] Instance result_bind : MBind result :=
  fun A B f m => match m with Ok a => f a | Err e => Err e end.

#[global] Instance result_fmap : FMap result :=
  fun A B f m => match m with Ok a => Ok (f a) | Err e => Err e end.

Definition is_Err {A} (r : result A) : Prop := ∃ e, r = Err e.

(** What Go hands back beside a non-nil error in the numeric functions
    below: the zero value. *)
Definition valueOf (r : result Z) : Z :=
  match r with Ok v => v | Err _ => 0 end.

(** [fmt.Errorf("<msg>: %v", err)] around a failing call. *)
Definition wrapErr {A} (msg : string) (r : result A) : result A :=
  match r with Ok a => Ok a | Err e => Err (fmt_Errorf msg e) end.

(** A call either returns, with a value or an error, or panics. *)
Inductive outcome (A : Type) : Type :=
  | Returns (r : result A)
  | Panics (msg : string).
Arguments Returns {A} r.
Arguments Panics {A} msg.

(** A computation inside one read-write transaction scope: it threads the
    contents of the store and may fail. *)
Record TxM (S A : Type) : Type := mkTxM { runTx : S → S * result A }.
Arguments mkTxM {S A} _.
Arguments runTx {S A} _ _.

#[global] Instance TxM_ret S : MRet (TxM S) :=
  fun A a => mkTxM (fun s => (s, Ok a)).
#[global] Instance TxM_bind S : MBind (TxM S) :=
  fun A B f m => mkTxM (fun s =>
    match runTx m s with
    | (s', Ok a) => runTx (f a) s'
    | (s', Err e) => (s', Err e)
    end).

(** A read of the store inside a read-write scope. *)
Definition reading {S A} (f : S → result A) : TxM S A :=
  mkTxM (fun s => (s, f s)).

(** A fallible step that does not touch the store. *)
Definition pure {S A} (r : result A) : TxM S A :=
  mkTxM (fun s => (s, r)).

(** ** Basic data (packages cipher and coin) *)

Abbreviation uint64 := Z (only parsing).
Abbreviation SHA256 := Z (only parsing).
Abbreviation PubKey := Z (only parsing).
Abbreviation Sig := Z (only parsing).

(** [cipher.Address]: a version byte and a 20-byte key digest. *)
Record Address : Type := mkAddress { Version : Z; Key : Z }.

#[global] Instance Address_eq_dec : EqDecision Address.
Proof. solve_decision. Defined.

#[global] Instance Address_countable : Countable Address.
Proof.
  refine (inj_countable' (fun a => (Version a, Key a))
                         (fun p => mkAddress p.1 p.2) _).
  by intros [].
Defined.

(** [cipher.Addresser] is implemented by the addresses of this chain and
    by addresses of another kind. *)
Inductive Addresser : Type :=
  | SkycoinAddress (a : Address)
  | BitcoinAddress (a : Address).

Record TransactionOutput : Type := mkTransactionOutput {
  out_Address : Address;
  out_Coins : uint64;
  out_Hours : uint64
}.

Record Transaction : Type := mkTransaction {
  txn_Length : Z;
  txn_Type : Z;
  txn_InnerHash : SHA256;
  txn_Sigs : list Sig;
  txn_In : list SHA256;
  txn_Out : list TransactionOutput
}.

Abbreviation Transactions := (list Transaction) (only parsing).

Record UxHead : Type := mkUxHead { ux_Time : uint64; ux_BkSeq : uint64 }.

Record UxBody : Type := mkUxBody {
  ux_SrcTransaction : SHA256;
  ux_Address : Address;
  ux_Coins : uint64;
  ux_Hours : uint64
}.

Record UxOut : Type := mkUxOut { ux_Head : UxHead; ux_Body : UxBody }.

Abbreviation UxArray := (list UxOut) (only parsing).
Abbreviation AddressUxOuts := (gmap Address (list UxOut)) (only parsing).

Record BlockHeader : Type := mkBlockHeader {
  bh_Version : Z;
  bh_Time : uint64;
  bh_BkSeq : uint64;
  bh_Fee : uint64;
  bh_PrevHash : SHA256;
  bh_BodyHash : SHA256
}.

Record Block : Type := mkBlock {
  bk_Head : BlockHeader;
  bk_Transactions : list Transaction
}.

Record SignedBlock : Type := mkSignedBlock { sb_Block : Block; sb_Sig : Sig }.

Definition sb_Head (b : SignedBlock) : BlockHeader := bk_Head (sb_Block b).
Definition sb_Time (b : SignedBlock) : uint64 := bh_Time (sb_Head b).
Definition bk_Seq (b : Block) : uint64 := bh_BkSeq (bk_Head b).

Record UnconfirmedTransaction : Type := mkUnconfirmedTransaction {
  ut_Transaction : Transaction;
  ut_Received : Z;
  ut_Checked : Z;
  ut_Announced : Z;
  ut_IsValid : Z
}.

(** [wallet.Balance] and [wallet.BalancePair]. *)
Record Balance : Type := mkBalance { Coins : uint64; Hours : uint64 }.
Record BalancePair : Type := mkBalancePair {
  Confirmed : Balance;
  Predicted : Balance
}.

(** The zero value [wallet.BalancePair{}]. *)
Definition BalancePair_zero : BalancePair :=
  mkBalancePair (mkBalance 0 0) (mkBalance 0 0).

(** [params.VerifyTxn]: the policy of one verification context. *)
Record VerifyTxn : Type := mkVerifyTxn {
  BurnFactor : Z;
  MaxTransactionSize : Z;
  MaxDropletPrecision : Z
}.

Inductive TxnSignedFlag : Type := TxnSigned | TxnUnsigned.

(** ** Checked arithmetic (package mathutil) *)

Module mathutil.

Definition MaxUint64 : Z := 2 ^ 64 - 1.
Definition MaxUint32 : Z := 2 ^ 32 - 1.

(** Modelled from the spec: package mathutil is imported from
    another module and its code is not part of these sources.  "Arithmetic overflow (coin/coin-hour addition): always
    fatal": the sum is computed on 64 bits and an error is returned
    when it wrapped. *)
Definition AddUint64 (a b : uint64) : result uint64 :=
  let c := (a + b) mod 2 ^ 64 in
  if (c <? a) || (c <? b) then Err ErrUint64AddOverflow else Ok c.

Definition MultUint64 (a b : uint64) : result uint64 :=
  let c := (a * b) mod 2 ^ 64 in
  if negb (a =? 0) && negb (c / a =? b) then Err ErrUint64MultOverflow
  else Ok c.

Definition AddUint32 (a b : Z) : result Z :=
  let c := (a + b) mod 2 ^ 32 in
  if (c <? a) || (c <? b) then Err ErrUint32AddOverflow else Ok c.

End mathutil.

Definition is_uint64 (z : Z) : Prop := 0 ≤ z ≤ mathutil.MaxUint64.

(** ** What the imported packages provide

    Hashing, encoding sizes, signature checks, the ordering of candidate
    transactions and a few constants come from packages that are
    imported, not defined, by the visor.  They are taken as given. *)
Class Externals : Type := {
  (** [Transaction.Hash()] *)
  TxnHash : Transaction → SHA256;
  (** [UxOut.Hash()] *)
  UxHash : UxOut → SHA256;
  (** [Transaction.Size()], a checked uint32 *)
  TxnSize : Transaction → result Z;
  (** [SignedBlock.VerifySignature(pubkey)] *)
  VerifySignature : SignedBlock → PubKey → option error;
  (** [transaction.VerifySingleTxnUserConstraints(txn)] *)
  VerifySingleTxnUserConstraints : Transaction → option error;
  (** [coin.SortTransactions(txns, feeCalc)] *)
  SortTransactions :
    list Transaction → (Transaction → result uint64) → result (list Transaction);
  (** [coin.MaxBlockTransactions] *)
  MaxBlockTransactions : nat;
  (** [params.UserVerifyTxn] *)
  UserVerifyTxn : VerifyTxn;
  (** [params.Distribution], only handed through to the verifier *)
  Distribution : Type
}.

(** ** Unspent outputs and their totals (package coin) *)

Module coin.
Section Coin.
Context `{!Externals}.

(** Modelled from the spec: [UxOut.CoinHours] lives in package coin,
    which is imported and whose code is not part of these sources.  "Coin-hours accrue linearly
    with wall/block time since creation and must be computed with
    overflow checks": one coin-hour per whole coin (10^6 droplets) and
    hour elapsed, rounded down, added to the hours the output was
    created with.  The overflow of that last addition is the error the
    visor names [coin.ErrAddEarnedCoinHoursAdditionOverflow]. *)
Definition UxOut_CoinHours (uo : UxOut) (t : uint64) : result uint64 :=
  if t <? ux_Time (ux_Head uo) then Ok (ux_Hours (ux_Body uo))
  else
    let seconds := t - ux_Time (ux_Head uo) in
    let wholeCoins := ux_Coins (ux_Body uo) / 1000000 in
    match mathutil.MultUint64 seconds wholeCoins with
    | Err _ =>
        Err (errors_New "UxOut.CoinHours: Calculating whole coin seconds overflows uint64")
    | Ok wholeCoinSeconds =>
        let remainderDroplets := ux_Coins (ux_Body uo) mod 1000000 in
        match mathutil.MultUint64 seconds remainderDroplets with
        | Err _ =>
            Err (errors_New "UxOut.CoinHours: Calculating droplet seconds overflows uint64")
        | Ok dropletSeconds =>
            let coinSeconds :=
              (wholeCoinSeconds + dropletSeconds / 1000000) mod 2 ^ 64 in
            let coinHours := coinSeconds / 3600 in
            match mathutil.AddUint64 (ux_Hours (ux_Body uo)) coinHours with
            | Err _ => Err ErrAddEarnedCoinHoursAdditionOverflow
            | Ok totalHours => Ok totalHours
            end
        end
    end.

(** Modelled from the spec: [UxArray.Coins] is in the imported package
    coin.  "both coin and hour totals addition-overflow-checked": the
    coins are added one output at a time and the first overflowing
    addition fails the total. *)
Fixpoint Coins_from (coins : uint64) (ua : UxArray) : result uint64 :=
  match ua with
  | [] => Ok coins
  | ux :: rest =>
      match mathutil.AddUint64 coins (ux_Coins (ux_Body ux)) with
      | Err _ => Err (errors_New "UxArray.Coins addition overflow")
      | Ok c => Coins_from c rest
      end
  end.

Definition UxArray_Coins (ua : UxArray) : result uint64 := Coins_from 0 ua.

(** Modelled from the spec: [UxArray.CoinHours] is in the imported
    package coin.  The hours of every output at [headTime] are added
    with an overflow check; a failure of one output's own computation
    is handed on as it is. *)
Fixpoint CoinHours_from (hours : uint64) (ua : UxArray) (headTime : uint64)
  : result uint64 :=
  match ua with
  | [] => Ok hours
  | ux :: rest =>
      match UxOut_CoinHours ux headTime with
      | Err e => Err e
      | Ok uxHours =>
          match mathutil.AddUint64 hours uxHours with
          | Err _ => Err (errors_New "UxArray.CoinHours addition overflow")
          | Ok h => CoinHours_from h rest headTime
          end
      end
  end.

Definition UxArray_CoinHours (ua : UxArray) (headTime : uint64)
  : result uint64 := CoinHours_from 0 ua headTime.

Definition hasHash (hs : list SHA256) (ux : UxOut) : bool :=
  bool_decide (UxHash ux ∈ hs).

(** Modelled from the spec: [UxArray.Sub] and [UxArray.Add] are in the
    imported package coin.  "predicted = confirmed minus
    unconfirmed-outgoing plus unconfirmed-incoming": [Sub] keeps the
    outputs whose hash is not among the other's, [Add] appends the
    other's outputs whose hash is not yet present. *)
Definition UxArray_Sub (ua other : UxArray) : UxArray :=
  filter (fun ux => hasHash (UxHash <$> other) ux = false) ua.

Definition UxArray_Add (ua other : UxArray) : UxArray :=
  ua ++ filter (fun ux => hasHash (UxHash <$> ua) ux = false) other.

(** Modelled from the spec: [coin.CreateUnspent] is in the imported
    package coin.  The output a transaction would create if it were
    confirmed on top of the block with header [bh]. *)
Definition CreateUnspent (bh : BlockHeader) (txn : Transaction)
    (o : TransactionOutput) : UxOut :=
  mkUxOut (mkUxHead (bh_Time bh) (bh_BkSeq bh))
          (mkUxBody (TxnHash txn) (out_Address o) (out_Coins o) (out_Hours o)).

(** Modelled from the spec: [Transactions.TruncateBytesTo] is in the
    imported package coin.  "truncates to a maximum cumulative byte
    budget", dropping whole transactions: the longest prefix whose
    sizes add up to at most [size]; a transaction whose size cannot be
    computed fails the truncation. *)
Fixpoint TruncateBytesTo_from (total : Z) (txns : list Transaction) (size : Z)
  : result (list Transaction) :=
  match txns with
  | [] => Ok []
  | t :: rest =>
      match TxnSize t with
      | Err e => Err e
      | Ok pending =>
          match mathutil.AddUint32 total pending with
          | Err _ => Ok []
          | Ok pendingTotal =>
              if size <? pendingTotal then Ok []
              else (t ::.) <$> TruncateBytesTo_from pendingTotal rest size
          end
      end
  end.

Definition TruncateBytesTo (txns : list Transaction) (size : Z)
  : result (list Transaction) := TruncateBytesTo_from 0 txns size.

End Coin.
End coin.

(** ** The backing store and its transaction scopes (package dbutil) *)

(** Modelled from the spec: package dbutil is imported and its code is not
    part of these sources.  "once a read-write scope starts, it runs to
    completion or failure, and failure must roll back every mutation
    performed so far [...] as one unit": [Update] commits what the
    callback did when it returns no error and leaves the store as it was
    otherwise. *)
Definition Update {S A} (f : TxM S A) (db : S) : S * result A :=
  match runTx f db with
  | (db', Ok a) => (db', Ok a)
  | (_, Err e) => (db, Err e)
  end.

(** Modelled from the spec: "all pure queries run inside a read-only
    transaction": [View] runs the callback on the contents of the store
    and cannot change them. *)
Definition View {S A} (f : S → result A) (db : S) : result A := f db.

(** ** The collaborators of the visor

    [Blockchainer], [UnconfirmedTransactionPooler] and [Historyer] are Go
    interfaces; [S] is what a transaction scope sees of the store. *)

Section Interfaces.
Context `{!Externals}.

Record Blockchainer (S : Type) : Type := {
  Head : S → result SignedBlock;
  HeadSeq : S → result (uint64 * bool);
  GetSignedBlockBySeq : S → uint64 → result (option SignedBlock);
  VerifySingleTxnSoftHardConstraints :
    S → Transaction → Distribution → VerifyTxn → TxnSignedFlag →
    result (SignedBlock * UxArray);
  ExecuteBlock : SignedBlock → TxM S ();
  NewBlock : S → list Transaction → uint64 → result Block;
  TransactionFee : S → uint64 → Transaction → result uint64;
  (** [Unspent().GetArray] and [Unspent().GetUnspentsOfAddrs] *)
  Unspent_GetArray : S → list SHA256 → result UxArray;
  Unspent_GetUnspentsOfAddrs : S → list Address → result AddressUxOuts
}.

Record UnconfirmedTransactionPooler (S : Type) : Type := {
  AllRawTransactions : S → result (list Transaction);
  (** the known flag and the advisory soft violation, or an error *)
  InjectTransaction :
    Blockchainer S → Transaction → Distribution → VerifyTxn →
    TxM S (bool * option string);
  RemoveTransactions : list SHA256 → TxM S ();
  (** the entries [ForEach] visits, in the order it visits them *)
  Entries : S → result (list (SHA256 * UnconfirmedTransaction))
}.

Record Historyer (S : Type) : Type := {
  NeedsReset : S → result bool;
  Erase : TxM S ();
  ParsedBlockSeq : S → result (uint64 * bool);
  ParseBlock : Block → TxM S ();
  AddressSeen : S → Address → result bool
}.

(** [UnconfirmedTransactionPooler.ForEach(tx, f)]: [f] is called on
    every entry and the first error stops the walk.  The closure's
    captured variables are the accumulator [acc]. *)
Fixpoint forEach {A} (f : SHA256 → UnconfirmedTransaction → A → result A)
    (entries : list (SHA256 * UnconfirmedTransaction)) (acc : A) : result A :=
  match entries with
  | [] => Ok acc
  | (h, ut) :: rest => acc' ← f h ut acc; forEach f rest acc'
  end.

Definition ForEach {S A} (utp : UnconfirmedTransactionPooler S) (tx : S)
    (f : SHA256 → UnconfirmedTransaction → A → result A) (acc : A) : result A :=
  entries ← Entries S utp tx; forEach f entries acc.

Record Config : Type := {
  IsBlockPublisher : bool;
  BlockchainPubkey : PubKey;
  cfg_Distribution : Distribution;
  UnconfirmedVerifyTxn : VerifyTxn;
  CreateBlockVerifyTxn : VerifyTxn;
  MaxBlockTransactionsSize : Z
}.

Record Visor (S : Type) : Type := {
  config : Config;
  unconfirmed : UnconfirmedTransactionPooler S;
  blockchain : Blockchainer S;
  history : Historyer S
}.

Record TransactionsFinder (S : Type) : Type := {
  tf_history : Historyer S;
  tf_unconfirmed : UnconfirmedTransactionPooler S
}.

End Interfaces.

Arguments Head {_ S} _ _.
Arguments HeadSeq {_ S} _ _.
Arguments GetSignedBlockBySeq {_ S} _ _ _.
Arguments VerifySingleTxnSoftHardConstraints {_ S} _ _ _ _ _ _.
Arguments ExecuteBlock {_ S} _ _.
Arguments NewBlock {_ S} _ _ _ _.
Arguments TransactionFee {_ S} _ _ _ _.
Arguments Unspent_GetArray {_ S} _ _ _.
Arguments Unspent_GetUnspentsOfAddrs {_ S} _ _ _.
Arguments AllRawTransactions {_ S} _ _.
Arguments InjectTransaction {_ S} _ _ _ _ _.
Arguments RemoveTransactions {_ S} _ _.
Arguments Entries {_ S} _ _.
Arguments NeedsReset {S} _ _.
Arguments Erase {S} _.
Arguments ParsedBlockSeq {S} _ _.
Arguments ParseBlock {S} _ _.
Arguments AddressSeen {S} _ _ _.
Arguments config {_ S} _.
Arguments unconfirmed {_ S} _.
Arguments blockchain {_ S} _.
Arguments history {_ S} _.
Arguments tf_history {_ S} _.
Arguments tf_unconfirmed {_ S} _.

(** ** The visor *)

Section VisorOps.
Context `{!Externals} {S : Type}.

(** *** Rebuilding the history index *)

(** The body of the loop of [parseHistoryTo], [n] iterations from
    index [i] on.  All arithmetic is on 64 bits. *)
Fixpoint parseHistoryTo_loop (history : Historyer S) (bc : Blockchainer S)
    (parsedBlockSeq : uint64) (n : nat) (i : uint64) : TxM S () :=
  match n with
  | O => mret ()
  | Datatypes.S n' =>
      let depth := (parsedBlockSeq + i + 1) mod 2 ^ 64 in
      b ← reading (fun tx => GetSignedBlockBySeq bc tx depth);
      match b with
      | None => pure (Err (ErrNoBlockInDepth depth))
      | Some b =>
          _ ← ParseBlock history (sb_Block b);
          parseHistoryTo_loop history bc parsedBlockSeq n' (i + 1)
      end
  end.

Definition parseHistoryTo (history : Historyer S) (bc : Blockchainer S)
    (height : uint64) : TxM S () :=
  '(parsedBlockSeq, _) ← reading (ParsedBlockSeq history);
  parseHistoryTo_loop history bc parsedBlockSeq
    (Z.to_nat ((height - parsedBlockSeq) mod 2 ^ 64)) 0.

Definition initHistory (bc : Blockchainer S) (history : Historyer S)
  : TxM S () :=
  shouldReset ← reading (NeedsReset history);
  if negb shouldReset then mret ()
  else
    _ ← Erase history;
    '(headSeq, _) ← reading (HeadSeq bc);
    parseHistoryTo history bc headSeq.

(** *** Creating a block *)

(** The filtering loop of [createBlockFromTxns]: transactions that
    violate a hard or a soft constraint are left out, any other error
    ends the call. *)
Fixpoint filterTxns (vs : Visor S) (tx : S) (txns filteredTxns : list Transaction)
  : result (list Transaction) :=
  match txns with
  | [] => Ok filteredTxns
  | txn :: rest =>
      match VerifySingleTxnSoftHardConstraints (blockchain vs) tx txn
              (cfg_Distribution (config vs)) (CreateBlockVerifyTxn (config vs))
              TxnSigned with
      | Err (ErrTxnViolatesHardConstraint _)
      | Err (ErrTxnViolatesSoftConstraint _) => filterTxns vs tx rest filteredTxns
      | Err err => Err err
      | Ok _ => filterTxns vs tx rest (filteredTxns ++ [txn])
      end
  end.

(** The verifier of the block-creation context rejects the transaction
    for a hard or a soft constraint. *)
Definition violatesConstraints (vs : Visor S) (tx : S) (txn : Transaction)
  : Prop :=
  ∃ msg,
    VerifySingleTxnSoftHardConstraints (blockchain vs) tx txn
      (cfg_Distribution (config vs)) (CreateBlockVerifyTxn (config vs)) TxnSigned
    = Err (ErrTxnViolatesHardConstraint msg) ∨
    VerifySingleTxnSoftHardConstraints (blockchain vs) tx txn
      (cfg_Distribution (config vs)) (CreateBlockVerifyTxn (config vs)) TxnSigned
    = Err (ErrTxnViolatesSoftConstraint msg).

Definition createBlockFromTxns (vs : Visor S) (tx : S)
    (txns : list Transaction) (when : uint64) : outcome Block :=
  if bool_decide (length txns = 0%nat) then
    Returns (Err (errors_New "No transactions"))
  else
    match filterTxns vs tx txns [] with
    | Err err => Returns (Err err)
    | Ok txns =>
        if bool_decide (length txns = 0%nat) then
          Returns (Err (errors_New
            "No transactions after filtering for constraint violations"))
        else
          match Head (blockchain vs) tx with
          | Err err => Returns (Err err)
          | Ok head =>
              match SortTransactions txns
                      (TransactionFee (blockchain vs) tx (sb_Time head)) with
              | Err err => Returns (Err err)
              | Ok txns =>
                  match coin.TruncateBytesTo txns
                          (MaxBlockTransactionsSize (config vs)) with
                  | Err err => Returns (Err err)
                  | Ok txns =>
                      let txns :=
                        if bool_decide (MaxBlockTransactions < length txns)%nat
                        then take MaxBlockTransactions txns else txns in
                      if bool_decide (length txns = 0%nat) then
                        Panics "TruncateBytesTo removed all transactions"
                      else Returns (NewBlock (blockchain vs) tx txns when)
                  end
              end
          end
    end.

(** *** Executing a signed block *)

Definition executeSignedBlockUnsafe (vs : Visor S) (b : SignedBlock)
  : TxM S () :=
  _ ← ExecuteBlock (blockchain vs) b;
  let txnHashes := TxnHash <$> bk_Transactions (sb_Block b) in
  _ ← RemoveTransactions (unconfirmed vs) txnHashes;
  ParseBlock (history vs) (sb_Block b).

Definition executeSignedBlock (vs : Visor S) (b : SignedBlock) : TxM S () :=
  match VerifySignature b (BlockchainPubkey (config vs)) with
  | Some err => pure (Err err)
  | None => executeSignedBlockUnsafe vs b
  end.

Definition ExecuteSignedBlock (vs : Visor S) (b : SignedBlock) (db : S)
  : S * result () :=
  Update (executeSignedBlock vs b) db.

Definition ExecuteSignedBlockUnsafe (vs : Visor S) (b : SignedBlock) (db : S)
  : S * result () :=
  Update (executeSignedBlockUnsafe vs b) db.

(** *** Injecting transactions *)

(** The values returned are the known flag and the soft violation; on
    an error Go returns [false, nil, err]. *)
Definition InjectForeignTransaction (vs : Visor S) (txn : Transaction) (db : S)
  : S * result (bool * option string) :=
  Update (InjectTransaction (unconfirmed vs) (blockchain vs) txn
            (cfg_Distribution (config vs)) (UnconfirmedVerifyTxn (config vs))) db.

Definition InjectUserTransactionTx (vs : Visor S) (txn : Transaction)
  : TxM S (bool * SignedBlock * UxArray) :=
  match VerifySingleTxnUserConstraints txn with
  | Some err => pure (Err err)
  | None =>
      '(head, inputs) ← reading (fun tx =>
          VerifySingleTxnSoftHardConstraints (blockchain vs) tx txn
            (cfg_Distribution (config vs)) UserVerifyTxn TxnSigned);
      '(known, softErr) ← InjectTransaction (unconfirmed vs) (blockchain vs) txn
          (cfg_Distribution (config vs)) UserVerifyTxn;
      mret (known, head, inputs)
  end.

Definition InjectUserTransaction (vs : Visor S) (txn : Transaction) (db : S)
  : S * result (bool * SignedBlock * UxArray) :=
  Update (InjectUserTransactionTx vs txn) db.

End VisorOps.

Section Queries.
Context `{!Externals} {S : Type}.

(** [m[a] = append(m[a], ux)] on a map of output arrays. *)
Definition appendAt (m : AddressUxOuts) (a : Address) (ux : UxOut)
  : AddressUxOuts :=
  <[a := default [] (m !! a) ++ [ux]]> m.

(** Modelled from the spec: [txnOutputsForAddrs] belongs to package
    visor but its code is not part of these sources.  "outputs that
    would be created if every pooled transaction confirmed", kept for
    the addresses asked for and grouped by owner. *)
Definition txnOutputsForAddrs (bh : BlockHeader) (addrs : list Address)
    (txns : list Transaction) : result AddressUxOuts :=
  Ok (foldl (fun auxs t =>
        foldl (fun auxs o =>
                 if bool_decide (out_Address o ∈ addrs)
                 then appendAt auxs (out_Address o) (coin.CreateUnspent bh t o)
                 else auxs)
              auxs (txn_Out t))
      ∅ txns).

(** The unconfirmed inputs owned by the addresses asked for. *)
Definition spendsOf (addrs : list Address) (uxa : UxArray) : AddressUxOuts :=
  foldl (fun spendUxs ux =>
           if bool_decide (ux_Address (ux_Body ux) ∈ addrs)
           then appendAt spendUxs (ux_Address (ux_Body ux)) ux
           else spendUxs)
        ∅ uxa.

(** One turn of the loop over the addresses in
    [GetBalanceOfAddresses]. *)
Definition balanceOf (auxs spendUxs recvUxs : AddressUxOuts)
    (headTime : uint64) (addr : Address) : result BalancePair :=
  match auxs !! addr with
  | None => Ok BalancePair_zero
  | Some uxs =>
      let outUxs := default [] (spendUxs !! addr) in
      let inUxs := default [] (recvUxs !! addr) in
      let predictedUxs := coin.UxArray_Add (coin.UxArray_Sub uxs outUxs) inUxs in
      coins ← wrapErr "uxs.Coins failed" (coin.UxArray_Coins uxs);
      coinHours ←
        match coin.UxArray_CoinHours uxs headTime with
        | Ok h => Ok h
        | Err ErrAddEarnedCoinHoursAdditionOverflow => Ok 0
        | Err err => Err (fmt_Errorf "uxs.CoinHours failed" err)
        end;
      pcoins ← wrapErr "predictedUxs.Coins failed" (coin.UxArray_Coins predictedUxs);
      let r := coin.UxArray_CoinHours predictedUxs headTime in
      let pcoinHours := valueOf r in
      coinHours ←
        match r with
        | Ok _ => Ok coinHours
        | Err ErrAddEarnedCoinHoursAdditionOverflow => Ok 0
        | Err err => Err (fmt_Errorf "predictedUxs.CoinHours failed" err)
        end;
      Ok (mkBalancePair (mkBalance coins coinHours) (mkBalance pcoins pcoinHours))
  end.

(** What [GetBalanceOfAddresses] reads inside its read-only scope. *)
Definition balanceView (vs : Visor S) (addrs : list Address) (tx : S)
  : result (SignedBlock * AddressUxOuts * UxArray * AddressUxOuts) :=
  head ← Head (blockchain vs) tx;
  txns ← AllRawTransactions (unconfirmed vs) tx;
  recvUxs ← txnOutputsForAddrs (sb_Head head) addrs txns;
  let inputs := concat (txn_In <$> txns) in
  uxa ← wrapErr "GetArray failed when checking addresses balance"
          (Unspent_GetArray (blockchain vs) tx inputs);
  auxs ← wrapErr "GetUnspentsOfAddrs failed when checking addresses balance"
           (Unspent_GetUnspentsOfAddrs (blockchain vs) tx addrs);
  Ok (head, recvUxs, uxa, auxs).

Definition GetBalanceOfAddresses (vs : Visor S) (addrs : list Address) (db : S)
  : result (list BalancePair) :=
  if bool_decide (length addrs = 0%nat) then Ok []
  else
    '(head, recvUxs, uxa, auxs) ← View (balanceView vs addrs) db;
    let spendUxs := spendsOf addrs uxa in
    let headTime := sb_Time head in
    mapM (balanceOf auxs spendUxs recvUxs headTime) addrs.

(** *** Address activity *)

Fixpoint toSkyAddrs (addrs : list Addresser) : result (list Address) :=
  match addrs with
  | [] => Ok []
  | SkycoinAddress a :: rest => (a ::.) <$> toSkyAddrs rest
  | BitcoinAddress _ :: _ => Err (errors_New "invalid skycoin address")
  end.

(** [addrsMap[a] = i] for every index [i], in increasing order. *)
Definition indexMap (skyAddrs : list Address) : gmap Address nat :=
  foldl (fun m ia => <[ia.2 := ia.1]> m) ∅ (imap pair skyAddrs).

(** The scan of the history from the last address to the first;
    [n] is one more than the index looked at. *)
Fixpoint scanHistory (history : Historyer S) (tx : S)
    (skyAddrs : list Address) (n : nat) (active : list bool)
  : result (list bool) :=
  match n with
  | O => Ok active
  | Datatypes.S i =>
      match skyAddrs !! i with
      | None => Ok active
      | Some a =>
          ok ← AddressSeen history tx a;
          if ok : bool then Ok (<[i := true]> active)
          else scanHistory history tx skyAddrs i active
      end
  end.

(** The callback given to [ForEach]: mark the owner of every output. *)
Definition markOutputs (addrsMap : gmap Address nat)
    (h : SHA256) (ut : UnconfirmedTransaction) (active : list bool)
  : result (list bool) :=
  Ok (foldl (fun active o =>
               match addrsMap !! out_Address o with
               | Some i => <[i := true]> active
               | None => active
               end)
            active (txn_Out (ut_Transaction ut))).

Definition AddressesActivity (tf : TransactionsFinder S)
    (addrs : list Addresser) (db : S) : result (list bool) :=
  if bool_decide (length addrs = 0%nat) then Ok []
  else
    skyAddrs ← toSkyAddrs addrs;
    let active := replicate (length addrs) false in
    let addrsMap := indexMap skyAddrs in
    if bool_decide (size addrsMap ≠ length addrs) then
      Err (errors_New "duplicates addresses not allowed")
    else
      View (fun tx =>
              active ← scanHistory (tf_history tf) tx skyAddrs
                         (length skyAddrs) active;
              ForEach (tf_unconfirmed tf) tx (markOutputs addrsMap) active) db.

End Queries.

(** ** Activity, said without the scan *)

(** Some transaction of the pool has an output owned by the address. *)
Definition paidInPool (es : list (SHA256 * UnconfirmedTransaction))
    (a : Address) : Prop :=
  ∃ e o, e ∈ es ∧ o ∈ txn_Out (ut_Transaction e.2) ∧ out_Address o = a.

(** [i] is the greatest index below [n] whose address the history has
    seen. *)
Definition lastSeenBelow (seen : Address → bool) (sky : list Address)
    (n i : nat) : Prop :=
  (i < n)%nat ∧ (∃ a, sky !! i = Some a ∧ seen a = true) ∧
  ∀ j a', (i < j < n)%nat → sky !! j = Some a' → seen a' = false.

(** ** Exact totals

    The totals the balance computation is after, on unbounded integers,
    to say what an overflow is. *)

Section Totals.
Context `{!Externals}.

Definition sumZ (l : list Z) : Z := foldr Z.add 0 l.

(** The coins of the outputs, added without a bound. *)
Definition totalCoins (ua : UxArray) : Z :=
  sumZ ((fun ux => ux_Coins (ux_Body ux)) <$> ua).



(** The fields of an output are 64-bit values. *)
Definition wf_UxOut (ux : UxOut) : bool :=
  (0 <=? ux_Coins (ux_Body ux)) && (ux_Coins (ux_Body ux) <=? mathutil.MaxUint64) &&
  (0 <=? ux_Hours (ux_Body ux)) && (ux_Hours (ux_Body ux) <=? mathutil.MaxUint64) &&
  (0 <=? ux_Time (ux_Head ux)) && (ux_Time (ux_Head ux) <=? mathutil.MaxUint64).


End Totals.

(** ** An in-memory store and its components

    The chain, the unspent-output index, the unconfirmed pool and the
    history index are separate packages whose code is not part of these
    sources.  The definitions below follow their description in the
    specification over a plain record of tables; they are what the visor
    is run on in the examples, and the pool is what the injection
    properties are stated against. *)

Module Ref.

Record DB : Type := mkDB {
  db_blocks : list SignedBlock;
  db_unspent : list UxOut;
  db_pool : list (SHA256 * UnconfirmedTransaction);
  db_parsedBlockSeq : option uint64;
  db_parsed : list Block
}.

Definition set_blocks_unspent (db : DB) bs us : DB :=
  mkDB bs us (db_pool db) (db_parsedBlockSeq db) (db_parsed db).
Definition set_pool (db : DB) p : DB :=
  mkDB (db_blocks db) (db_unspent db) p (db_parsedBlockSeq db) (db_parsed db).
Definition set_history (db : DB) s p : DB :=
  mkDB (db_blocks db) (db_unspent db) (db_pool db) s p.

(** *** Unspent-output index *)

Module Unspents.
Section WithExternals.
Context `{!Externals}.

(** Modelled from the spec: "get_array(hashes) -> (results, fails with
    UnspentNotExist{id} if any hash missing)". *)
Fixpoint GetArray (db : DB) (hashes : list SHA256) : result UxArray :=
  match hashes with
  | [] => Ok []
  | h :: rest =>
      match list_find (fun ux => UxHash ux = h) (db_unspent db) with
      | None => Err (ErrStore "unspent output does not exist")
      | Some (_, ux) => (ux ::.) <$> GetArray db rest
      end
  end.

(** Modelled from the spec: "get_for_addresses(addrs) -> map<address,
    outputs>": one entry for every address asked for, holding the
    unspent outputs the address owns; the entry of an address that owns
    none is empty. *)
Definition GetUnspentsOfAddrs (db : DB) (addrs : list Address)
  : result AddressUxOuts :=
  Ok (foldl (fun auxs addr =>
               <[addr := filter (fun ux => ux_Address (ux_Body ux) = addr)
                           (db_unspent db)]> auxs)
            ∅ addrs).

End WithExternals.
End Unspents.

(** *** Chain *)

Module Blockchain.
Section WithExternals.
Context `{!Externals}.

Definition Head (db : DB) : result SignedBlock :=
  match last (db_blocks db) with
  | Some b => Ok b
  | None => Err (errors_New "found no head block")
  end.

Definition HeadSeq (db : DB) : result (uint64 * bool) :=
  match last (db_blocks db) with
  | Some b => Ok (bk_Seq (sb_Block b), true)
  | None => Ok (0, false)
  end.

Definition GetSignedBlockBySeq (db : DB) (seq : uint64)
  : result (option SignedBlock) :=
  Ok (snd <$> list_find (fun b => bk_Seq (sb_Block b) = seq) (db_blocks db)).

Definition sumCoins (outs : list TransactionOutput) : Z :=
  foldr (fun o acc => out_Coins o + acc) 0 outs.

(** Modelled from the spec: "verify_single_transaction": the hard
    constraints kept here are that every input is unspent and that the
    outputs do not carry more coins than the inputs; the soft
    constraint kept is the size ceiling of the policy.  Hard
    constraints are checked first. *)
Definition VerifySingleTxnSoftHardConstraints (db : DB) (txn : Transaction)
    (_ : Distribution) (p : VerifyTxn) (_ : TxnSignedFlag)
  : result (SignedBlock * UxArray) :=
  match Unspents.GetArray db (txn_In txn) with
  | Err _ => Err (ErrTxnViolatesHardConstraint "unspent output does not exist")
  | Ok uxIn =>
      head ← Head db;
      if sumCoins (txn_Out txn) >? foldr (fun ux acc => ux_Coins (ux_Body ux) + acc) 0 uxIn
      then Err (ErrTxnViolatesHardConstraint
                  "Insufficient coins")
      else if txn_Length txn >? MaxTransactionSize p
      then Err (ErrTxnViolatesSoftConstraint
                  "Transaction size bigger than max block size")
      else Ok (head, uxIn)
  end.

Definition removeUnspent (h : SHA256) (us : list UxOut) : result (list UxOut) :=
  match list_find (fun ux => UxHash ux = h) us with
  | None => Err (ErrStore "unspent output does not exist")
  | Some (i, _) => Ok (delete i us)
  end.

Fixpoint removeUnspents (hs : list SHA256) (us : list UxOut)
  : result (list UxOut) :=
  match hs with
  | [] => Ok us
  | h :: rest => us' ← removeUnspent h us; removeUnspents rest us'
  end.

(** Modelled from the spec: "execute_block": "removes all consumed
    UxOuts and inserts all produced UxOuts in the Unspent-Output Index,
    appends the block, advances head"; removing an absent output
    fails. *)
Definition ExecuteBlock (b : SignedBlock) : TxM DB () :=
  mkTxM (fun db =>
    let txns := bk_Transactions (sb_Block b) in
    match removeUnspents (concat (txn_In <$> txns)) (db_unspent db) with
    | Err e => (db, Err e)
    | Ok us =>
        let created :=
          concat ((fun t => coin.CreateUnspent (sb_Head b) t <$> txn_Out t) <$> txns) in
        (set_blocks_unspent db (db_blocks db ++ [b]) (us ++ created), Ok ())
    end).

Definition NewBlock (db : DB) (txns : list Transaction) (when : uint64)
  : result Block :=
  head ← Head db;
  Ok (mkBlock (mkBlockHeader 0 when ((bk_Seq (sb_Block head) + 1) mod 2 ^ 64)
                 0 0 0) txns).

Definition TransactionFee (db : DB) (t : uint64) (txn : Transaction)
  : result uint64 :=
  uxIn ← Unspents.GetArray db (txn_In txn);
  hoursIn ← coin.UxArray_CoinHours uxIn t;
  let hoursOut := foldr (fun o acc => out_Hours o + acc) 0 (txn_Out txn) in
  if hoursIn <? hoursOut then Err (errors_New "Insufficient coinhours")
  else Ok (hoursIn - hoursOut).

End WithExternals.
End Blockchain.


(** *** Unconfirmed pool *)

Module UnconfirmedTransactionPool.
Section WithExternals.
Context `{!Externals}.

Definition AllRawTransactions (db : DB) : result (list Transaction) :=
  Ok ((fun e => ut_Transaction e.2) <$> db_pool db).

Definition hasKey (db : DB) (h : SHA256) : bool :=
  bool_decide (h ∈ fst <$> db_pool db).

(** The transaction is one of those waiting in the pool. *)
Definition inPool (db : DB) (txn : Transaction) : Prop :=
  TxnHash txn ∈ (fst <$> db_pool db).

(** Modelled from the spec: the pool's [InjectTransaction] is in a file
    of package visor that is not part of these sources.  "runs
    verify_single_transaction hard constraints (fatal on failure);
    soft-constraint failures are recorded but do not block injection
    [...] Idempotent: re-injecting an already-present hash reports
    already_known = true without duplicating state." *)
Definition InjectTransaction (bc : Blockchainer DB) (txn : Transaction)
    (distParams : Distribution) (verifyParams : VerifyTxn)
  : TxM DB (bool * option string) :=
  mkTxM (fun db =>
    let verdict :=
      match VerifySingleTxnSoftHardConstraints bc db txn distParams verifyParams TxnSigned with
      | Ok _ => Ok (None, 1)
      | Err (ErrTxnViolatesSoftConstraint msg) => Ok (Some msg, 0)
      | Err err => Err err
      end in
    match verdict with
    | Err err => (db, Err err)
    | Ok (softErr, isValid) =>
        let hash := TxnHash txn in
        if hasKey db hash then (db, Ok (true, softErr))
        else
          let utx := mkUnconfirmedTransaction txn 0 0 0 isValid in
          (set_pool db (db_pool db ++ [(hash, utx)]), Ok (false, softErr))
    end).

(** Modelled from the spec: "remove_confirmed(hashes): [...] deletes
    pooled entries whose hash is now confirmed.  Never fails for
    missing hashes (idempotent removal)." *)
Definition RemoveTransactions (hashes : list SHA256) : TxM DB () :=
  mkTxM (fun db =>
    (set_pool db (filter (fun e => e.1 ∉ hashes) (db_pool db)), Ok ())).

Definition Entries (db : DB) : result (list (SHA256 * UnconfirmedTransaction)) :=
  Ok (db_pool db).

End WithExternals.
End UnconfirmedTransactionPool.


(** *** History index *)

Module HistoryDB.
Section WithExternals.
Context `{!Externals}.

(** Modelled from the spec: "needs_reset() -> bool (true if the index's
    parsed-height bookkeeping is stale, missing, or inconsistent with
    the chain's current head)". *)
Definition NeedsReset (db : DB) : result bool :=
  match db_parsedBlockSeq db, last (db_blocks db) with
  | None, _ => Ok true
  | Some p, Some b => Ok (negb (p =? bk_Seq (sb_Block b)))
  | Some _, None => Ok true
  end.

(** Modelled from the spec: "erase()": nothing is left of the index,
    its parsed-height record included. *)
Definition Erase : TxM DB () :=
  mkTxM (fun db => (set_history db None [], Ok ())).

(** Modelled from the spec: "parsed_block_seq() -> (seq, ok)": the
    recorded height and true, or the zero value and false when nothing
    is recorded. *)
Definition ParsedBlockSeq (db : DB) : result (uint64 * bool) :=
  match db_parsedBlockSeq db with
  | Some p => Ok (p, true)
  | None => Ok (0, false)
  end.

(** Modelled from the spec: "parse_block(block) (incrementally extends
    the index by one block [...])" and moves the parsed height to the
    block's sequence number.  The index is kept as the list of the
    blocks parsed so far. *)
Definition ParseBlock (b : Block) : TxM DB () :=
  mkTxM (fun db =>
    (set_history db (Some (bk_Seq b)) (db_parsed db ++ [b]), Ok ())).

(** Modelled from the spec: "address_seen(addr) -> bool": some output
    of some parsed transaction is owned by the address. *)
Definition AddressSeen (db : DB) (a : Address) : result bool :=
  Ok (bool_decide
        (a ∈ concat ((fun b =>
               concat ((fun t => out_Address <$> txn_Out t) <$> bk_Transactions b))
             <$> db_parsed db))).

End WithExternals.
End HistoryDB.

(** The blocks of the chain are numbered from 0 in the order they were
    executed, on 64 bits. *)
Definition wf_chain (db : DB) : Prop :=
  (∀ i b, db_blocks db !! i = Some b → bk_Seq (sb_Block b) = Z.of_nat i) ∧
  Z.of_nat (length (db_blocks db)) ≤ 2 ^ 64.

Section Components.
Context `{!Externals}.

Definition chain : Blockchainer DB :=
  Build_Blockchainer DB Blockchain.Head Blockchain.HeadSeq
    Blockchain.GetSignedBlockBySeq
    Blockchain.VerifySingleTxnSoftHardConstraints Blockchain.ExecuteBlock
    Blockchain.NewBlock Blockchain.TransactionFee
    Unspents.GetArray Unspents.GetUnspentsOfAddrs.

Definition pool : UnconfirmedTransactionPooler DB :=
  Build_UnconfirmedTransactionPooler DB
    UnconfirmedTransactionPool.AllRawTransactions
    UnconfirmedTransactionPool.InjectTransaction
    UnconfirmedTransactionPool.RemoveTransactions
    UnconfirmedTransactionPool.Entries.

Definition historydb : Historyer DB :=
  Build_Historyer DB HistoryDB.NeedsReset HistoryDB.Erase
    HistoryDB.ParsedBlockSeq HistoryDB.ParseBlock HistoryDB.AddressSeen.

Definition visor (c : Config) : Visor DB :=
  Build_Visor DB c pool chain historydb.

Definition finder : TransactionsFinder DB :=
  Build_TransactionsFinder DB historydb pool.

End Components.

End Ref.

(** ** A concrete instance to run the visor on *)

Module Examples.
Import Ref.

(** Stand-ins for hashing, sizes and signatures: the hash of a
    transaction is its inner hash, the hash of an output is the hash of
    the transaction that created it, the size of a transaction is its
    length field, and a signature is valid when it repeats the key. *)
#[local] Instance externals : Externals := {|
  TxnHash := txn_InnerHash;
  UxHash := fun ux => ux_SrcTransaction (ux_Body ux);
  TxnSize := fun t => Ok (txn_Length t);
  VerifySignature := fun b pk =>
    if bool_decide (sb_Sig b = pk) then None
    else Some (errors_New "Signature not valid for hash");
  VerifySingleTxnUserConstraints := fun t =>
    if bool_decide (mkAddress 0 0 ∈ out_Address <$> txn_Out t)
    then Some (ErrTxnViolatesUserConstraint
                 "Transaction output is sent to the null address")
    else None;
  SortTransactions := fun txns _ => Ok txns;
  MaxBlockTransactions := 1000;
  UserVerifyTxn := mkVerifyTxn 10 32768 3;
  Distribution := ()
|}.


Definition a0 : Address := mkAddress 0 10.
Definition a1 : Address := mkAddress 0 11.

(** The publisher's key is 99; sizes are capped at 100 bytes per
    transaction and at 5 bytes per block. *)
Definition cfg : Config :=
  Build_Config true 99 () (mkVerifyTxn 10 100 3) (mkVerifyTxn 10 100 3) 5.

Definition blk (seq t : uint64) (txns : list Transaction) (sig : Sig)
  : SignedBlock :=
  mkSignedBlock (mkBlock (mkBlockHeader 0 t seq 0 0 0) txns) sig.

(** Two transactions without inputs, paying [a0] and [a1]. *)
Definition t0 : Transaction :=
  mkTransaction 10 0 100 [] [] [mkTransactionOutput a0 5 0].
Definition t1 : Transaction :=
  mkTransaction 10 0 101 [] [] [mkTransactionOutput a1 0 0].

(** A transaction that spends more coins than it takes in. *)
Definition t_overspend : Transaction :=
  mkTransaction 10 0 102 [] [] [mkTransactionOutput a1 7 0].

(** A transaction larger than the size ceiling of every policy. *)
Definition t_large : Transaction :=
  mkTransaction 40000 0 103 [] [] [mkTransactionOutput a1 0 0].


(** Two outputs of [a0] of 2^63 droplets each. *)
Definition ux_half1 : UxOut := mkUxOut (mkUxHead 0 0) (mkUxBody 8 a0 (2 ^ 63) 0).
Definition ux_half2 : UxOut := mkUxOut (mkUxHead 0 0) (mkUxBody 9 a0 (2 ^ 63) 0).

(** A chain of one block, at time 1, and an empty pool. *)
Definition db_genesis (unspent : list UxOut) : DB :=
  mkDB [blk 0 1 [] 99] unspent [] (Some 0) [].

(** The same with [t1] waiting in the pool. *)
Definition db_pending : DB :=
  mkDB [blk 0 1 [] 99] [] [(101, mkUnconfirmedTransaction t1 0 0 0 1)] (Some 0) [].

(** An output of [a0] with 1000 droplets and 5 hours, and a transaction
    that spends it to pay 100 droplets to [a1]. *)
Definition ux_funds : UxOut := mkUxOut (mkUxHead 0 0) (mkUxBody 7 a0 1000 5).
Definition t_pay : Transaction :=
  mkTransaction 10 0 104 [] [7] [mkTransactionOutput a1 100 0].
Definition db_pay : DB :=
  mkDB [blk 0 1 [] 99] [ux_funds] [(104, mkUnconfirmedTransaction t_pay 0 0 0 1)]
       (Some 0) [].

(** A chain of three blocks whose history index is empty. *)
Definition db_unparsed : DB :=
  mkDB [blk 0 1 [t0] 99; blk 1 2 [t1] 99; blk 2 3 [] 99] [] [] None [].

(** A chain of two blocks, both parsed: [a0] and [a1] have been paid. *)
Definition db_parsed2 : DB :=
  mkDB [blk 0 1 [t0] 99; blk 1 2 [t1] 99] [] [] (Some 1)
       [sb_Block (blk 0 1 [t0] 99); sb_Block (blk 1 2 [t1] 99)].

(** What the history of [db_parsed2] has seen. *)
Definition seen2 (a : Address) : bool :=
  match HistoryDB.AddressSeen db_parsed2 a with Ok b => b | Err _ => false end.

End Examples.

(** * Further operations of the visor *)

(** ** Filters on outputs and on pooled transactions *)

Section Filters.
Context `{!Externals}.

(** [SendsToAddresses(addresses)]: the transaction has an output to one
    of the addresses.  Both loops stop at the first match. *)
Definition SendsToAddresses (addresses : list Address)
    (tx : UnconfirmedTransaction) : bool :=
  existsb (fun out =>
             existsb (fun address => bool_decide (out_Address out = address))
                     addresses)
          (txn_Out (ut_Transaction tx)).

(** [newAddrSet] and [newSHA256Set]: a set as a map to the empty
    struct. *)
Definition newAddrSet (keys : list Address) : gset Address :=
  foldl (fun s k => {[k]} ∪ s) ∅ keys.

Definition newSHA256Set (keys : list SHA256) : gset Z :=
  foldl (fun s k => {[k]} ∪ s) ∅ keys.

Definition FbyAddressesNotIncluded (addrs : list Address) (outputs : UxArray)
  : UxArray :=
  let addrMap := newAddrSet addrs in
  foldl (fun addrMatch u =>
           if bool_decide (ux_Address (ux_Body u) ∈ addrMap) then addrMatch
           else addrMatch ++ [u])
        [] outputs.

Definition FbyAddresses (addrs : list Address) (outputs : UxArray) : UxArray :=
  let addrMap := newAddrSet addrs in
  foldl (fun addrMatch u =>
           if bool_decide (ux_Address (ux_Body u) ∈ addrMap) then addrMatch ++ [u]
           else addrMatch)
        [] outputs.

Definition FbyHashes (hashes : list SHA256) (outputs : UxArray) : UxArray :=
  let hsMap := newSHA256Set hashes in
  foldl (fun hsMatch u =>
           if bool_decide (UxHash u ∈ hsMap) then hsMatch ++ [u] else hsMatch)
        [] outputs.

(** The loop of [GetUnspentOutputsSummary] that runs every filter over a
    set of outputs, in the order given. *)
Definition applyFilters (filters : list (UxArray → UxArray)) (outputs : UxArray)
  : UxArray :=
  foldl (fun outputs flt => flt outputs) outputs filters.

End Filters.

(** ** Queries on outputs and blocks *)

Section VisorQueries.
Context `{!Externals} {S : Type}.

Definition GetUnspentOutputs (vs : Visor S) (hashes : list SHA256) (db : S)
  : result UxArray :=
  View (fun tx => Unspent_GetArray (blockchain vs) tx hashes) db.

Definition unconfirmedOutgoingOutputs (vs : Visor S) (tx : S) : result UxArray :=
  txns ← AllRawTransactions (unconfirmed vs) tx;
  let inputs := concat (txn_In <$> txns) in
  Unspent_GetArray (blockchain vs) tx inputs.

Definition UnconfirmedOutgoingOutputs (vs : Visor S) (db : S) : result UxArray :=
  View (unconfirmedOutgoingOutputs vs) db.

Definition unconfirmedSpendsOfAddresses (vs : Visor S) (tx : S)
    (addrs : list Address) : result AddressUxOuts :=
  txns ← AllRawTransactions (unconfirmed vs) tx;
  let inputs := concat (txn_In <$> txns) in
  uxa ← Unspent_GetArray (blockchain vs) tx inputs;
  Ok (spendsOf addrs uxa).

Definition UnconfirmedSpendsOfAddresses (vs : Visor S) (addrs : list Address)
    (db : S) : result AddressUxOuts :=
  View (fun tx => unconfirmedSpendsOfAddresses vs tx addrs) db.

Definition GetUnspentsOfAddrs (vs : Visor S) (addrs : list Address) (db : S)
  : result AddressUxOuts :=
  View (fun tx => Unspent_GetUnspentsOfAddrs (blockchain vs) tx addrs) db.

(** The loop of [GetSignedBlocksSince], [n] iterations from [j] on.  The
    block fetched is dereferenced without a test, so a missing block that
    comes without an error stops the program. *)
Fixpoint GetSignedBlocksSince_loop (vs : Visor S) (tx : S) (seq : uint64)
    (n : nat) (j : uint64) (blocks : list SignedBlock)
  : outcome (list SignedBlock) :=
  match n with
  | O => Returns (Ok blocks)
  | Datatypes.S n' =>
      let i := (seq + 1 + j) mod 2 ^ 64 in
      match GetSignedBlockBySeq (blockchain vs) tx i with
      | Err err => Returns (Err err)
      | Ok None =>
          Panics "runtime error: invalid memory address or nil pointer dereference"
      | Ok (Some b) =>
          GetSignedBlocksSince_loop vs tx seq n' (j + 1) (blocks ++ [b])
      end
  end.

Definition GetSignedBlocksSince (vs : Visor S) (seq ct : uint64) (db : S)
  : outcome (list SignedBlock) :=
  match Head (blockchain vs) db with
  | Err err => Returns (Err err)
  | Ok head =>
      let headSeq := bk_Seq (sb_Block head) in
      let avail := if seq <? headSeq then (headSeq - seq) mod 2 ^ 64 else 0 in
      let ct := if avail <? ct then avail else ct in
      if ct =? 0 then Returns (Ok [])
      else GetSignedBlocksSince_loop vs db seq (Z.to_nat ct) 0 []
  end.

Definition HeadBkSeq (vs : Visor S) (db : S) : result (uint64 * bool) :=
  View (HeadSeq (blockchain vs)) db.

Definition GetBlock (vs : Visor S) (seq : uint64) (db : S)
  : result (option SignedBlock) :=
  View (fun tx =>
          '(headSeq, ok) ← HeadSeq (blockchain vs) tx;
          if negb ok || (headSeq <? seq) then
            Err (errors_New "Block seq out of range")
          else GetSignedBlockBySeq (blockchain vs) tx seq) db.

(** The inner and the outer loop of [AddressBalances]; the Go map is
    walked in an order the language leaves open, given here by the list
    of its entries. *)
Fixpoint AddressBalances_uxs (prevTime : uint64) (coins hours : uint64)
    (uxs : UxArray) : result (uint64 * uint64) :=
  match uxs with
  | [] => Ok (coins, hours)
  | ux :: rest =>
      uxHours ← coin.UxOut_CoinHours ux prevTime;
      coins ← mathutil.AddUint64 coins (ux_Coins (ux_Body ux));
      hours ← mathutil.AddUint64 hours uxHours;
      AddressBalances_uxs prevTime coins hours rest
  end.

Fixpoint AddressBalances_entries (prevTime : uint64) (coins hours : uint64)
    (entries : list (Address * UxArray)) : result (uint64 * uint64) :=
  match entries with
  | [] => Ok (coins, hours)
  | (_, uxs) :: rest =>
      '(coins, hours) ← AddressBalances_uxs prevTime coins hours uxs;
      AddressBalances_entries prevTime coins hours rest
  end.

Definition AddressBalances (head : SignedBlock) (auxs : AddressUxOuts)
  : result (uint64 * uint64) :=
  AddressBalances_entries (sb_Time head) 0 0 (map_to_list auxs).

End VisorQueries.

(** The hours of the outputs at [headTime], added without a bound; an
    output whose hours cannot be computed counts for nothing. *)
Definition totalHours `{!Externals} (ua : UxArray) (headTime : uint64) : Z :=
  sumZ ((fun ux => valueOf (coin.UxOut_CoinHours ux headTime)) <$> ua).

(** ** Transactions, their status and their inputs *)

(** [historydb.Transaction] and [historydb.UxOut], by the fields the
    visor reads. *)
Record historydb_Transaction : Type := mkHistoryTransaction {
  ht_Txn : Transaction;
  ht_BlockSeq : uint64
}.

Record historydb_UxOut : Type := mkHistoryUxOut {
  hu_Out : UxOut
}.

(** Modelled from the spec: [TransactionStatus] is declared in a file of
    package visor that is not part of these sources.  "TransactionStatus:
    tagged as Unconfirmed, or Confirmed{block sequence, confirmation
    count}"; the visor reads its fields [Confirmed] and [BlockSeq]. *)
Record TransactionStatus : Type := mkTransactionStatus {
  ts_Confirmed : bool;
  ts_Unconfirmed : bool;
  ts_Height : uint64;
  ts_BlockSeq : uint64
}.

(** [visor.Transaction] and [visor.TransactionInput], by the fields the
    visor writes. *)
Record visor_Transaction : Type := mkVisorTransaction {
  vt_Transaction : Transaction;
  vt_Status : TransactionStatus;
  vt_Time : uint64
}.

Record TransactionInput : Type := mkTransactionInput {
  ti_UxOut : UxOut;
  ti_CalculatedHours : uint64
}.

(** The zero value [TransactionInput{}]. *)
Definition TransactionInput_zero : TransactionInput :=
  mkTransactionInput
    (mkUxOut (mkUxHead 0 0) (mkUxBody 0 (mkAddress 0 0) 0 0)) 0.

(** Modelled from the spec: the constructors of [TransactionStatus] are
    in a file of package visor that is not part of these sources.
    "TransactionStatus: tagged as Unconfirmed, or Confirmed{block
    sequence, confirmation count}". *)
Definition NewUnconfirmedTransactionStatus : TransactionStatus :=
  mkTransactionStatus false true 0 0.

Definition NewConfirmedTransactionStatus (height blockSeq : uint64)
  : TransactionStatus :=
  mkTransactionStatus true false height blockSeq.

(** What else the visor takes from code that is not part of these
    sources. *)
Class VisorExternals `{!Externals} : Type := {
  (** [NewTransactionInput(ux, calculateHoursTime)] *)
  NewTransactionInput : UxOut → uint64 → result TransactionInput;
  (** [NewTransactionInputs(uxa, calculateHoursTime)] *)
  NewTransactionInputs : UxArray → uint64 → result (list TransactionInput);
  (** [transaction.VerifySingleTxnSoftConstraints] *)
  VerifySingleTxnSoftConstraints :
    Transaction → uint64 → UxArray → Distribution → VerifyTxn → option error;
  (** [transaction.VerifySingleTxnHardConstraints] *)
  VerifySingleTxnHardConstraints :
    Transaction → BlockHeader → UxArray → TxnSignedFlag → option error;
  (** the type switch [err.(type)] on [blockdb.ErrUnspentNotExist]: the
      identifier the error carries, when it is of that type *)
  asErrUnspentNotExist : error → option string;
  (** [SHA256.String()] as printed by [%v] *)
  hashString : SHA256 → string;
  (** [uint64(timeutil.NanoToTime(n).Unix())] *)
  nanoToUnix : Z → uint64
}.

(** The further methods of the three interfaces that the operations below
    call. *)
Record BlockchainerQueries (S : Type) : Type := {
  Blockchain_Time : S → result uint64;
  Unspent_GetAll : S → result UxArray
}.

Record UnconfirmedTransactionPoolerQueries (S : Type) : Type := {
  Get : S → SHA256 → result (option UnconfirmedTransaction);
  GetFiltered :
    S → (UnconfirmedTransaction → bool) → result (list UnconfirmedTransaction);
  GetIncomingOutputs : S → BlockHeader → result UxArray
}.

Record HistoryerQueries (S : Type) : Type := {
  History_GetTransaction : S → SHA256 → result (option historydb_Transaction);
  GetUxOuts : S → list SHA256 → result (list historydb_UxOut)
}.

Arguments Blockchain_Time {S} _ _.
Arguments Unspent_GetAll {S} _ _.
Arguments Get {S} _ _ _.
Arguments GetFiltered {S} _ _ _.
Arguments GetIncomingOutputs {S} _ _ _.
Arguments History_GetTransaction {S} _ _ _.
Arguments GetUxOuts {S} _ _ _.

Section TransactionQueries.
Context `{!Externals} `{!VisorExternals} {S : Type}.

(** The visor with all the methods of its collaborators. *)
Record VisorQ : Type := {
  vq_visor : Visor S;
  vq_blockchain : BlockchainerQueries S;
  vq_unconfirmed : UnconfirmedTransactionPoolerQueries S;
  vq_history : HistoryerQueries S
}.

Definition getTransaction (vs : VisorQ) (tx : S) (txnHash : SHA256)
  : result (option visor_Transaction) :=
  utxn ← Get (vq_unconfirmed vs) tx txnHash;
  match utxn with
  | Some utxn =>
      Ok (Some (mkVisorTransaction (ut_Transaction utxn)
                  NewUnconfirmedTransactionStatus
                  (nanoToUnix (ut_Received utxn))))
  | None =>
      htxn ← History_GetTransaction (vq_history vs) tx txnHash;
      match htxn with
      | None => Ok None
      | Some htxn =>
          '(headSeq, ok) ← HeadSeq (blockchain (vq_visor vs)) tx;
          if negb ok then
            Err (errors_New "blockchain is empty but history has transactions")
          else
            b ← GetSignedBlockBySeq (blockchain (vq_visor vs)) tx (ht_BlockSeq htxn);
            match b with
            | None =>
                Err (errors_New ("found no block in seq " +:+ pretty (ht_BlockSeq htxn)))
            | Some b =>
                if headSeq <? ht_BlockSeq htxn then
                  Err (errors_New
                         ("blockchain head seq " +:+ pretty headSeq +:+
                          " is earlier than history txn seq " +:+
                          pretty (ht_BlockSeq htxn)))
                else
                  let confirms := (headSeq - ht_BlockSeq htxn + 1) mod 2 ^ 64 in
                  Ok (Some (mkVisorTransaction (ht_Txn htxn)
                              (NewConfirmedTransactionStatus confirms (ht_BlockSeq htxn))
                              (sb_Time b)))
            end
      end
  end.

Definition GetTransaction (vs : VisorQ) (txnHash : SHA256) (db : S)
  : result (option visor_Transaction) :=
  View (fun tx => getTransaction vs tx txnHash) db.

Definition getFeeCalcTimeForTransaction (vs : VisorQ) (tx : S)
    (txn : visor_Transaction) : result (option uint64) :=
  if (ts_BlockSeq (vt_Status txn) =? 0) && ts_Confirmed (vt_Status txn) then Ok None
  else if ts_Confirmed (vt_Status txn) then
    let prevSeq := (ts_BlockSeq (vt_Status txn) - 1) mod 2 ^ 64 in
    prevBlock ← GetSignedBlockBySeq (blockchain (vq_visor vs)) tx prevSeq;
    match prevBlock with
    | None =>
        Err (errors_New ("getFeeCalcTimeForTransaction: prevBlock seq=" +:+
                         pretty prevSeq +:+ " not found"))
    | Some prevBlock => Ok (Some (sb_Time prevBlock))
    end
  else
    feeCalcTime ← Blockchain_Time (vq_blockchain vs) tx;
    Ok (Some feeCalcTime).

(** The loop of [getTransactionInputs] that fills [ret]; writing past
    its end stops the program. *)
Fixpoint getTransactionInputs_fill (feeCalcTime : uint64)
    (uxOuts : list historydb_UxOut) (i : nat) (ret : list TransactionInput)
  : outcome (list TransactionInput) :=
  match uxOuts with
  | [] => Returns (Ok ret)
  | o :: rest =>
      match NewTransactionInput (hu_Out o) feeCalcTime with
      | Err err => Returns (Err err)
      | Ok r =>
          if bool_decide (i < length ret)%nat then
            getTransactionInputs_fill feeCalcTime rest (Datatypes.S i) (<[i := r]> ret)
          else Panics "runtime error: index out of range"
      end
  end.

Definition getTransactionInputs (vs : VisorQ) (tx : S) (feeCalcTime : uint64)
    (inputs : list SHA256) : outcome (list TransactionInput) :=
  if bool_decide (length inputs = 0%nat) then
    Returns (Err (errors_New
      "getTransactionInputs: inputs is empty only the genesis block transaction has no inputs, which shouldn't call this method"))
  else
    match GetUxOuts (vq_history vs) tx inputs with
    | Err err => Returns (Err err)
    | Ok uxOuts =>
        getTransactionInputs_fill feeCalcTime uxOuts 0
          (replicate (length inputs) TransactionInput_zero)
    end.

(** The loop of [getBlockInputs] over the transactions of a block. *)
Fixpoint getBlockInputs_loop (vs : VisorQ) (tx : S) (prevTime : uint64)
    (txns : list Transaction) (inputs : list (list TransactionInput))
  : outcome (list (list TransactionInput)) :=
  match txns with
  | [] => Returns (Ok inputs)
  | txn :: rest =>
      match getTransactionInputs vs tx prevTime (txn_In txn) with
      | Panics msg => Panics msg
      | Returns (Err err) => Returns (Err err)
      | Returns (Ok i) => getBlockInputs_loop vs tx prevTime rest (inputs ++ [i])
      end
  end.

Definition getBlockInputs (vs : VisorQ) (tx : S) (b : option SignedBlock)
  : outcome (list (list TransactionInput)) :=
  match b with
  | None => Returns (Ok [])
  | Some b =>
      let txns := bk_Transactions (sb_Block b) in
      if bk_Seq (sb_Block b) =? 0 then
        if bool_decide (length txns ≠ 1%nat) then
          Panics ("Genesis block should have only 1 transaction (has " +:+
                  pretty (length txns) +:+ ")")
        else if bool_decide (length (default [] (txn_In <$> txns !! 0%nat)) ≠ 0%nat)
        then Panics "Genesis block transaction should not have inputs"
        else Returns (Ok [[]])
      else
        let prevSeq := (bk_Seq (sb_Block b) - 1) mod 2 ^ 64 in
        match GetSignedBlockBySeq (blockchain (vq_visor vs)) tx prevSeq with
        | Err err => Returns (Err err)
        | Ok None =>
            Returns (Err (errors_New ("getBlockInputs: prevBlock seq " +:+
                                      pretty prevSeq +:+ " not found")))
        | Ok (Some prevBlock) =>
            getBlockInputs_loop vs tx (sb_Time prevBlock) txns []
        end
  end.

Definition getBlockVerbose (vs : VisorQ) (tx : S)
    (getBlock : S → result (option SignedBlock))
  : outcome (option SignedBlock * list (list TransactionInput)) :=
  match getBlock tx with
  | Err err => Returns (Err err)
  | Ok None => Returns (Ok (None, []))
  | Ok (Some b) =>
      match getBlockInputs vs tx (Some b) with
      | Panics msg => Panics msg
      | Returns (Err err) => Returns (Err err)
      | Returns (Ok inputs) => Returns (Ok (Some b, inputs))
      end
  end.

(** The loop of [getBlocksVerbose]: [inputs[i] = blockInputs]. *)
Fixpoint getBlocksVerbose_loop (vs : VisorQ) (tx : S)
    (blocks : list SignedBlock) : outcome (list (list (list TransactionInput))) :=
  match blocks with
  | [] => Returns (Ok [])
  | b :: rest =>
      match getBlockInputs vs tx (Some b) with
      | Panics msg => Panics msg
      | Returns (Err err) => Returns (Err err)
      | Returns (Ok blockInputs) =>
          match getBlocksVerbose_loop vs tx rest with
          | Panics msg => Panics msg
          | Returns (Err err) => Returns (Err err)
          | Returns (Ok inputs) => Returns (Ok (blockInputs :: inputs))
          end
      end
  end.

Definition getBlocksVerbose (vs : VisorQ) (tx : S)
    (getBlocks : S → result (list SignedBlock))
  : outcome (list SignedBlock * list (list (list TransactionInput))) :=
  match getBlocks tx with
  | Err err => Returns (Err err)
  | Ok blocks =>
      if bool_decide (length blocks = 0%nat) then Returns (Ok ([], []))
      else
        match getBlocksVerbose_loop vs tx blocks with
        | Panics msg => Panics msg
        | Returns (Err err) => Returns (Err err)
        | Returns (Ok inputs) => Returns (Ok (blocks, inputs))
        end
  end.

(** The loop of [getTransactionInputsForUnconfirmedTxns]: a transaction
    without inputs keeps the nil entry it started with. *)
Fixpoint getTransactionInputsForUnconfirmedTxns_loop (vs : VisorQ) (tx : S)
    (headTime : uint64) (txns : list UnconfirmedTransaction)
  : outcome (list (list TransactionInput)) :=
  match txns with
  | [] => Returns (Ok [])
  | txn :: rest =>
      let first :=
        if bool_decide (length (txn_In (ut_Transaction txn)) = 0%nat)
        then Returns (Ok [])
        else getTransactionInputs vs tx headTime (txn_In (ut_Transaction txn)) in
      match first with
      | Panics msg => Panics msg
      | Returns (Err err) => Returns (Err err)
      | Returns (Ok txnInputs) =>
          match getTransactionInputsForUnconfirmedTxns_loop vs tx headTime rest with
          | Panics msg => Panics msg
          | Returns (Err err) => Returns (Err err)
          | Returns (Ok inputs) => Returns (Ok (txnInputs :: inputs))
          end
      end
  end.

Definition getTransactionInputsForUnconfirmedTxns (vs : VisorQ) (tx : S)
    (txns : list UnconfirmedTransaction)
  : outcome (list (list TransactionInput)) :=
  if bool_decide (length txns = 0%nat) then Returns (Ok [])
  else
    match Blockchain_Time (vq_blockchain vs) tx with
    | Err err => Returns (Err err)
    | Ok headTime => getTransactionInputsForUnconfirmedTxns_loop vs tx headTime txns
    end.

Definition GetTransactionWithInputs (vs : VisorQ) (txnHash : SHA256) (db : S)
  : outcome (option visor_Transaction * list TransactionInput) :=
  match getTransaction vs db txnHash with
  | Err err => Returns (Err err)
  | Ok None => Returns (Ok (None, []))
  | Ok (Some txn) =>
      match getFeeCalcTimeForTransaction vs db txn with
      | Err err => Returns (Err err)
      | Ok None => Returns (Ok (Some txn, []))
      | Ok (Some feeCalcTime) =>
          match getTransactionInputs vs db feeCalcTime
                  (txn_In (vt_Transaction txn)) with
          | Panics msg => Panics msg
          | Returns (Err err) => Returns (Err err)
          | Returns (Ok inputs) => Returns (Ok (Some txn, inputs))
          end
      end
  end.

End TransactionQueries.

Arguments VisorQ {_} S.
Arguments vq_visor {_ S} _.
Arguments vq_blockchain {_ S} _.
Arguments vq_unconfirmed {_ S} _.
Arguments vq_history {_ S} _.

(** ** Verifying a transaction with its inputs *)

(** A call that hands back its values beside its error either completes
    with all of them or panics. *)
Inductive completion (A : Type) : Type :=
  | Completes (a : A)
  | Aborts (msg : string).
Arguments Completes {A} a.
Arguments Aborts {A} msg.

Section Verification.
Context `{!Externals} `{!VisorExternals} {S : Type}.

(** The callback [VerifyTxnVerbose] runs in its read-only scope: what it
    leaves in the captured variables [uxa], [isTxnConfirmed] and
    [feeCalcTime], and the error it returns.  [GetArray] hands back no
    outputs beside an error.  [historyTxn.BlockSeq] is read whether or
    not [historyTxn] is nil. *)
Definition VerifyTxnVerbose_view (vs : VisorQ S) (txn : Transaction)
    (signed : TxnSignedFlag) (tx : S)
  : completion (UxArray * bool * uint64 * option error) :=
  match Head (blockchain (vq_visor vs)) tx with
  | Err err => Completes ([], false, 0, Some err)
  | Ok head =>
      match Unspent_GetArray (blockchain (vq_visor vs)) tx (txn_In txn) with
      | Ok uxa =>
          let feeCalcTime := sb_Time head in
          Completes (uxa, false, feeCalcTime,
            match VerifySingleTxnUserConstraints txn with
            | Some err => Some err
            | None =>
                match VerifySingleTxnSoftConstraints txn feeCalcTime uxa
                        (cfg_Distribution (config (vq_visor vs))) UserVerifyTxn with
                | Some err => Some err
                | None =>
                    VerifySingleTxnHardConstraints txn (sb_Head head) uxa signed
                end
            end)
      | Err e =>
          match asErrUnspentNotExist e with
          | None => Completes ([], false, 0, Some e)
          | Some uxID =>
              match GetUxOuts (vq_history vs) tx (txn_In txn) with
              | Err err => Completes ([], false, 0, Some err)
              | Ok outs =>
                  if bool_decide (length outs = 0%nat) then
                    Completes ([], false, 0,
                      Some (ErrTxnViolatesHardConstraint
                              ("transaction input of " +:+ uxID +:+
                               " does not exist in either unspent pool or historydb")))
                  else
                    let uxa := hu_Out <$> outs in
                    let txnHash := TxnHash txn in
                    match History_GetTransaction (vq_history vs) tx txnHash with
                    | Err err =>
                        Completes (uxa, false, 0,
                          Some (fmt_Errorf
                                  ("get transaction of " +:+ hashString txnHash +:+
                                   " from historydb failed") err))
                    | Ok None =>
                        Aborts "runtime error: invalid memory address or nil pointer dereference"
                    | Ok (Some historyTxn) =>
                        if 0 <? ht_BlockSeq historyTxn then
                          let prevSeq := (ht_BlockSeq historyTxn - 1) mod 2 ^ 64 in
                          match GetSignedBlockBySeq (blockchain (vq_visor vs)) tx prevSeq with
                          | Err err => Completes (uxa, true, 0, Some err)
                          | Ok None =>
                              Completes (uxa, true, 0,
                                Some (errors_New
                                        ("VerifyTxnVerbose: previous block seq=" +:+
                                         pretty prevSeq +:+ " not found")))
                          | Ok (Some prevBlock) =>
                              Completes (uxa, true, sb_Time prevBlock, None)
                          end
                        else Completes (uxa, true, 0, None)
                    end
              end
          end
      end
  end.

(** The values handed back are the inputs, whether the transaction is
    confirmed, and the error. *)
Definition VerifyTxnVerbose (vs : VisorQ S) (txn : Transaction)
    (signed : TxnSignedFlag) (db : S)
  : completion (list TransactionInput * bool * option error) :=
  match VerifyTxnVerbose_view vs txn signed db with
  | Aborts msg => Aborts msg
  | Completes (uxa, isTxnConfirmed, feeCalcTime, verifyErr) =>
      if negb (bool_decide (length uxa = 0%nat)) && negb (feeCalcTime =? 0) then
        match NewTransactionInputs uxa feeCalcTime with
        | Err err => Completes ([], isTxnConfirmed, Some err)
        | Ok inputs => Completes (inputs, isTxnConfirmed, verifyErr)
        end
      else Completes ([], isTxnConfirmed, verifyErr)
  end.

End Verification.

(** ** Wallet entries in their readable form *)

Module wallet.

Abbreviation SecKey := Z (only parsing).

(** The encodings of package cipher, which is imported and whose code is
    not part of these sources. *)
Class Cipher : Type := {
  (** [Address.String()] and [cipher.DecodeBase58Address] *)
  Address_String : Address → string;
  DecodeBase58Address : string → result Address;
  (** [PubKey.Hex()] and [cipher.PubKeyFromHex] *)
  PubKey_Hex : PubKey → string;
  PubKeyFromHex : string → result PubKey;
  (** [SecKey.Hex()] and [cipher.SecKeyFromHex] *)
  SecKey_Hex : SecKey → string;
  SecKeyFromHex : string → result SecKey
}.

(** [wallet.Entry], with the fields this file reads and writes. *)
Record Entry : Type := mkEntry {
  e_Address : Address;
  e_Public : PubKey;
  e_Secret : SecKey;
  e_EncryptedSecret : string
}.

Record ReadableEntry : Type := mkReadableEntry {
  re_Address : string;
  re_Public : string;
  re_Secret : string
}.

Section Readable.
Context `{!Cipher}.

Definition NewReadableEntry (w : Entry) (isEncrypted : bool) : ReadableEntry :=
  let secret :=
    if negb isEncrypted then SecKey_Hex (e_Secret w) else e_EncryptedSecret w in
  mkReadableEntry (Address_String (e_Address w)) (PubKey_Hex (e_Public w)) secret.

Definition newEntryFromReadable (w : ReadableEntry) (isEncrypted : bool)
  : result Entry :=
  a ← DecodeBase58Address (re_Address w);
  p ← PubKeyFromHex (re_Public w);
  if negb isEncrypted then
    s ← SecKeyFromHex (re_Secret w);
    Ok (mkEntry a p s EmptyString)
  else Ok (mkEntry a p 0 (re_Secret w)).

(** The entries are converted in order and the first failure ends the
    call. *)
Definition toWalletEntries (res : list ReadableEntry) (isEncrypted : bool)
  : result (list Entry) :=
  mapM (fun re => newEntryFromReadable re isEncrypted) res.

End Readable.

End wallet.

(** ** The further queries over the reference store *)

Module RefQueries.
Import Ref.
Section WithExternals.
Context `{!Externals}.

(** Modelled from the spec: the chain's [Time] is in a file of package
    visor that is not part of these sources; "coin-hours accrue linearly
    with wall/block time", and the time of the chain is the time of its
    head block. *)
Definition BlockchainTime (db : DB) : result uint64 :=
  sb_Time <$> Blockchain.Head db.

(** Modelled from the spec: "get_all()" of the unspent-output index. *)
Definition GetAll (db : DB) : result UxArray := Ok (db_unspent db).

(** Modelled from the spec: "get(hash) -> Option" of the pool. *)
Definition PoolGet (db : DB) (h : SHA256)
  : result (option UnconfirmedTransaction) :=
  Ok ((fun r => r.2.2) <$> list_find (fun e => e.1 = h) (db_pool db)).

(** Modelled from the spec: "get_filtered(predicate) ->
    [UnconfirmedTransaction]". *)
Definition PoolGetFiltered (db : DB) (f : UnconfirmedTransaction → bool)
  : result (list UnconfirmedTransaction) :=
  Ok (filter (fun u => f u = true) (snd <$> db_pool db)).

(** Modelled from the spec: "get_incoming_outputs(head) -> UxArray
    (outputs that would be created if every pooled transaction
    confirmed)". *)
Definition PoolGetIncomingOutputs (db : DB) (bh : BlockHeader) : result UxArray :=
  Ok (concat ((fun e =>
                 coin.CreateUnspent bh (ut_Transaction e.2)
                   <$> txn_Out (ut_Transaction e.2)) <$> db_pool db)).

(** Modelled from the spec: "parse_block(block) [...] records each
    transaction by hash, each output by hash"; "get_transaction(hash)"
    is an "explicit absence" when nothing is recorded. *)
Definition transactions (db : DB) : list historydb_Transaction :=
  concat ((fun b => (fun t => mkHistoryTransaction t (bk_Seq b))
                      <$> bk_Transactions b) <$> db_parsed db).

Definition HistoryGetTransaction (db : DB) (h : SHA256)
  : result (option historydb_Transaction) :=
  Ok ((fun r => r.2)
        <$> list_find (fun ht => TxnHash (ht_Txn ht) = h) (transactions db)).

Definition outputs (db : DB) : list historydb_UxOut :=
  concat ((fun b =>
    concat ((fun t =>
      (fun o => mkHistoryUxOut (coin.CreateUnspent (bk_Head b) t o))
      <$> txn_Out t) <$> bk_Transactions b)) <$> db_parsed db).

(** Modelled from the spec: "get_ux_outs(hashes)", a batch lookup:
    "returned as a hard error for batch-lookups where any single element
    is required to exist". *)
Fixpoint HistoryGetUxOuts (db : DB) (hashes : list SHA256)
  : result (list historydb_UxOut) :=
  match hashes with
  | [] => Ok []
  | h :: rest =>
      match list_find (fun o => UxHash (hu_Out o) = h) (outputs db) with
      | None => Err (ErrStore "uxout does not exist")
      | Some (_, o) => (o ::.) <$> HistoryGetUxOuts db rest
      end
  end.

Definition chainq : BlockchainerQueries DB :=
  Build_BlockchainerQueries DB BlockchainTime GetAll.

Definition poolq : UnconfirmedTransactionPoolerQueries DB :=
  Build_UnconfirmedTransactionPoolerQueries DB
    PoolGet PoolGetFiltered PoolGetIncomingOutputs.

Definition historyq : HistoryerQueries DB :=
  Build_HistoryerQueries DB HistoryGetTransaction HistoryGetUxOuts.

Definition visorq (c : Config) : VisorQ DB :=
  Build_VisorQ (visor c) chainq poolq historyq.

End WithExternals.
End RefQueries.

(** ** More example data *)

Module MoreExamples.
Import Ref RefQueries Examples.
#[local] Existing Instance Examples.externals.

(** Stand-ins for the rest of the verifier: an input carries the hours
    its output has earned, none when they overflow; the soft constraint
    is the size ceiling, the hard one that no more coins are paid than
    taken in; a missing unspent output is recognised by its message; a
    time in nanoseconds is cut down to whole seconds. *)
Definition newTransactionInput (ux : UxOut) (t : uint64) : result TransactionInput :=
  match coin.UxOut_CoinHours ux t with
  | Ok h => Ok (mkTransactionInput ux h)
  | Err ErrAddEarnedCoinHoursAdditionOverflow => Ok (mkTransactionInput ux 0)
  | Err e => Err e
  end.

#[local] Instance visor_externals : VisorExternals := {|
  NewTransactionInput := newTransactionInput;
  NewTransactionInputs := fun uxa t => mapM (fun ux => newTransactionInput ux t) uxa;
  VerifySingleTxnSoftConstraints := fun txn _ _ _ p =>
    if txn_Length txn >? MaxTransactionSize p
    then Some (ErrTxnViolatesSoftConstraint
                 "Transaction size bigger than max block size")
    else None;
  VerifySingleTxnHardConstraints := fun txn _ uxa _ =>
    if Blockchain.sumCoins (txn_Out txn) >? totalCoins uxa
    then Some (ErrTxnViolatesHardConstraint "Insufficient coins")
    else None;
  asErrUnspentNotExist := fun e =>
    match e with
    | ErrStore msg =>
        if String.eqb msg "unspent output does not exist" then Some "an input" else None
    | _ => None
    end;
  hashString := pretty;
  nanoToUnix := fun n => (n / 1000000000) mod 2 ^ 64
|}.

(** A configuration whose blocks hold up to 1000 bytes. *)
Definition cfg_wide : Config :=
  Build_Config true 99 () (mkVerifyTxn 10 100 3) (mkVerifyTxn 10 100 3) 1000.

(** The transaction of the first block creates 1000 droplets and 5
    hours for [a0]; [ux_gen] is the output it creates. *)
Definition t_gen : Transaction :=
  mkTransaction 10 0 7 [] [] [mkTransactionOutput a0 1000 5].
Definition ux_gen : UxOut :=
  coin.CreateUnspent (sb_Head (blk 0 1 [t_gen] 99)) t_gen (mkTransactionOutput a0 1000 5).

(** [t_pay] spends [ux_gen] to pay [a1]; here it waits in the pool, behind
    [t1], which has no inputs. *)
Definition db_mid : DB :=
  mkDB [blk 0 1 [t_gen] 99] [ux_gen]
       [(101, mkUnconfirmedTransaction t1 0 0 0 1);
        (104, mkUnconfirmedTransaction t_pay 3000000000 0 0 1)]
       (Some 0) [sb_Block (blk 0 1 [t_gen] 99)].

(** Here [t_pay] is confirmed by the second block. *)
Definition db_spent : DB :=
  mkDB [blk 0 1 [t_gen] 99; blk 1 2 [t_pay] 99]
       [coin.CreateUnspent (sb_Head (blk 1 2 [t_pay] 99)) t_pay
          (mkTransactionOutput a1 100 0)]
       [] (Some 1)
       [sb_Block (blk 0 1 [t_gen] 99); sb_Block (blk 1 2 [t_pay] 99)].

(** Another transaction that spends [ux_gen], and one that pays more
    than [ux_gen] holds. *)
Definition t_double : Transaction :=
  mkTransaction 10 0 106 [] [7] [mkTransactionOutput a0 1000 0].
Definition t_greedy : Transaction :=
  mkTransaction 10 0 107 [] [7] [mkTransactionOutput a1 5000 0].


(** A chain that lacks the block of sequence number 1. *)
Definition db_gap : DB :=
  mkDB [blk 0 1 [] 99; blk 2 3 [] 99] [] [] None [].

(** Stand-ins for the encodings: a key is written in decimal, and so is
    an address, of version 0, by its key. *)
Fixpoint parseDigits (s : string) (acc : Z) : option Z :=
  match s with
  | EmptyString => Some acc
  | String c rest =>
      let d := Z.of_N (Ascii.N_of_ascii c) - 48 in
      if (0 <=? d) && (d <=? 9) then parseDigits rest (10 * acc + d) else None
  end.

Definition fromDecimal (s : string) : result Z :=
  match s with
  | EmptyString => Err (errors_New "Invalid hex length")
  | _ =>
      match parseDigits s 0 with
      | Some z => Ok z
      | None => Err (errors_New "encoding/hex: invalid byte")
      end
  end.

#[local] Instance cipher : wallet.Cipher := {|
  wallet.Address_String := fun a => pretty (Key a);
  wallet.DecodeBase58Address := fun s => mkAddress 0 <$> fromDecimal s;
  wallet.PubKey_Hex := pretty;
  wallet.PubKeyFromHex := fromDecimal;
  wallet.SecKey_Hex := pretty;
  wallet.SecKeyFromHex := fromDecimal
|}.

(** Two entries: one with its secret in the clear, one with it
    encrypted. *)
Definition e_clear : wallet.Entry := wallet.mkEntry a0 20 30 EmptyString.
Definition e_sealed : wallet.Entry := wallet.mkEntry a1 21 0 "c2VhbGVk".

End MoreExamples.

(** ** The accounts of the rich list *)

(** The loop of [GetRichlist] that builds the map from addresses to the
    coins they hold out of the confirmed outputs of the summary; of an
    output it reads the address and the coins. *)
Fixpoint GetRichlist_accounts (allAccounts : gmap Address uint64)
    (confirmed : UxArray) : result (gmap Address uint64) :=
  match confirmed with
  | [] => Ok allAccounts
  | out :: rest =>
      let addr := ux_Address (ux_Body out) in
      match allAccounts !! addr with
      | Some held =>
          match mathutil.AddUint64 held (ux_Coins (ux_Body out)) with
          | Err err => Err err
          | Ok sum => GetRichlist_accounts (<[addr := sum]> allAccounts) rest
          end
      | None =>
          GetRichlist_accounts (<[addr := ux_Coins (ux_Body out)]> allAccounts) rest
      end
  end.

(** ** Creating and executing a block; transactions with their inputs *)

(** The zero value [coin.SignedBlock{}]. *)
Definition SignedBlock_zero : SignedBlock :=
  mkSignedBlock (mkBlock (mkBlockHeader 0 0 0 0 0 0) []) 0.

Section PublisherOps.
Context `{!Externals} `{!VisorExternals} {S : Type}.

(** [MustSignHash] stands for
    [cipher.MustSignHash(b.HashHeader(), vs.Config.BlockchainSeckey)],
    which panics when it cannot sign. *)
Definition signBlock (vs : Visor S) (MustSignHash : Block → completion Sig)
    (b : Block) : completion SignedBlock :=
  if negb (IsBlockPublisher (config vs)) then
    Aborts "Only a block publisher node can sign blocks"
  else
    match MustSignHash b with
    | Aborts msg => Aborts msg
    | Completes sig => Completes (mkSignedBlock b sig)
    end.

Definition createBlock (vs : Visor S) (MustSignHash : Block → completion Sig)
    (tx : S) (when : uint64) : outcome SignedBlock :=
  if negb (IsBlockPublisher (config vs)) then
    Panics "Only a block publisher node can create blocks"
  else
    match AllRawTransactions (unconfirmed vs) tx with
    | Err err => Returns (Err err)
    | Ok txns =>
        match createBlockFromTxns vs tx txns when with
        | Panics msg => Panics msg
        | Returns (Err err) => Returns (Err err)
        | Returns (Ok b) =>
            match signBlock vs MustSignHash b with
            | Aborts msg => Panics msg
            | Completes sb => Returns (Ok sb)
            end
        end
    end.

(** [now] is [uint64(time.Now().UTC().Unix())].  The block is created
    from what the scope reads, without a write, and executed in the same
    scope; the signed block is handed back beside the error, the zero
    block when none was created. *)
Definition CreateAndExecuteBlock (vs : Visor S)
    (MustSignHash : Block → completion Sig) (now : uint64) (db : S)
  : S * completion (SignedBlock * option error) :=
  match createBlock vs MustSignHash db now with
  | Panics msg => (db, Aborts msg)
  | Returns (Err err) => (db, Completes (SignedBlock_zero, Some err))
  | Returns (Ok sb) =>
      match Update (executeSignedBlock vs sb) db with
      | (db', Ok _) => (db', Completes (sb, None))
      | (db', Err err) => (db', Completes (sb, Some err))
      end
  end.

(** The loop of [GetTransactionsWithInputs]: a transaction without a
    time to calculate its fee at keeps the nil entry it started with. *)
Fixpoint GetTransactionsWithInputs_loop (vs : VisorQ S) (tx : S)
    (txns : list visor_Transaction) : outcome (list (list TransactionInput)) :=
  match txns with
  | [] => Returns (Ok [])
  | txn :: rest =>
      match getFeeCalcTimeForTransaction vs tx txn with
      | Err err => Returns (Err err)
      | Ok feeCalcTime =>
          let first :=
            match feeCalcTime with
            | None => Returns (Ok [])
            | Some feeCalcTime =>
                getTransactionInputs vs tx feeCalcTime (txn_In (vt_Transaction txn))
            end in
          match first with
          | Panics msg => Panics msg
          | Returns (Err err) => Returns (Err err)
          | Returns (Ok txnInputs) =>
              match GetTransactionsWithInputs_loop vs tx rest with
              | Panics msg => Panics msg
              | Returns (Err err) => Returns (Err err)
              | Returns (Ok inputs) => Returns (Ok (txnInputs :: inputs))
              end
          end
      end
  end.

(** [getTransactions] stands for [vs.txns.GetTransactions] with the
    filters, the order and the page asked for; it gives the
    transactions and the number of pages. *)
Definition GetTransactionsWithInputs (vs : VisorQ S)
    (getTransactions : S → result (list visor_Transaction * uint64)) (db : S)
  : outcome (list visor_Transaction * list (list TransactionInput) * uint64) :=
  match getTransactions db with
  | Err err => Returns (Err err)
  | Ok (txns, pages) =>
      match GetTransactionsWithInputs_loop vs db txns with
      | Panics msg => Panics msg
      | Returns (Err err) => Returns (Err err)
      | Returns (Ok inputs) => Returns (Ok (txns, inputs, pages))
      end
  end.

End PublisherOps.

(** * Properties *)

(** ** Transaction scopes *)

Section ScopeFacts.
Context {S A : Type}.

Lemma Update_Err (f : TxM S A) (db db' : S) (e : error) :
  runTx f db = (db', Err e) → Update f db = (db, Err e).
Proof. intros H. unfold Update. by rewrite H. Qed.

Lemma Update_Ok (f : TxM S A) (db db' : S) (a : A) :
  runTx f db = (db', Ok a) → Update f db = (db', Ok a).
Proof. intros H. unfold Update. by rewrite H. Qed.

(** A failed scope leaves the store as it was. *)
Lemma Update_rollback (f : TxM S A) (db db' : S) (e : error) :
  Update f db = (db', Err e) → db' = db.
Proof.
  unfold Update. destruct (runTx f db) as [s [a|e']]; intros [= <- _]; done.
Qed.

Lemma Update_inv_Ok (f : TxM S A) (db db' : S) (a : A) :
  Update f db = (db', Ok a) → runTx f db = (db', Ok a).
Proof.
  unfold Update. destruct (runTx f db) as [s [a'|e']]; intros [= <- <-]; done.
Qed.

End ScopeFacts.

Lemma runTx_bind {S A B} (m : TxM S A) (f : A → TxM S B) (s : S) :
  runTx (m ≫= f) s =
  match runTx m s with
  | (s', Ok a) => runTx (f a) s'
  | (s', Err e) => (s', Err e)
  end.
Proof. reflexivity. Qed.

(** ** Executing signed blocks *)

Section ExecuteFacts.
Context `{!Externals} {S : Type}.

(** C5. A signed block whose signature does not verify against the
    configured publisher key is refused by [ExecuteSignedBlock] with the
    verification error, and the store is returned as it was: unspent
    outputs, chain, pool and history index are all unchanged. *)
Theorem ExecuteSignedBlock_bad_signature (vs : Visor S) (b : SignedBlock)
    (db : S) (err : error) :
  VerifySignature b (BlockchainPubkey (config vs)) = Some err →
  ExecuteSignedBlock vs b db = (db, Err err).
Proof.
  intros Hsig. unfold ExecuteSignedBlock, executeSignedBlock.
  rewrite Hsig. reflexivity.
Qed.

(** The three steps of [executeSignedBlockUnsafe] run one after the other
    on the same transaction handle; the first failure ends the call. *)
Lemma executeSignedBlockUnsafe_steps (vs : Visor S) (b : SignedBlock) (tx : S) :
  match runTx (executeSignedBlockUnsafe vs b) tx with
  | (tx', Ok _) =>
      ∃ tx1 tx2,
        runTx (ExecuteBlock (blockchain vs) b) tx = (tx1, Ok ()) ∧
        runTx (RemoveTransactions (unconfirmed vs)
                 (TxnHash <$> bk_Transactions (sb_Block b))) tx1 = (tx2, Ok ()) ∧
        runTx (ParseBlock (history vs) (sb_Block b)) tx2 = (tx', Ok ())
  | (_, Err _) => True
  end.
Proof.
  unfold executeSignedBlockUnsafe. rewrite !runTx_bind.
  destruct (runTx (ExecuteBlock _ b) tx) as [tx1 [[]|e1]] eqn:H1; [|done].
  rewrite runTx_bind.
  destruct (runTx (RemoveTransactions _ _) tx1) as [tx2 [[]|e2]] eqn:H2; [|done].
  destruct (runTx (ParseBlock _ _) tx2) as [tx3 [[]|e3]] eqn:H3; [|done].
  exists tx1, tx2. done.
Qed.

(** C4. Whatever [ExecuteSignedBlock] leaves in the store is the result
    of one scope: on success the store is the one reached by executing
    the block, then removing the block's transactions from the pool, then
    parsing the block into the history, all three; on failure it is the
    store the call started from.  The store reached by the execution
    alone is never what the call leaves behind. *)
Theorem ExecuteSignedBlock_one_scope (vs : Visor S) (b : SignedBlock) (db : S) :
  match ExecuteSignedBlock vs b db with
  | (db', Ok _) =>
      ∃ tx1 tx2,
        VerifySignature b (BlockchainPubkey (config vs)) = None ∧
        runTx (ExecuteBlock (blockchain vs) b) db = (tx1, Ok ()) ∧
        runTx (RemoveTransactions (unconfirmed vs)
                 (TxnHash <$> bk_Transactions (sb_Block b))) tx1 = (tx2, Ok ()) ∧
        runTx (ParseBlock (history vs) (sb_Block b)) tx2 = (db', Ok ())
  | (db', Err _) => db' = db
  end.
Proof.
  unfold ExecuteSignedBlock, executeSignedBlock, Update.
  destruct (VerifySignature b _) as [e|] eqn:Hsig; [done|].
  pose proof (executeSignedBlockUnsafe_steps vs b db) as Hsteps.
  destruct (runTx (executeSignedBlockUnsafe vs b) db) as [db' [[]|e]]; [|done].
  destruct Hsteps as (tx1 & tx2 & ? & ? & ?). by exists tx1, tx2.
Qed.

(** The same for the entry point that does not check the signature. *)
Lemma ExecuteSignedBlockUnsafe_one_scope (vs : Visor S) (b : SignedBlock) (db : S) :
  match ExecuteSignedBlockUnsafe vs b db with
  | (db', Ok _) =>
      ∃ tx1 tx2,
        runTx (ExecuteBlock (blockchain vs) b) db = (tx1, Ok ()) ∧
        runTx (RemoveTransactions (unconfirmed vs)
                 (TxnHash <$> bk_Transactions (sb_Block b))) tx1 = (tx2, Ok ()) ∧
        runTx (ParseBlock (history vs) (sb_Block b)) tx2 = (db', Ok ())
  | (db', Err _) => db' = db
  end.
Proof.
  unfold ExecuteSignedBlockUnsafe, Update.
  pose proof (executeSignedBlockUnsafe_steps vs b db) as Hsteps.
  by destruct (runTx (executeSignedBlockUnsafe vs b) db) as [db' [[]|e]].
Qed.

End ExecuteFacts.


Section ExecutePoolFacts.
Context `{!Externals}.
Import Ref.

(** Over the pool and the history index of the specification and any
    chain: the store a successful [ExecuteSignedBlock] leaves holds none
    of the block's transactions in its pool. *)
Lemma ExecuteSignedBlock_pool_cleared (c : Config) (bc : Blockchainer DB)
    (b : SignedBlock) (db db' : DB) :
  ExecuteSignedBlock (Build_Visor DB c pool bc historydb) b db = (db', Ok ()) →
  ∀ txn, txn ∈ bk_Transactions (sb_Block b) →
         ¬ UnconfirmedTransactionPool.inPool db' txn.
Proof.
  intros Hrun txn Htxn.
  apply Update_inv_Ok in Hrun. unfold executeSignedBlock in Hrun.
  destruct (VerifySignature b _); [done|].
  unfold executeSignedBlockUnsafe in Hrun. rewrite !runTx_bind in Hrun. cbn in Hrun.
  destruct (runTx (ExecuteBlock bc b) db) as [tx1 [[]|e]] eqn:Hexec; [|done].
  injection Hrun as <-.
  unfold UnconfirmedTransactionPool.inPool. cbn.
  intros Hin. apply list_elem_of_fmap in Hin as ([h ut] & Hh & Hin). cbn in Hh.
  apply list_elem_of_filter in Hin as [Hnot _]. apply Hnot. cbn. rewrite <-Hh.
  apply list_elem_of_fmap. by exists txn.
Qed.

End ExecutePoolFacts.

(** ** Injecting transactions *)

Section InjectFacts.
Context `{!Externals} {S : Type}.

(** C2. A transaction that fails the verification of soft and hard
    constraints under the user policy ([params.UserVerifyTxn]) is refused
    by [InjectUserTransaction]: the call returns an error (the verifier's
    own, unless the user-level check already failed) and the store, the
    unconfirmed pool included, is left as it was.  The same holds of
    [InjectUserTransactionTx] inside a scope opened by the caller. *)
Theorem InjectUserTransaction_rejects (vs : Visor S) (txn : Transaction)
    (db : S) (err : error) :
  VerifySingleTxnSoftHardConstraints (blockchain vs) db txn
    (cfg_Distribution (config vs)) UserVerifyTxn TxnSigned = Err err →
  ∃ e, InjectUserTransaction vs txn db = (db, Err e) ∧
       runTx (InjectUserTransactionTx vs txn) db = (db, Err e) ∧
       (VerifySingleTxnUserConstraints txn = None → e = err) ∧
       AllRawTransactions (unconfirmed vs) (InjectUserTransaction vs txn db).1
       = AllRawTransactions (unconfirmed vs) db.
Proof.
  intros Hv. unfold InjectUserTransaction, InjectUserTransactionTx, Update.
  destruct (VerifySingleTxnUserConstraints txn) as [e|] eqn:Hu.
  - exists e. done.
  - exists err. rewrite runTx_bind. cbn. rewrite Hv. done.
Qed.

(** The user-level check alone is enough to refuse a transaction. *)
Lemma InjectUserTransaction_user_constraint (vs : Visor S) (txn : Transaction)
    (db : S) (err : error) :
  VerifySingleTxnUserConstraints txn = Some err →
  InjectUserTransaction vs txn db = (db, Err err).
Proof.
  intros Hu. unfold InjectUserTransaction, InjectUserTransactionTx, Update.
  by rewrite Hu.
Qed.

End InjectFacts.

Section InjectForeignFacts.
Context `{!Externals}.
Import Ref.

Lemma hasKey_inPool (db : DB) (txn : Transaction) :
  UnconfirmedTransactionPool.hasKey db (TxnHash txn) = true ↔
  UnconfirmedTransactionPool.inPool db txn.
Proof. unfold UnconfirmedTransactionPool.hasKey, UnconfirmedTransactionPool.inPool. apply bool_decide_eq_true. Qed.

Lemma inPool_set_pool_app (db : DB) (txn : Transaction) (ut : UnconfirmedTransaction) :
  UnconfirmedTransactionPool.inPool
    (set_pool db (db_pool db ++ [(TxnHash txn, ut)])) txn.
Proof.
  unfold UnconfirmedTransactionPool.inPool. cbn. rewrite fmap_app. apply elem_of_app. right.
  cbn. apply list_elem_of_here.
Qed.

(** C3. [InjectForeignTransaction] over the pool of the specification and
    any chain.  When the verifier reports anything but a soft violation
    (a hard violation in particular) the call returns that error and the
    store is unchanged, so the transaction is not injected.  When it
    reports a soft violation only, the call returns no error, hands the
    violation back, and the transaction is in the pool afterwards.  In
    every successful call the flag tells whether the transaction was in
    the pool before the call. *)
Theorem InjectForeignTransaction_outcomes (c : Config) (bc : Blockchainer DB)
    (h : Historyer DB) (txn : Transaction) (db : DB) :
  let vs := Build_Visor DB c pool bc h in
  let known := UnconfirmedTransactionPool.hasKey db (TxnHash txn) in
  match VerifySingleTxnSoftHardConstraints bc db txn (cfg_Distribution c)
          (UnconfirmedVerifyTxn c) TxnSigned with
  | Err (ErrTxnViolatesSoftConstraint msg) =>
      ∃ db', InjectForeignTransaction vs txn db = (db', Ok (known, Some msg)) ∧
             UnconfirmedTransactionPool.inPool db' txn
  | Err err => InjectForeignTransaction vs txn db = (db, Err err)
  | Ok _ =>
      ∃ db', InjectForeignTransaction vs txn db = (db', Ok (known, None)) ∧
             UnconfirmedTransactionPool.inPool db' txn
  end.
Proof.
  intros vs known.
  unfold InjectForeignTransaction, Update. cbn.
  destruct (VerifySingleTxnSoftHardConstraints bc db txn _ _ _) as [r|e] eqn:Hv.
  - subst known.
    destruct (UnconfirmedTransactionPool.hasKey db (TxnHash txn)) eqn:Hk.
    + exists db. split; [done|]. by apply hasKey_inPool.
    + eexists. split; [done|]. apply inPool_set_pool_app.
  - destruct e; try done.
    subst known.
    destruct (UnconfirmedTransactionPool.hasKey db (TxnHash txn)) eqn:Hk.
    + exists db. split; [done|]. by apply hasKey_inPool.
    + eexists. split; [done|]. apply inPool_set_pool_app.
Qed.

End InjectForeignFacts.

(** ** Walking a list with a fallible function *)

Section MapM.
Context {A B : Type} (f : A → result B).

Lemma mapM_result_nil : mapM f [] = Ok [].
Proof. reflexivity. Qed.

Lemma mapM_result_cons (a : A) (l : list A) :
  mapM f (a :: l) =
  match f a with
  | Err e => Err e
  | Ok b => match mapM f l with Err e => Err e | Ok bs => Ok (b :: bs) end
  end.
Proof. cbn. destruct (f a); [|done]. cbn. by destruct (mapM f l). Qed.


Lemma mapM_result_length (l : list A) (bs : list B) :
  mapM f l = Ok bs → length bs = length l.
Proof.
  revert bs. induction l as [|x l IH]; intros bs Hm.
  - by injection Hm as <-.
  - rewrite mapM_result_cons in Hm.
    destruct (f x); [|done]. destruct (mapM f l); [|done].
    injection Hm as <-. cbn. f_equal. by apply IH.
Qed.

Lemma mapM_result_Forall (P : B → Prop) (l : list A) (bs : list B) :
  (∀ a b, f a = Ok b → P b) → mapM f l = Ok bs → Forall P bs.
Proof.
  intros HP. revert bs. induction l as [|x l IH]; intros bs Hm.
  - injection Hm as <-. constructor.
  - rewrite mapM_result_cons in Hm.
    destruct (f x) eqn:Hx; [|done]. destruct (mapM f l); [|done].
    injection Hm as <-. constructor; eauto.
Qed.


End MapM.

(** ** Balances *)

Section BalanceFacts.
Context `{!Externals} {S : Type}.

Lemma UxArray_Sub_nil (ua : UxArray) : coin.UxArray_Sub ua [] = ua.
Proof.
  unfold coin.UxArray_Sub. induction ua as [|ux ua IH]; [done|].
  rewrite filter_cons_True; [by rewrite IH|].
  unfold coin.hasHash. cbn. apply bool_decide_eq_false. apply not_elem_of_nil.
Qed.

Lemma UxArray_Add_nil (ua : UxArray) : coin.UxArray_Add ua [] = ua.
Proof. unfold coin.UxArray_Add. by rewrite filter_nil, app_nil_r. Qed.


Lemma balanceView_inv (vs : Visor S) (addrs : list Address) (db : S)
    head recvUxs uxa auxs :
  balanceView vs addrs db = Ok (head, recvUxs, uxa, auxs) →
  ∃ txns,
    Head (blockchain vs) db = Ok head ∧
    AllRawTransactions (unconfirmed vs) db = Ok txns ∧
    txnOutputsForAddrs (sb_Head head) addrs txns = Ok recvUxs ∧
    Unspent_GetArray (blockchain vs) db (concat (txn_In <$> txns)) = Ok uxa ∧
    Unspent_GetUnspentsOfAddrs (blockchain vs) db addrs = Ok auxs.
Proof.
  unfold balanceView. intros Hv.
  destruct (Head _ db) as [hd|] eqn:Hh; [|done]. cbn in Hv.
  destruct (AllRawTransactions _ db) as [txns|] eqn:Ht; [|done]. cbn in Hv.
  destruct (Unspent_GetArray _ db _) as [u|] eqn:Hg; [|done]. cbn in Hv.
  destruct (Unspent_GetUnspentsOfAddrs _ db _) as [au|] eqn:Hu; [|done].
  cbn in Hv. injection Hv as <- <- <- <-. exists txns. done.
Qed.

Lemma GetBalanceOfAddresses_inv (vs : Visor S) (addrs : list Address) (db : S)
    (bps : list BalancePair) :
  addrs ≠ [] →
  GetBalanceOfAddresses vs addrs db = Ok bps →
  ∃ head recvUxs uxa auxs,
    balanceView vs addrs db = Ok (head, recvUxs, uxa, auxs) ∧
    mapM (balanceOf auxs (spendsOf addrs uxa) recvUxs (sb_Time head)) addrs = Ok bps.
Proof.
  intros Hne. unfold GetBalanceOfAddresses, View.
  rewrite bool_decide_eq_false_2; [|by destruct addrs].
  destruct (balanceView vs addrs db) as [[[[head recvUxs] uxa] auxs]|]; [|done].
  cbn. intros Hm. by exists head, recvUxs, uxa, auxs.
Qed.

(** With nothing spent and nothing received, the predicted balance of an
    address is its confirmed balance. *)
Lemma balanceOf_no_pool (auxs : AddressUxOuts) (headTime : uint64)
    (addr : Address) (bp : BalancePair) :
  balanceOf auxs ∅ ∅ headTime addr = Ok bp → Predicted bp = Confirmed bp.
Proof.
  unfold balanceOf. destruct (auxs !! addr) as [uxs|]; [|by intros [= <-]].
  rewrite !lookup_empty. cbn [default].
  rewrite UxArray_Sub_nil, UxArray_Add_nil.
  destruct (coin.UxArray_Coins uxs) as [coins|]; [|done]. cbn.
  destruct (coin.UxArray_CoinHours uxs headTime) as [h|e]; cbn.
  - by intros [= <-].
  - destruct e; try done. by intros [= <-].
Qed.

(** C9. When the unconfirmed pool is empty, every balance pair returned
    by [GetBalanceOfAddresses] has its predicted balance equal to its
    confirmed balance, coins and hours. *)
Theorem GetBalanceOfAddresses_empty_pool (vs : Visor S) (addrs : list Address)
    (db : S) (bps : list BalancePair) :
  AllRawTransactions (unconfirmed vs) db = Ok [] →
  Unspent_GetArray (blockchain vs) db [] = Ok [] →
  GetBalanceOfAddresses vs addrs db = Ok bps →
  length bps = length addrs ∧
  Forall (fun bp => Coins (Predicted bp) = Coins (Confirmed bp) ∧
                    Hours (Predicted bp) = Hours (Confirmed bp)) bps.
Proof.
  intros Hpool Hget Hbal.
  destruct (decide (addrs = [])) as [->|Hne].
  { injection Hbal as <-. split; [done|constructor]. }
  destruct (GetBalanceOfAddresses_inv _ _ _ _ Hne Hbal)
    as (head & recvUxs & uxa & auxs & Hv & Hm).
  destruct (balanceView_inv _ _ _ _ _ _ _ Hv) as (txns & _ & Ht & Hr & Hg & _).
  rewrite Hpool in Ht. injection Ht as <-.
  cbn in Hr, Hg. injection Hr as <-. rewrite Hget in Hg. injection Hg as <-.
  split; [by eapply mapM_result_length|].
  eapply mapM_result_Forall; [|exact Hm].
  intros a bp Hbp. cbn in Hbp. apply balanceOf_no_pool in Hbp. by rewrite Hbp.
Qed.

End BalanceFacts.

(** ** Checked sums *)

Section CheckedSums.
Context `{!Externals}.

Lemma AddUint64_spec (a b : Z) :
  is_uint64 a → is_uint64 b →
  mathutil.AddUint64 a b =
  if a + b <=? mathutil.MaxUint64 then Ok (a + b) else Err ErrUint64AddOverflow.
Proof.
  unfold is_uint64, mathutil.AddUint64, mathutil.MaxUint64.
  change (2 ^ 64) with 18446744073709551616. intros Ha Hb. cbn zeta.
  destruct (a + b <=? 18446744073709551616 - 1) eqn:Hle.
  - apply Z.leb_le in Hle. rewrite Z.mod_small by lia.
    replace (a + b <? a) with false by (symmetry; apply Z.ltb_ge; lia).
    replace (a + b <? b) with false by (symmetry; apply Z.ltb_ge; lia).
    done.
  - apply Z.leb_gt in Hle.
    replace ((a + b) mod 18446744073709551616)
      with (a + b - 18446744073709551616).
    + replace (a + b - 18446744073709551616 <? a) with true
        by (symmetry; apply Z.ltb_lt; lia).
      done.
    + apply Z.mod_unique with 1; lia.
Qed.

Lemma AddUint64_Ok_range (a b c : Z) :
  mathutil.AddUint64 a b = Ok c → is_uint64 c.
Proof.
  unfold mathutil.AddUint64, is_uint64, mathutil.MaxUint64. cbn zeta.
  destruct (_ || _); [done|]. intros [= <-].
  pose proof (Z.mod_pos_bound (a + b) (2 ^ 64)). lia.
Qed.

Lemma wf_UxOut_fields (ux : UxOut) :
  wf_UxOut ux = true →
  is_uint64 (ux_Coins (ux_Body ux)) ∧ is_uint64 (ux_Hours (ux_Body ux)).
Proof. unfold wf_UxOut, is_uint64. intros Hwf. lia. Qed.

Lemma totalCoins_cons (ux : UxOut) (ua : UxArray) :
  totalCoins (ux :: ua) = ux_Coins (ux_Body ux) + totalCoins ua.
Proof. reflexivity. Qed.

Lemma totalCoins_nonneg (ua : UxArray) :
  Forall (fun ux => wf_UxOut ux = true) ua → 0 ≤ totalCoins ua.
Proof.
  induction 1 as [|ux ua Hux _ IH]; [done|].
  rewrite totalCoins_cons. apply wf_UxOut_fields in Hux as [[] _]. lia.
Qed.



Lemma UxOut_CoinHours_range (ux : UxOut) (t h : Z) :
  wf_UxOut ux = true → coin.UxOut_CoinHours ux t = Ok h → is_uint64 h.
Proof.
  intros Hwf. unfold coin.UxOut_CoinHours.
  destruct (t <? _).
  - intros [= <-]. by apply wf_UxOut_fields in Hwf as [_ ?].
  - destruct (mathutil.MultUint64 _ _); [|done].
    destruct (mathutil.MultUint64 _ _); [|done].
    destruct (mathutil.AddUint64 _ _) eqn:Ha; [|done].
    intros [= <-]. by eapply AddUint64_Ok_range.
Qed.





End CheckedSums.

Section OverflowFacts.
Context `{!Externals} {S : Type}.







End OverflowFacts.

(** ** Creating blocks *)

Section CreateBlockFacts.
Context `{!Externals} {S : Type}.

Lemma filterTxns_all_violating (vs : Visor S) (tx : S)
    (txns acc : list Transaction) :
  (∀ txn, txn ∈ txns → violatesConstraints vs tx txn) →
  filterTxns vs tx txns acc = Ok acc.
Proof.
  induction txns as [|txn txns IH]; intros Hall; [done|].
  cbn [filterTxns].
  destruct (Hall txn) as [msg [-> | ->]]; [apply list_elem_of_here|..];
    apply IH; intros t Ht; apply Hall; by apply list_elem_of_further.
Qed.

(** C6, as the code has it.  [createBlockFromTxns] returns a
    "No transactions" error when it is given no transaction, and a
    "No transactions after filtering" error when every candidate is
    rejected for a hard or soft constraint.  When candidates survive the
    filter and the byte budget then leaves none, it does not return: it
    panics. *)
Theorem createBlockFromTxns_no_transactions (vs : Visor S) (tx : S)
    (txns : list Transaction) (when : uint64) :
  (txns = [] →
   createBlockFromTxns vs tx txns when
   = Returns (Err (errors_New "No transactions"))) ∧
  (txns ≠ [] → (∀ txn, txn ∈ txns → violatesConstraints vs tx txn) →
   createBlockFromTxns vs tx txns when
   = Returns (Err (errors_New
       "No transactions after filtering for constraint violations"))) ∧
  (∀ filtered head sorted,
     txns ≠ [] →
     filterTxns vs tx txns [] = Ok filtered → filtered ≠ [] →
     Head (blockchain vs) tx = Ok head →
     SortTransactions filtered (TransactionFee (blockchain vs) tx (sb_Time head))
     = Ok sorted →
     coin.TruncateBytesTo sorted (MaxBlockTransactionsSize (config vs)) = Ok [] →
     createBlockFromTxns vs tx txns when
     = Panics "TruncateBytesTo removed all transactions").
Proof.
  split; [|split].
  - intros ->. reflexivity.
  - intros Hne Hall. unfold createBlockFromTxns.
    rewrite bool_decide_eq_false_2 by (by destruct txns).
    by rewrite filterTxns_all_violating.
  - intros filtered head sorted Hne Hf Hfne Hh Hs Ht. unfold createBlockFromTxns.
    rewrite bool_decide_eq_false_2 by (by destruct txns).
    rewrite Hf. rewrite bool_decide_eq_false_2 by (by destruct filtered).
    rewrite Hh, Hs, Ht. cbn [length].
    rewrite (bool_decide_eq_false_2 (MaxBlockTransactions < 0)%nat) by lia.
    reflexivity.
Qed.

End CreateBlockFacts.

(** ** Address activity *)

Section IndexMapFacts.

Lemma indexMap_snoc (sky : list Address) (a : Address) :
  indexMap (sky ++ [a]) = <[a := length sky]> (indexMap sky).
Proof.
  unfold indexMap. rewrite imap_app, foldl_app. cbn.
  by rewrite Nat.add_0_r.
Qed.

Lemma dom_indexMap (sky : list Address) :
  dom (indexMap sky) = (list_to_set sky : gset Address).
Proof.
  induction sky as [|a sky IH] using rev_ind; [done|].
  rewrite indexMap_snoc, dom_insert_L, IH, list_to_set_snoc_L.
  apply union_comm_L.
Qed.

Lemma size_list_to_set_le (l : list Address) :
  (size (list_to_set l : gset Address) ≤ length l)%nat.
Proof.
  induction l as [|a l IH]; [done|]. cbn [list_to_set length].
  rewrite size_union_alt, size_singleton.
  assert (size ((list_to_set l : gset Address) ∖ {[a]})
          ≤ size (list_to_set l : gset Address))%nat as Hsub.
  { apply subseteq_size. set_solver. }
  lia.
Qed.

Lemma size_list_to_set_NoDup (l : list Address) :
  size (list_to_set l : gset Address) = length l → NoDup l.
Proof.
  induction l as [|a l IH]; [constructor|]. cbn [list_to_set length].
  intros Hsize. pose proof (size_list_to_set_le l) as Hle.
  destruct (decide (a ∈ l)) as [Hin|Hnin].
  - exfalso.
    assert (({[a]} ∪ list_to_set l : gset Address) = list_to_set l) as Heq.
    { set_solver. }
    rewrite Heq in Hsize. lia.
  - constructor; [done|]. apply IH.
    rewrite size_union, size_singleton in Hsize; [lia|set_solver].
Qed.

(** The size check of [AddressesActivity] is the test for duplicates. *)
Lemma size_indexMap (sky : list Address) :
  size (indexMap sky) = length sky ↔ NoDup sky.
Proof.
  rewrite <-size_dom, dom_indexMap. split.
  - apply size_list_to_set_NoDup.
  - apply size_list_to_set.
Qed.

Lemma indexMap_lookup (sky : list Address) (a : Address) (i : nat) :
  NoDup sky → indexMap sky !! a = Some i ↔ sky !! i = Some a.
Proof.
  induction sky as [|x sky IH] using rev_ind; intros Hnd; [done|].
  apply NoDup_app in Hnd as (Hnd & Hnin & _).
  rewrite indexMap_snoc, lookup_insert, lookup_snoc_Some.
  destruct (decide (x = a)) as [->|Hne].
  - split.
    + intros [= <-]. by right.
    + intros [[_ Hl]|[-> _]]; [|done].
      exfalso. apply (Hnin a); [by eapply list_elem_of_lookup_2|].
      apply list_elem_of_here.
  - rewrite (IH Hnd). split.
    + intros Hl. left. split; [by eapply lookup_lt_Some|done].
    + intros [[_ Hl]|[_ ?]]; done.
Qed.

End IndexMapFacts.

Section ActivityFacts.
Context `{!Externals} {S : Type}.

Lemma toSkyAddrs_length (addrs : list Addresser) (sky : list Address) :
  toSkyAddrs addrs = Ok sky → length sky = length addrs.
Proof.
  revert sky. induction addrs as [|[a|a] addrs IH]; intros sky; cbn.
  - by intros [= <-].
  - destruct (toSkyAddrs addrs) as [sky'|]; [|done]. cbn.
    intros [= <-]. cbn. f_equal. by apply IH.
  - done.
Qed.

(** The scan of the history marks the last address seen, and only it. *)
Lemma scanHistory_spec (history : Historyer S) (tx : S) (sky : list Address)
    (seen : Address → bool) (n : nat) (active0 : list bool) :
  (∀ a, a ∈ sky → AddressSeen history tx a = Ok (seen a)) →
  (n ≤ length sky)%nat →
  length active0 = length sky →
  (∀ i, active0 !! i ≠ Some true) →
  ∃ active1,
    scanHistory history tx sky n active0 = Ok active1 ∧
    length active1 = length sky ∧
    ∀ i, active1 !! i = Some true ↔ lastSeenBelow seen sky n i.
Proof.
  intros Hseen Hn Hlen Hfalse. induction n as [|k IH].
  - exists active0. split; [done|]. split; [done|]. intros i. split.
    + intros Hi. by apply Hfalse in Hi.
    + intros [Hlt _]. lia.
  - cbn [scanHistory].
    destruct (lookup_lt_is_Some_2 sky k) as [a Ha]; [lia|]. rewrite Ha.
    rewrite (Hseen a) by (by eapply list_elem_of_lookup_2). cbn.
    destruct (seen a) eqn:Hsa.
    + eexists. split; [done|]. split; [by rewrite length_insert|].
      intros i. rewrite list_lookup_insert_Some. split.
      * intros [(<- & _ & _)|[_ Hi]]; [|by apply Hfalse in Hi].
        split; [lia|]. split; [by exists a|]. intros j a' ?. lia.
      * intros (Hlt & (b & Hb & Hsb) & Hlast). left.
        destruct (decide (i = k)) as [->|Hne]; [split; [done|split; [done|lia]]|].
        exfalso. assert (seen a = false) by (apply (Hlast k a); [lia|done]).
        congruence.
    + destruct IH as (active1 & -> & Hl1 & Hchar); [lia|].
      exists active1. split; [done|]. split; [done|].
      intros i. rewrite Hchar. unfold lastSeenBelow. split.
      * intros (Hlt & Hex & Hlast). split; [lia|]. split; [done|].
        intros j a' Hj Hja'. destruct (decide (j = k)) as [->|Hne].
        -- rewrite Ha in Hja'. by injection Hja' as <-.
        -- apply (Hlast j a'); [lia|done].
      * intros (Hlt & (b & Hb & Hsb) & Hlast).
        assert (i ≠ k) by (intros ->; rewrite Ha in Hb; congruence).
        split; [lia|]. split; [by exists b|].
        intros j a' Hj. apply Hlast. lia.
Qed.

(** Marking the owners of a list of outputs. *)
Lemma markOutputs_outs (addrsMap : gmap Address nat) (outs : list TransactionOutput)
    (active : list bool) (n : nat) :
  length active = n →
  (∀ a j, addrsMap !! a = Some j → (j < n)%nat) →
  let active' :=
    foldl (fun active o =>
             match addrsMap !! out_Address o with
             | Some i => <[i := true]> active
             | None => active
             end) active outs in
  length active' = n ∧
  ∀ i, active' !! i = Some true ↔
       active !! i = Some true ∨ ∃ o, o ∈ outs ∧ addrsMap !! out_Address o = Some i.
Proof.
  intros Hlen Hrange. revert active Hlen.
  induction outs as [|o outs IH]; intros active Hlen; cbn.
  - split; [done|]. intros i. split; [by left|].
    intros [?|(o & Ho & _)]; [done|]. by apply elem_of_nil in Ho.
  - destruct (addrsMap !! out_Address o) as [j|] eqn:Hj.
    + destruct (IH (<[j := true]> active)) as [Hl Hc]; [by rewrite length_insert|].
      split; [done|]. intros i. rewrite Hc, list_lookup_insert_Some. split.
      * intros [[(<- & _ & _)|[_ ?]]|(o' & Ho' & Hi)].
        -- right. exists o. split; [apply list_elem_of_here|done].
        -- by left.
        -- right. exists o'. split; [by apply list_elem_of_further|done].
      * intros [Hi|(o' & Ho' & Hi)].
        -- destruct (decide (j = i)) as [->|Hne]; left.
           ++ left. split; [done|]. split; [done|].
              rewrite Hlen. by eapply Hrange.
           ++ by right.
        -- apply elem_of_cons in Ho' as [->|Ho'].
           ++ left. left. rewrite Hj in Hi. injection Hi as ->.
              split; [done|]. split; [done|]. rewrite Hlen. by eapply Hrange.
           ++ right. by exists o'.
    + destruct (IH active Hlen) as [Hl Hc]. split; [done|].
      intros i. rewrite Hc. split.
      * intros [?|(o' & Ho' & Hi)]; [by left|].
        right. exists o'. split; [by apply list_elem_of_further|done].
      * intros [?|(o' & Ho' & Hi)]; [by left|].
        apply elem_of_cons in Ho' as [->|Ho']; [congruence|].
        right. by exists o'.
Qed.

(** Walking the pool with the marking callback never fails, and marks the
    owners of all outputs of all entries. *)
Lemma forEach_markOutputs (addrsMap : gmap Address nat)
    (es : list (SHA256 * UnconfirmedTransaction)) (active : list bool) (n : nat) :
  length active = n →
  (∀ a j, addrsMap !! a = Some j → (j < n)%nat) →
  ∃ active',
    forEach (markOutputs addrsMap) es active = Ok active' ∧
    length active' = n ∧
    ∀ i, active' !! i = Some true ↔
         active !! i = Some true ∨
         ∃ e o, e ∈ es ∧ o ∈ txn_Out (ut_Transaction e.2) ∧
                addrsMap !! out_Address o = Some i.
Proof.
  intros Hlen Hrange. revert active Hlen.
  induction es as [|[h ut] es IH]; intros active Hlen.
  - exists active. split; [done|]. split; [done|]. intros i. split; [by left|].
    intros [?|(e & o & He & _)]; [done|]. by apply elem_of_nil in He.
  - cbn [forEach]. unfold markOutputs at 1. cbn [mbind result_bind].
    destruct (markOutputs_outs addrsMap (txn_Out (ut_Transaction ut)) active n
                Hlen Hrange) as [Hl1 Hc1].
    destruct (IH _ Hl1) as (active' & Hrun & Hl' & Hc').
    exists active'. split; [exact Hrun|]. split; [done|].
    intros i. rewrite Hc', Hc1. split.
    + intros [[?|(o & Ho & Hi)]|(e & o & He & Ho & Hi)].
      * by left.
      * right. exists (h, ut), o. split; [apply list_elem_of_here|done].
      * right. exists e, o. split; [by apply list_elem_of_further|done].
    + intros [?|(e & o & He & Ho & Hi)]; [by left; left|].
      apply elem_of_cons in He as [->|He].
      * left. right. by exists o.
      * right. by exists e, o.
Qed.

End ActivityFacts.

Section ActivityTheorem.
Context `{!Externals} {S : Type}.

(** C7, as the code has it.  For a list of addresses of this chain,
    [AddressesActivity] fails when an address is listed twice.
    When none is, and the history and the pool can be read, it returns
    one flag per address, in the order of the list; the flag of an
    address is true exactly when it is the last address of the list seen
    by the history or when some transaction of the pool has an output
    owned by it.  An address seen by the history but listed before
    another such address is not flagged by the history scan. *)
Theorem AddressesActivity_flags (tf : TransactionsFinder S)
    (addrs : list Addresser) (db : S) (sky : list Address) :
  toSkyAddrs addrs = Ok sky →
  (¬ NoDup sky →
   AddressesActivity tf addrs db
   = Err (errors_New "duplicates addresses not allowed")) ∧
  (∀ seen es,
     NoDup sky →
     (∀ a, a ∈ sky → AddressSeen (tf_history tf) db a = Ok (seen a)) →
     Entries (tf_unconfirmed tf) db = Ok es →
     ∃ active,
       AddressesActivity tf addrs db = Ok active ∧
       length active = length addrs ∧
       ∀ i a, sky !! i = Some a →
         (active !! i = Some true ↔
          lastSeenBelow seen sky (length sky) i ∨ paidInPool es a)).
Proof.
  intros Hsky. pose proof (toSkyAddrs_length _ _ Hsky) as Hlen.
  destruct (decide (addrs = [])) as [->|Hne].
  { injection Hsky as <-. split; [intros Hdup; destruct Hdup; constructor|].
    intros seen es _ _ _. exists []. split; [done|]. split; [done|].
    intros i a Hi. done. }
  unfold AddressesActivity.
  rewrite bool_decide_eq_false_2 by (by destruct addrs).
  rewrite Hsky. cbn [mbind result_bind]. rewrite <-Hlen. split.
  - intros Hdup. rewrite bool_decide_eq_true_2; [done|].
    intros Hsize. by apply Hdup, size_indexMap.
  - intros seen es Hnd Hseen Hes.
    rewrite bool_decide_eq_false_2 by (intros Hsize; by apply Hsize, size_indexMap).
    unfold View.
    destruct (scanHistory_spec (tf_history tf) db sky seen (length sky)
                (replicate (length sky) false)) as (active1 & -> & Hl1 & Hc1).
    { done. }
    { done. }
    { by rewrite length_replicate. }
    { intros i Hi. apply lookup_replicate in Hi as [? _]. done. }
    cbn [mbind result_bind]. unfold ForEach. rewrite Hes. cbn [mbind result_bind].
    destruct (forEach_markOutputs (indexMap sky) es active1 (length sky) Hl1)
      as (active & -> & Hl & Hc).
    { intros a j Hj. apply indexMap_lookup in Hj; [|done].
      by eapply lookup_lt_Some. }
    exists active. split; [done|]. split; [done|].
    intros i a Hi. rewrite Hc, Hc1. unfold paidInPool. split.
    + intros [?|(e & o & He & Ho & Hidx)]; [by left|]. right.
      exists e, o. split; [done|]. split; [done|].
      apply indexMap_lookup in Hidx; [|done]. congruence.
    + intros [?|(e & o & He & Ho & Hoa)]; [by left|]. right.
      exists e, o. split; [done|]. split; [done|].
      apply indexMap_lookup; [done|]. by rewrite Hoa.
Qed.

End ActivityTheorem.

(** ** Rebuilding the history *)

Section ParseFacts.
Context `{!Externals} {S : Type}.

(** Whatever height the history reports, the first block
    [parseHistoryTo] asks the chain for is the one numbered one above
    it; the flag returned beside the height plays no part. *)
Lemma parseHistoryTo_first_fetch (history : Historyer S) (bc : Blockchainer S)
    (tx : S) (height p : uint64) (ok : bool) :
  ParsedBlockSeq history tx = Ok (p, ok) →
  (height - p) mod 2 ^ 64 ≠ 0 →
  GetSignedBlockBySeq bc tx ((p + 1) mod 2 ^ 64) = Ok None →
  runTx (parseHistoryTo history bc height) tx
  = (tx, Err (ErrNoBlockInDepth ((p + 1) mod 2 ^ 64))).
Proof.
  intros Hp Hn Hnone. unfold parseHistoryTo. rewrite runTx_bind.
  cbn [reading runTx]. rewrite Hp.
  pose proof (Z.mod_pos_bound (height - p) (2 ^ 64)) as Hb.
  destruct (Z.to_nat ((height - p) mod 2 ^ 64)) as [|n] eqn:Hk; [lia|].
  cbn [parseHistoryTo_loop]. rewrite runTx_bind. cbn [reading runTx].
  rewrite Z.add_0_r. by rewrite Hnone.
Qed.

(** When the height reported by the history is the height asked for,
    nothing is fetched and nothing is parsed. *)
Lemma parseHistoryTo_nothing (history : Historyer S) (bc : Blockchainer S)
    (tx : S) (height : uint64) (ok : bool) :
  ParsedBlockSeq history tx = Ok (height, ok) →
  runTx (parseHistoryTo history bc height) tx = (tx, Ok ()).
Proof.
  intros Hp. unfold parseHistoryTo. rewrite runTx_bind.
  cbn [reading runTx]. rewrite Hp. by rewrite Z.sub_diag.
Qed.

End ParseFacts.

Section HistoryFacts.
Context `{!Externals}.
Import Ref.

Lemma wf_chain_find (db : DB) (i : nat) (b : SignedBlock) :
  wf_chain db → db_blocks db !! i = Some b →
  Blockchain.GetSignedBlockBySeq db (Z.of_nat i) = Ok (Some b).
Proof.
  intros [Hseq _] Hb. unfold Blockchain.GetSignedBlockBySeq.
  assert (list_find (fun b => bk_Seq (sb_Block b) = Z.of_nat i) (db_blocks db)
          = Some (i, b)) as ->; [|done].
  apply list_find_Some. split; [done|]. split; [by apply Hseq|].
  intros j y Hy Hlt Heq. apply Hseq in Hy. lia.
Qed.

(** From a history that records no parsed height, the loop parses the
    blocks numbered [i + 1] onwards, one after the other. *)
Lemma parseHistoryTo_loop_ref (k i : nat) (db : DB) :
  wf_chain db →
  (i + k < length (db_blocks db))%nat →
  ∃ db',
    runTx (parseHistoryTo_loop historydb chain 0 k (Z.of_nat i)) db = (db', Ok ()) ∧
    db_blocks db' = db_blocks db ∧
    db_parsed db' =
      db_parsed db ++ (sb_Block <$> take k (drop (Datatypes.S i) (db_blocks db))).
Proof.
  revert i db. induction k as [|k IH]; intros i db Hwf Hlt.
  - exists db. cbn. by rewrite app_nil_r.
  - destruct (lookup_lt_is_Some_2 (db_blocks db) (Datatypes.S i)) as [b Hb]; [lia|].
    cbn [parseHistoryTo_loop]. rewrite !runTx_bind. cbn [reading runTx].
    destruct Hwf as [Hseq Hsz].
    replace ((0 + Z.of_nat i + 1) mod 2 ^ 64) with (Z.of_nat (Datatypes.S i)).
    2:{ rewrite Z.mod_small; lia. }
    cbn [GetSignedBlockBySeq chain].
    rewrite (wf_chain_find db (Datatypes.S i) b); [|done|done].
    rewrite runTx_bind. cbn [ParseBlock historydb HistoryDB.ParseBlock runTx].
    replace (Z.of_nat i + 1) with (Z.of_nat (Datatypes.S i)) by lia.
    destruct (IH (Datatypes.S i)
                (set_history db (Some (bk_Seq (sb_Block b)))
                   (db_parsed db ++ [sb_Block b])))
      as (db' & Hrun & Hblocks & Hparsed).
    { done. }
    { cbn. lia. }
    exists db'. split; [exact Hrun|]. split; [done|].
    rewrite Hparsed. cbn [db_parsed db_blocks set_history].
    rewrite (drop_S _ _ _ Hb). cbn [take fmap list_fmap].
    by rewrite <-app_assoc.
Qed.

(** C8, what the code does.  On a chain of at least one block whose
    history index needs a reset, [initHistory] succeeds and leaves in the
    index the blocks numbered 1 up to the head: the block numbered 0 is
    not parsed. *)
Theorem initHistory_parses_from_1 (db : DB) :
  wf_chain db →
  db_blocks db ≠ [] →
  HistoryDB.NeedsReset db = Ok true →
  ∃ db',
    runTx (initHistory chain historydb) db = (db', Ok ()) ∧
    db_parsed db' = sb_Block <$> drop 1 (db_blocks db) ∧
    (∀ b, b ∈ db_parsed db' → bk_Seq b ≠ 0).
Proof.
  intros Hwf Hne Hreset.
  assert (∃ db', runTx (initHistory chain historydb) db = (db', Ok ()) ∧
                 db_parsed db' = sb_Block <$> drop 1 (db_blocks db))
    as (db' & Hrun & Hparsed).
  { unfold initHistory. rewrite runTx_bind. cbn [reading runTx NeedsReset historydb].
    rewrite Hreset. cbn [negb]. rewrite runTx_bind.
    cbn [Erase historydb HistoryDB.Erase runTx]. rewrite runTx_bind.
    cbn [reading runTx HeadSeq chain]. unfold Blockchain.HeadSeq.
    cbn [db_blocks set_history].
    destruct (last (db_blocks db)) as [hd|] eqn:Hlast.
    2:{ apply last_None in Hlast. done. }
    unfold parseHistoryTo. rewrite runTx_bind.
    cbn [reading runTx ParsedBlockSeq historydb HistoryDB.ParsedBlockSeq
         db_parsedBlockSeq set_history].
    rewrite last_lookup in Hlast.
    destruct Hwf as [Hseq Hsz]. rewrite (Hseq _ _ Hlast).
    assert (0 < length (db_blocks db))%nat by (destruct (db_blocks db); [done|cbn; lia]).
    rewrite Z.sub_0_r, Z.mod_small by lia. rewrite Nat2Z.id.
    destruct (parseHistoryTo_loop_ref (pred (length (db_blocks db))) 0
                (set_history db None [])) as (db' & Hrun & _ & Hparsed).
    { done. }
    { cbn. lia. }
    exists db'. split; [exact Hrun|]. rewrite Hparsed. cbn.
    f_equal. apply take_ge. rewrite length_drop. lia. }
  exists db'. split; [done|]. split; [done|].
  intros b Hb. rewrite Hparsed in Hb.
  apply list_elem_of_fmap in Hb as (sb & -> & Hsb).
  apply list_elem_of_lookup in Hsb as [i Hi]. rewrite lookup_drop in Hi.
  destruct Hwf as [Hseq _]. rewrite (Hseq _ _ Hi). lia.
Qed.

End HistoryFacts.

(** * The properties on the concrete instance *)

Module Runs.
Import Ref Examples.
#[local] Existing Instance Examples.externals.

(** C5 at a block signed with another key: the store is untouched. *)
Lemma ExecuteSignedBlock_bad_signature_run :
  VerifySignature (blk 1 2 [t1] 5) (BlockchainPubkey (config (visor cfg)))
  = Some (errors_New "Signature not valid for hash") ∧
  ExecuteSignedBlock (visor cfg) (blk 1 2 [t1] 5) db_pending
  = (db_pending, Err (errors_New "Signature not valid for hash")).
Proof.
  split; [reflexivity|].
  apply ExecuteSignedBlock_bad_signature. reflexivity.
Defined.

(** A correctly signed block that confirms the pending transaction: it is
    appended, its transaction leaves the pool and it is parsed, at once. *)
Example ExecuteSignedBlock_run :
  ExecuteSignedBlock (visor cfg) (blk 1 2 [t1] 99) db_pending
  = (mkDB [blk 0 1 [] 99; blk 1 2 [t1] 99]
          [coin.CreateUnspent (sb_Head (blk 1 2 [t1] 99)) t1
             (mkTransactionOutput a1 0 0)]
          [] (Some 1) [sb_Block (blk 1 2 [t1] 99)],
     Ok ()).
Proof. vm_compute. reflexivity. Qed.

(** C2 at a transaction above the size ceiling of the user policy. *)
Lemma InjectUserTransaction_rejects_run :
  VerifySingleTxnSoftHardConstraints chain (db_genesis []) t_large
    (cfg_Distribution cfg) UserVerifyTxn TxnSigned
  = Err (ErrTxnViolatesSoftConstraint "Transaction size bigger than max block size") ∧
  ∃ e, InjectUserTransaction (visor cfg) t_large (db_genesis [])
       = (db_genesis [], Err e) ∧
       runTx (InjectUserTransactionTx (visor cfg) t_large) (db_genesis [])
       = (db_genesis [], Err e) ∧
       (VerifySingleTxnUserConstraints t_large = None →
        e = ErrTxnViolatesSoftConstraint "Transaction size bigger than max block size") ∧
       AllRawTransactions (unconfirmed (visor cfg))
         (InjectUserTransaction (visor cfg) t_large (db_genesis [])).1
       = AllRawTransactions (unconfirmed (visor cfg)) (db_genesis []).
Proof.
  split; [reflexivity|].
  apply (InjectUserTransaction_rejects (visor cfg) t_large (db_genesis [])).
  reflexivity.
Defined.

(** The three outcomes of a foreign injection. *)
Example InjectForeignTransaction_hard_run :
  InjectForeignTransaction (visor cfg) t_overspend (db_genesis [])
  = (db_genesis [], Err (ErrTxnViolatesHardConstraint "Insufficient coins")).
Proof. reflexivity. Qed.

Example InjectForeignTransaction_soft_run :
  InjectForeignTransaction (visor cfg) t_large (db_genesis [])
  = (mkDB [blk 0 1 [] 99] [] [(103, mkUnconfirmedTransaction t_large 0 0 0 0)]
          (Some 0) [],
     Ok (false, Some "Transaction size bigger than max block size")).
Proof. reflexivity. Qed.

Example InjectForeignTransaction_known_run :
  InjectForeignTransaction (visor cfg) t1 db_pending = (db_pending, Ok (true, None)).
Proof. reflexivity. Qed.

(** C9 at a store with an empty pool. *)
Lemma GetBalanceOfAddresses_empty_pool_run :
  AllRawTransactions (unconfirmed (visor cfg)) (db_genesis [ux_funds]) = Ok [] ∧
  length [mkBalancePair (mkBalance 1000 5) (mkBalance 1000 5); BalancePair_zero]
  = length [a0; a1] ∧
  Forall (fun bp => Coins (Predicted bp) = Coins (Confirmed bp) ∧
                    Hours (Predicted bp) = Hours (Confirmed bp))
    [mkBalancePair (mkBalance 1000 5) (mkBalance 1000 5); BalancePair_zero].
Proof.
  split; [reflexivity|].
  apply (GetBalanceOfAddresses_empty_pool (visor cfg) [a0; a1]
           (db_genesis [ux_funds])).
  - reflexivity.
  - reflexivity.
  - vm_compute. reflexivity.
Defined.



(** C6 as stated fails: [t1] passes the filter, is larger than the byte
    budget of a block, and the call panics instead of returning an
    error. *)
Lemma createBlockFromTxns_truncation_panics :
  filterTxns (visor cfg) (db_genesis []) [t1] [] = Ok [t1] ∧
  coin.TruncateBytesTo [t1] (MaxBlockTransactionsSize cfg) = Ok [] ∧
  createBlockFromTxns (visor cfg) (db_genesis []) [t1] 5
  = Panics "TruncateBytesTo removed all transactions" ∧
  ¬ ∃ e, createBlockFromTxns (visor cfg) (db_genesis []) [t1] 5 = Returns (Err e).
Proof.
  split; [reflexivity|]. split; [reflexivity|]. split; [reflexivity|].
  intros [e He]. discriminate He.
Qed.

(** C6 as amended, at no candidate, at a rejected candidate and at a
    candidate the byte budget leaves out. *)
Lemma createBlockFromTxns_no_transactions_run :
  createBlockFromTxns (visor cfg) (db_genesis []) [] 5
  = Returns (Err (errors_New "No transactions")) ∧
  createBlockFromTxns (visor cfg) (db_genesis []) [t_overspend] 5
  = Returns (Err (errors_New
      "No transactions after filtering for constraint violations")) ∧
  createBlockFromTxns (visor cfg) (db_genesis []) [t1] 5
  = Panics "TruncateBytesTo removed all transactions".
Proof.
  split; [|split].
  - apply (createBlockFromTxns_no_transactions (visor cfg) (db_genesis []) [] 5).
    reflexivity.
  - apply (createBlockFromTxns_no_transactions (visor cfg) (db_genesis [])
             [t_overspend] 5); [done|].
    intros txn Htxn. apply list_elem_of_singleton in Htxn as ->.
    exists "Insufficient coins". left. reflexivity.
  - apply (proj2 (proj2 (createBlockFromTxns_no_transactions (visor cfg)
                           (db_genesis []) [t1] 5))
             [t1] (blk 0 1 [] 99) [t1]); try reflexivity; done.
Defined.

(** C7 as stated fails: [a0] was paid in a confirmed block, is listed
    before [a1], and is not flagged. *)
Lemma AddressesActivity_earlier_address_unflagged :
  HistoryDB.AddressSeen db_parsed2 a0 = Ok true ∧
  AddressesActivity finder [SkycoinAddress a0; SkycoinAddress a1] db_parsed2
  = Ok [false; true].
Proof. split; vm_compute; reflexivity. Qed.

(** C7 as amended, at the same list. *)
Lemma AddressesActivity_flags_run :
  ∃ active,
    AddressesActivity finder [SkycoinAddress a0; SkycoinAddress a1] db_parsed2
    = Ok active ∧
    length active = 2%nat ∧
    ∀ i a, [a0; a1] !! i = Some a →
      (active !! i = Some true ↔
       lastSeenBelow seen2 [a0; a1] 2 i ∨ paidInPool [] a).
Proof.
  apply (proj2 (AddressesActivity_flags finder
                  [SkycoinAddress a0; SkycoinAddress a1] db_parsed2 [a0; a1]
                  ltac:(reflexivity)) seen2 []).
  - apply NoDup_cons. split; [|apply NoDup_singleton].
    intros Hin. apply list_elem_of_singleton in Hin. discriminate Hin.
  - intros a _. reflexivity.
  - reflexivity.
Defined.

(** C8 at a chain of three blocks whose history index is empty: blocks 1
    and 2 are parsed, block 0 is not. *)
Lemma initHistory_parses_from_1_run :
  HistoryDB.NeedsReset db_unparsed = Ok true ∧
  ∃ db',
    runTx (initHistory chain historydb) db_unparsed = (db', Ok ()) ∧
    db_parsed db' = [sb_Block (blk 1 2 [t1] 99); sb_Block (blk 2 3 [] 99)] ∧
    (∀ b, b ∈ db_parsed db' → bk_Seq b ≠ 0).
Proof.
  split; [reflexivity|].
  apply (initHistory_parses_from_1 db_unparsed).
  - split.
    + intros [|[|[|i]]] b; cbn; intros [= <-]; reflexivity.
    + cbn. lia.
  - done.
  - reflexivity.
Defined.

End Runs.

(** * Properties of the further operations *)

(** ** Filters *)

Section FilterFacts.
Context `{!Externals}.

Lemma newAddrSet_elem (keys : list Address) (a : Address) :
  a ∈ newAddrSet keys ↔ a ∈ keys.
Proof.
  unfold newAddrSet. induction keys as [|k keys IH] using rev_ind.
  - cbn. split; [intros Hin; by apply not_elem_of_empty in Hin|].
    intros Hin. by apply elem_of_nil in Hin.
  - rewrite foldl_app. cbn. rewrite elem_of_union, elem_of_singleton, IH.
    rewrite elem_of_app, list_elem_of_singleton. tauto.
Qed.

Lemma newSHA256Set_elem (keys : list SHA256) (h : SHA256) :
  h ∈ newSHA256Set keys ↔ h ∈ keys.
Proof.
  unfold newSHA256Set. induction keys as [|k keys IH] using rev_ind.
  - cbn. split; [intros Hin; by apply not_elem_of_empty in Hin|].
    intros Hin. by apply elem_of_nil in Hin.
  - rewrite foldl_app. cbn. rewrite elem_of_union, elem_of_singleton, IH.
    rewrite elem_of_app, list_elem_of_singleton. tauto.
Qed.

(** A loop that appends the elements passing a test is a filter. *)
Lemma foldl_append_filter {A} (P : A → Prop) `{!∀ x, Decision (P x)}
    (step : list A → A → list A) (l acc : list A) :
  (∀ acc x, P x → step acc x = acc ++ [x]) →
  (∀ acc x, ¬ P x → step acc x = acc) →
  foldl step acc l = acc ++ filter P l.
Proof.
  intros Hyes Hno. revert acc. induction l as [|x l IH]; intros acc; cbn [foldl].
  - by rewrite filter_nil, app_nil_r.
  - rewrite IH. destruct (decide (P x)) as [HP|HP].
    + rewrite filter_cons_True, Hyes by done. by rewrite <-app_assoc.
    + by rewrite filter_cons_False, Hno.
Qed.

Lemma FbyAddresses_filter (addrs : list Address) (outputs : UxArray) :
  FbyAddresses addrs outputs
  = filter (fun u => ux_Address (ux_Body u) ∈ addrs) outputs.
Proof.
  unfold FbyAddresses.
  rewrite (foldl_append_filter (fun u => ux_Address (ux_Body u) ∈ addrs)); [done|..].
  - intros acc u Hu. rewrite bool_decide_eq_true_2; [done|].
    by apply newAddrSet_elem.
  - intros acc u Hu. rewrite bool_decide_eq_false_2; [done|].
    by rewrite newAddrSet_elem.
Qed.

Lemma FbyAddressesNotIncluded_filter (addrs : list Address) (outputs : UxArray) :
  FbyAddressesNotIncluded addrs outputs
  = filter (fun u => ¬ ux_Address (ux_Body u) ∈ addrs) outputs.
Proof.
  unfold FbyAddressesNotIncluded.
  rewrite (foldl_append_filter (fun u => ¬ ux_Address (ux_Body u) ∈ addrs)); [done|..].
  - intros acc u Hu. rewrite bool_decide_eq_false_2; [done|].
    by rewrite newAddrSet_elem.
  - intros acc u Hu. rewrite bool_decide_eq_true_2; [done|].
    apply newAddrSet_elem. by apply dec_stable.
Qed.

Lemma FbyHashes_filter (hashes : list SHA256) (outputs : UxArray) :
  FbyHashes hashes outputs = filter (fun u => UxHash u ∈ hashes) outputs.
Proof.
  unfold FbyHashes.
  rewrite (foldl_append_filter (fun u => UxHash u ∈ hashes)); [done|..].
  - intros acc u Hu. rewrite bool_decide_eq_true_2; [done|].
    by apply newSHA256Set_elem.
  - intros acc u Hu. rewrite bool_decide_eq_false_2; [done|].
    by rewrite newSHA256Set_elem.
Qed.

Lemma filter_none {A} (P : A → Prop) `{!∀ x, Decision (P x)} (l : list A) :
  (∀ x, x ∈ l → ¬ P x) → filter P l = [].
Proof.
  induction l as [|x l IH]; intros Hnone; [done|].
  rewrite filter_cons_False by (apply Hnone, list_elem_of_here).
  apply IH. intros y Hy. by apply Hnone, list_elem_of_further.
Qed.

(** X1. [SendsToAddresses] selects exactly the pooled transactions with
    an output owned by one of the addresses; with no address it selects
    nothing. *)
Theorem SendsToAddresses_spec (addresses : list Address)
    (tx : UnconfirmedTransaction) :
  (SendsToAddresses addresses tx = true ↔
   ∃ out, out ∈ txn_Out (ut_Transaction tx) ∧ out_Address out ∈ addresses) ∧
  SendsToAddresses [] tx = false.
Proof.
  assert (Hspec : ∀ addrs,
    SendsToAddresses addrs tx = true ↔
    ∃ out, out ∈ txn_Out (ut_Transaction tx) ∧ out_Address out ∈ addrs).
  { intros addrs. unfold SendsToAddresses. rewrite existsb_exists. split.
    - intros (out & Hin & Hex). apply existsb_exists in Hex as (a & Ha & Heq).
      apply bool_decide_eq_true in Heq. subst a.
      exists out. by rewrite !list_elem_of_In.
    - intros (out & Hin & Ha). exists out. rewrite <-list_elem_of_In.
      split; [done|]. apply existsb_exists. exists (out_Address out).
      rewrite <-list_elem_of_In. split; [done|]. by apply bool_decide_eq_true. }
  split; [apply Hspec|].
  destruct (SendsToAddresses [] tx) eqn:Hs; [|done].
  apply Hspec in Hs as (out & _ & Hin). by apply elem_of_nil in Hin.
Qed.

(** X2. [FbyAddresses] keeps exactly the outputs owned by one of the
    addresses, in the order they came in, and [FbyAddressesNotIncluded]
    exactly the others. *)
Theorem FbyAddresses_spec (addrs : list Address) (outputs : UxArray) :
  FbyAddresses addrs outputs `sublist_of` outputs ∧
  FbyAddressesNotIncluded addrs outputs `sublist_of` outputs ∧
  (∀ u, u ∈ FbyAddresses addrs outputs ↔
        u ∈ outputs ∧ ux_Address (ux_Body u) ∈ addrs) ∧
  (∀ u, u ∈ FbyAddressesNotIncluded addrs outputs ↔
        u ∈ outputs ∧ ux_Address (ux_Body u) ∉ addrs).
Proof.
  rewrite FbyAddresses_filter, FbyAddressesNotIncluded_filter.
  split; [apply sublist_filter|]. split; [apply sublist_filter|].
  split; intros u; rewrite list_elem_of_filter; tauto.
Qed.

(** X3. The two address filters split a set of outputs: together they
    hold every output once, and each removes all that the other
    keeps. *)
Theorem FbyAddresses_split (addrs : list Address) (outputs : UxArray) :
  FbyAddresses addrs outputs ++ FbyAddressesNotIncluded addrs outputs ≡ₚ outputs ∧
  (length (FbyAddresses addrs outputs)
   + length (FbyAddressesNotIncluded addrs outputs) = length outputs)%nat ∧
  FbyAddresses addrs (FbyAddressesNotIncluded addrs outputs) = [] ∧
  FbyAddressesNotIncluded addrs (FbyAddresses addrs outputs) = [].
Proof.
  rewrite !FbyAddresses_filter, !FbyAddressesNotIncluded_filter.
  pose proof (filter_app_complement
                (fun u => ux_Address (ux_Body u) ∈ addrs) outputs) as Hperm.
  split; [exact Hperm|]. split.
  - rewrite <-length_app. by rewrite Hperm.
  - split.
    + rewrite list_filter_filter. apply filter_none. intros u _. tauto.
    + rewrite list_filter_filter. apply filter_none. intros u _. tauto.
Qed.

(** X4. The filters of [GetUnspentOutputsSummary] work as a conjunction:
    running an address filter and a hash filter one after the other, in
    either order, keeps exactly the outputs that pass both, and running a
    filter twice changes nothing. *)
Theorem applyFilters_conjunction (addrs : list Address) (hashes : list SHA256)
    (outputs : UxArray) :
  applyFilters [FbyAddresses addrs; FbyHashes hashes] outputs
  = filter (fun u => ux_Address (ux_Body u) ∈ addrs ∧ UxHash u ∈ hashes) outputs ∧
  applyFilters [FbyHashes hashes; FbyAddresses addrs] outputs
  = applyFilters [FbyAddresses addrs; FbyHashes hashes] outputs ∧
  applyFilters [FbyAddresses addrs; FbyAddresses addrs] outputs
  = FbyAddresses addrs outputs ∧
  applyFilters [] outputs = outputs.
Proof.
  unfold applyFilters. cbn [foldl].
  rewrite !FbyAddresses_filter, !FbyHashes_filter, !list_filter_filter.
  split; [apply list_filter_iff; tauto|].
  split; [apply list_filter_iff; tauto|].
  split; [apply list_filter_iff; tauto|done].
Qed.

(** X5. [FbyHashes] keeps exactly the outputs whose hash is listed, in
    the order they came in; listing the hashes twice makes no difference,
    and with no hash listed nothing is kept. *)
Theorem FbyHashes_spec (hashes : list SHA256) (outputs : UxArray) :
  FbyHashes hashes outputs `sublist_of` outputs ∧
  (∀ u, u ∈ FbyHashes hashes outputs ↔ u ∈ outputs ∧ UxHash u ∈ hashes) ∧
  FbyHashes (hashes ++ hashes) outputs = FbyHashes hashes outputs ∧
  FbyHashes [] outputs = [].
Proof.
  rewrite !FbyHashes_filter.
  split; [apply sublist_filter|]. split; [|split].
  - intros u. rewrite list_elem_of_filter. tauto.
  - apply list_filter_iff. intros u. rewrite elem_of_app. tauto.
  - apply filter_none. intros u _ Hin. by apply elem_of_nil in Hin.
Qed.

End FilterFacts.

(** ** Outputs spent by the pool *)

Section SpendsFacts.
Context `{!Externals} {S : Type}.

Lemma spendsOf_snoc (addrs : list Address) (uxa : UxArray) (ux : UxOut) :
  spendsOf addrs (uxa ++ [ux])
  = if bool_decide (ux_Address (ux_Body ux) ∈ addrs)
    then appendAt (spendsOf addrs uxa) (ux_Address (ux_Body ux)) ux
    else spendsOf addrs uxa.
Proof. unfold spendsOf. by rewrite foldl_app. Qed.

(** The outputs grouped under an address are those it owns, in order, if
    the address was asked for. *)
Lemma spendsOf_lookup (addrs : list Address) (uxa : UxArray) (a : Address) :
  default [] (spendsOf addrs uxa !! a)
  = if decide (a ∈ addrs)
    then filter (fun ux => ux_Address (ux_Body ux) = a) uxa else [].
Proof.
  induction uxa as [|ux uxa IH] using rev_ind.
  - unfold spendsOf. cbn. rewrite lookup_empty. by destruct (decide _).
  - rewrite spendsOf_snoc, filter_app.
    destruct (bool_decide (ux_Address (ux_Body ux) ∈ addrs)) eqn:Hin.
    + apply bool_decide_eq_true in Hin. unfold appendAt.
      destruct (decide (ux_Address (ux_Body ux) = a)) as [Heq|Hne].
      * subst a. rewrite lookup_insert_eq. cbn [default]. rewrite IH.
        rewrite !decide_True by done. unfold id.
        by rewrite (filter_cons_True _ ux []) by done.
      * rewrite lookup_insert_ne by done. rewrite IH.
        rewrite (filter_cons_False _ ux []) by done.
        rewrite filter_nil, app_nil_r. done.
    + apply bool_decide_eq_false in Hin. rewrite IH.
      destruct (decide (a ∈ addrs)) as [Ha|Ha]; [|done].
      rewrite (filter_cons_False _ ux []) by (intros <-; done).
      by rewrite filter_nil, app_nil_r.
Qed.

(** No address is listed with an empty group. *)
Lemma spendsOf_nonempty (addrs : list Address) (uxa : UxArray) (a : Address) :
  spendsOf addrs uxa !! a ≠ Some [].
Proof.
  induction uxa as [|ux uxa IH] using rev_ind.
  - unfold spendsOf. cbn. by rewrite lookup_empty.
  - rewrite spendsOf_snoc.
    destruct (bool_decide (ux_Address (ux_Body ux) ∈ addrs)); [|done].
    unfold appendAt. destruct (decide (ux_Address (ux_Body ux) = a)) as [<-|Hne].
    + rewrite lookup_insert_eq. intros [= Heq].
      by apply app_eq_nil in Heq as [_ ?].
    + by rewrite lookup_insert_ne.
Qed.

(** X6. What [unconfirmedSpendsOfAddresses] returns is the outgoing
    outputs of the pool ([unconfirmedOutgoingOutputs]) grouped by owner:
    under each address asked for, exactly the outputs it owns, in the
    order of the pool's inputs; nothing under any other address, and no
    empty group. *)
Theorem unconfirmedSpendsOfAddresses_groups (vs : Visor S) (tx : S)
    (addrs : list Address) (outs : AddressUxOuts) :
  unconfirmedSpendsOfAddresses vs tx addrs = Ok outs →
  ∃ uxa,
    unconfirmedOutgoingOutputs vs tx = Ok uxa ∧
    ∀ a,
      default [] (outs !! a)
      = (if decide (a ∈ addrs)
         then filter (fun ux => ux_Address (ux_Body ux) = a) uxa else []) ∧
      outs !! a ≠ Some [].
Proof.
  unfold unconfirmedSpendsOfAddresses, unconfirmedOutgoingOutputs.
  destruct (AllRawTransactions _ tx) as [txns|]; [|done]. cbn.
  destruct (Unspent_GetArray _ tx _) as [uxa|]; [|done]. cbn.
  intros [= <-]. exists uxa. split; [done|]. intros a.
  split; [apply spendsOf_lookup|apply spendsOf_nonempty].
Qed.

End SpendsFacts.

(** ** The predicted coins of an address *)

Section PredictedFacts.
Context `{!Externals} {S : Type}.


Lemma totalCoins_Permutation (ua ub : UxArray) :
  ua ≡ₚ ub → totalCoins ua = totalCoins ub.
Proof.
  induction 1 as [|ux ua ub _ IH|ux uy ua|ua ub uc _ IH1 _ IH2].
  - done.
  - rewrite !totalCoins_cons. by rewrite IH.
  - rewrite !totalCoins_cons. lia.
  - by rewrite IH1.
Qed.







End PredictedFacts.

(** ** Blocks since a sequence number *)

Section BlocksSinceFacts.
Context `{!Externals} {S : Type}.

Lemma GetSignedBlocksSince_loop_Ok (vs : Visor S) (tx : S) (seq : uint64)
    (n : nat) (j : uint64) (acc blocks : list SignedBlock) :
  GetSignedBlocksSince_loop vs tx seq n j acc = Returns (Ok blocks) →
  ∃ new,
    blocks = acc ++ new ∧ length new = n ∧
    ∀ k b, new !! k = Some b →
      GetSignedBlockBySeq (blockchain vs) tx
        ((seq + 1 + (j + Z.of_nat k)) mod 2 ^ 64) = Ok (Some b).
Proof.
  revert j acc. induction n as [|n IH]; intros j acc; cbn [GetSignedBlocksSince_loop].
  - intros [= <-]. exists []. by rewrite app_nil_r.
  - destruct (GetSignedBlockBySeq _ tx _) as [[b|]|] eqn:Hget; [|done|done].
    intros Hrest. destruct (IH _ _ Hrest) as (new & -> & Hlen & Hnew).
    exists (b :: new). rewrite <-app_assoc. split; [done|].
    split; [cbn; by rewrite Hlen|].
    intros [|k] b' Hk; cbn in Hk.
    + injection Hk as <-. by rewrite Z.add_0_r.
    + rewrite <-(Hnew k b' Hk). do 2 f_equal. lia.
Qed.

Lemma GetSignedBlocksSince_loop_panics (vs : Visor S) (tx : S) (seq : uint64)
    (n : nat) (j : uint64) (acc : list SignedBlock) (k : nat) :
  (k < n)%nat →
  (∀ k', (k' < k)%nat →
         ∃ b, GetSignedBlockBySeq (blockchain vs) tx
                ((seq + 1 + (j + Z.of_nat k')) mod 2 ^ 64) = Ok (Some b)) →
  GetSignedBlockBySeq (blockchain vs) tx
    ((seq + 1 + (j + Z.of_nat k)) mod 2 ^ 64) = Ok None →
  GetSignedBlocksSince_loop vs tx seq n j acc
  = Panics "runtime error: invalid memory address or nil pointer dereference".
Proof.
  revert n j acc. induction k as [|k IH]; intros n j acc Hk Hbefore Hnone;
    (destruct n as [|n]; [lia|]); cbn [GetSignedBlocksSince_loop].
  - rewrite Z.add_0_r in Hnone. by rewrite Hnone.
  - destruct (Hbefore 0%nat) as [b Hb]; [lia|]. rewrite Z.add_0_r in Hb. rewrite Hb.
    apply IH; [lia| |].
    + intros k' Hk'. destruct (Hbefore (Datatypes.S k')) as [b' Hb']; [lia|].
      exists b'. rewrite <-Hb'. do 2 f_equal. lia.
    + rewrite <-Hnone. do 2 f_equal. lia.
Qed.

Lemma GetSignedBlocksSince_loop_panics_inv (vs : Visor S) (tx : S) (seq : uint64)
    (n : nat) (j : uint64) (acc : list SignedBlock) (msg : string) :
  GetSignedBlocksSince_loop vs tx seq n j acc = Panics msg →
  ∃ k, (k < n)%nat ∧
    (∀ k', (k' < k)%nat →
           ∃ b, GetSignedBlockBySeq (blockchain vs) tx
                  ((seq + 1 + (j + Z.of_nat k')) mod 2 ^ 64) = Ok (Some b)) ∧
    GetSignedBlockBySeq (blockchain vs) tx
      ((seq + 1 + (j + Z.of_nat k)) mod 2 ^ 64) = Ok None.
Proof.
  revert j acc. induction n as [|n IH]; intros j acc; cbn [GetSignedBlocksSince_loop];
    [done|].
  destruct (GetSignedBlockBySeq _ tx _) as [[b|]|] eqn:Hget; [| |done].
  - intros Hrest. destruct (IH _ _ Hrest) as (k & Hk & Hbefore & Hnone).
    exists (Datatypes.S k). split; [lia|]. split.
    + intros [|k'] Hk'.
      * exists b. by rewrite Z.add_0_r.
      * destruct (Hbefore k') as [b' Hb']; [lia|]. exists b'.
        rewrite <-Hb'. do 2 f_equal. lia.
    + rewrite <-Hnone. do 2 f_equal. lia.
  - intros _. exists 0%nat. split; [lia|]. split; [intros k' Hk'; lia|].
    by rewrite Z.add_0_r.
Qed.

(** X8. When [GetSignedBlocksSince] returns blocks, it returns as many as
    asked for or as many as the chain has above [seq], whichever is
    fewer; the [k]-th one is the block the chain holds at [seq + 1 + k],
    so all lie above [seq] and none above the head. *)
Theorem GetSignedBlocksSince_blocks (vs : Visor S) (seq ct : uint64) (db : S)
    (head : SignedBlock) (blocks : list SignedBlock) :
  Head (blockchain vs) db = Ok head →
  is_uint64 seq → is_uint64 ct → is_uint64 (bk_Seq (sb_Block head)) →
  GetSignedBlocksSince vs seq ct db = Returns (Ok blocks) →
  Z.of_nat (length blocks) = Z.min ct (Z.max 0 (bk_Seq (sb_Block head) - seq)) ∧
  ∀ k b, blocks !! k = Some b →
    GetSignedBlockBySeq (blockchain vs) db (seq + 1 + Z.of_nat k) = Ok (Some b) ∧
    seq + 1 + Z.of_nat k ≤ bk_Seq (sb_Block head).
Proof.
  unfold is_uint64, mathutil.MaxUint64. intros Hh Hseq Hct Hhead.
  unfold GetSignedBlocksSince. rewrite Hh. cbn zeta.
  set (headSeq := bk_Seq (sb_Block head)) in *.
  change (2 ^ 64) with 18446744073709551616 in *.
  assert (Havail : (if seq <? headSeq then (headSeq - seq) mod 18446744073709551616
                    else 0) = Z.max 0 (headSeq - seq)).
  { destruct (seq <? headSeq) eqn:Hlt.
    - apply Z.ltb_lt in Hlt. rewrite Z.mod_small; lia.
    - apply Z.ltb_ge in Hlt. lia. }
  rewrite Havail.
  assert (Hmin : (if Z.max 0 (headSeq - seq) <? ct then Z.max 0 (headSeq - seq)
                  else ct) = Z.min ct (Z.max 0 (headSeq - seq))).
  { destruct (_ <? ct) eqn:Hlt; [apply Z.ltb_lt in Hlt|apply Z.ltb_ge in Hlt]; lia. }
  rewrite Hmin.
  destruct (Z.min ct (Z.max 0 (headSeq - seq)) =? 0) eqn:Hz.
  - apply Z.eqb_eq in Hz. intros [= <-]. rewrite Hz. split; [done|]. intros k b Hk. done.
  - apply Z.eqb_neq in Hz. intros Hloop.
    apply GetSignedBlocksSince_loop_Ok in Hloop as (new & -> & Hlen & Hnew).
    cbn [app]. split; [rewrite Hlen; lia|].
    intros k b Hk. pose proof (lookup_lt_Some _ _ _ Hk) as Hlt.
    specialize (Hnew k b Hk). rewrite Z.add_0_l in Hnew.
    rewrite Z.mod_small in Hnew by lia. split; [done|lia].
Qed.

(** X9. [GetSignedBlocksSince] panics, on a nil block that is
    dereferenced, exactly when among the lookups it makes, above [seq],
    up to the head and at most [ct] of them, the first one that does
    not give a block reports the block as missing without an error.  A
    lookup that fails before that makes the call return the error
    instead. *)
Theorem GetSignedBlocksSince_missing_block (vs : Visor S) (seq ct : uint64)
    (db : S) (head : SignedBlock) :
  Head (blockchain vs) db = Ok head →
  is_uint64 seq → is_uint64 ct → is_uint64 (bk_Seq (sb_Block head)) →
  GetSignedBlocksSince vs seq ct db
  = Panics "runtime error: invalid memory address or nil pointer dereference" ↔
  ∃ k : nat,
    Z.of_nat k < ct ∧
    seq + 1 + Z.of_nat k ≤ bk_Seq (sb_Block head) ∧
    (∀ k' : nat, (k' < k)%nat →
       ∃ b, GetSignedBlockBySeq (blockchain vs) db (seq + 1 + Z.of_nat k')
            = Ok (Some b)) ∧
    GetSignedBlockBySeq (blockchain vs) db (seq + 1 + Z.of_nat k) = Ok None.
Proof.
  unfold is_uint64, mathutil.MaxUint64. intros Hh Hseq Hct Hhead.
  unfold GetSignedBlocksSince. rewrite Hh. cbn zeta.
  set (headSeq := bk_Seq (sb_Block head)) in *.
  change (2 ^ 64) with 18446744073709551616 in *.
  assert (Havail : (if seq <? headSeq then (headSeq - seq) mod 18446744073709551616
                    else 0) = Z.max 0 (headSeq - seq)).
  { destruct (seq <? headSeq) eqn:Hlt.
    - apply Z.ltb_lt in Hlt. rewrite Z.mod_small; lia.
    - apply Z.ltb_ge in Hlt. lia. }
  rewrite Havail.
  assert (Hmin : (if Z.max 0 (headSeq - seq) <? ct then Z.max 0 (headSeq - seq)
                  else ct) = Z.min ct (Z.max 0 (headSeq - seq))).
  { destruct (_ <? ct) eqn:Hlt; [apply Z.ltb_lt in Hlt|apply Z.ltb_ge in Hlt]; lia. }
  rewrite Hmin. set (n := Z.min ct (Z.max 0 (headSeq - seq))).
  assert (Hidx : ∀ k : nat, Z.of_nat k < n →
            (seq + 1 + (0 + Z.of_nat k)) mod 18446744073709551616
            = seq + 1 + Z.of_nat k).
  { intros k Hk. rewrite Z.add_0_l. apply Z.mod_small. lia. }
  destruct (n =? 0) eqn:Hz.
  - apply Z.eqb_eq in Hz. split; [done|]. intros (k & Hk & Hle & _). lia.
  - apply Z.eqb_neq in Hz. split.
    + intros Hp. apply GetSignedBlocksSince_loop_panics_inv in Hp
        as (k & Hk & Hbefore & Hnone).
      change (2 ^ 64) with 18446744073709551616 in *.
      exists k. split; [lia|]. split; [lia|]. split.
      * intros k' Hk'. destruct (Hbefore k' Hk') as [b Hb]. exists b.
        by rewrite Hidx in Hb by lia.
      * by rewrite Hidx in Hnone by lia.
    + intros (k & Hk & Hle & Hbefore & Hnone).
      apply (GetSignedBlocksSince_loop_panics _ _ _ _ _ _ k); [lia| |].
      * intros k' Hk'. destruct (Hbefore k' Hk') as [b Hb]. exists b.
        change (2 ^ 64) with 18446744073709551616. by rewrite Hidx by lia.
      * change (2 ^ 64) with 18446744073709551616. by rewrite Hidx by lia.
Qed.

End BlocksSinceFacts.

(** ** The total balance of a set of addresses *)

Section AddressBalancesFacts.
Context `{!Externals}.

Lemma totalHours_cons (ux : UxOut) (ua : UxArray) (t : Z) :
  totalHours (ux :: ua) t = valueOf (coin.UxOut_CoinHours ux t) + totalHours ua t.
Proof. reflexivity. Qed.

Lemma totalHours_nonneg (ua : UxArray) (t : Z) :
  Forall (fun ux => wf_UxOut ux = true) ua → 0 ≤ totalHours ua t.
Proof.
  induction 1 as [|ux ua Hux _ IH]; [done|]. rewrite totalHours_cons.
  destruct (coin.UxOut_CoinHours ux t) as [h|] eqn:Hh; cbn; [|lia].
  apply UxOut_CoinHours_range in Hh as []; [lia|done].
Qed.

Lemma totalHours_Permutation (ua ub : UxArray) (t : Z) :
  ua ≡ₚ ub → totalHours ua t = totalHours ub t.
Proof.
  induction 1 as [|ux ua ub _ IH|ux uy ua|ua ub uc _ IH1 _ IH2].
  - done.
  - rewrite !totalHours_cons. by rewrite IH.
  - rewrite !totalHours_cons. lia.
  - by rewrite IH1.
Qed.

(** The inner loop succeeds exactly when every output's hours can be
    computed and both running totals stay within 64 bits. *)
Lemma AddressBalances_uxs_spec (t c0 h0 : Z) (uxs : UxArray) (c h : Z) :
  is_uint64 c0 → is_uint64 h0 →
  Forall (fun ux => wf_UxOut ux = true) uxs →
  AddressBalances_uxs t c0 h0 uxs = Ok (c, h) ↔
  (∀ ux, ux ∈ uxs → ∃ v, coin.UxOut_CoinHours ux t = Ok v) ∧
  c = c0 + totalCoins uxs ∧ c ≤ mathutil.MaxUint64 ∧
  h = h0 + totalHours uxs t ∧ h ≤ mathutil.MaxUint64.
Proof.
  intros Hc0 Hh0 Hwf. revert c0 h0 Hc0 Hh0.
  induction Hwf as [|ux uxs Hux Hwf IH]; intros c0 h0 Hc0 Hh0.
  - cbn. unfold totalCoins, totalHours. cbn. destruct Hc0, Hh0. split.
    + intros [= <- <-]. split; [intros ux Hin; by apply elem_of_nil in Hin|lia].
    + intros (_ & -> & _ & -> & _). f_equal. f_equal; lia.
  - cbn [AddressBalances_uxs]. rewrite totalCoins_cons, totalHours_cons.
    pose proof (totalCoins_nonneg _ Hwf) as Hcn.
    pose proof (totalHours_nonneg _ t Hwf) as Hhn.
    destruct (wf_UxOut_fields _ Hux) as [Hco _].
    destruct (coin.UxOut_CoinHours ux t) as [hx|e] eqn:Hhx; cbn [mbind result_bind valueOf].
    2:{ split; [done|]. intros (Hall & _).
        destruct (Hall ux) as [v Hv]; [apply list_elem_of_here|]. congruence. }
    pose proof (UxOut_CoinHours_range _ _ _ Hux Hhx) as Hr.
    rewrite !AddUint64_spec by done.
    destruct (c0 + ux_Coins (ux_Body ux) <=? mathutil.MaxUint64) eqn:Hc;
      cbn [mbind result_bind];
      [apply Z.leb_le in Hc|apply Z.leb_gt in Hc; split; [done|lia]].
    destruct (h0 + hx <=? mathutil.MaxUint64) eqn:Hh;
      cbn [mbind result_bind];
      [apply Z.leb_le in Hh|apply Z.leb_gt in Hh; split; [done|lia]].
    rewrite IH by (destruct Hc0, Hh0, Hco, Hr; split; lia). split.
    + intros (Hall & -> & ? & -> & ?). split; [|lia].
      intros ux' Hin. apply elem_of_cons in Hin as [->|Hin]; [by exists hx|by apply Hall].
    + intros (Hall & -> & ? & -> & ?). split; [|lia].
      intros ux' Hin. apply Hall. by apply list_elem_of_further.
Qed.

Lemma AddressBalances_uxs_app (t c0 h0 : Z) (ua ub : UxArray) :
  AddressBalances_uxs t c0 h0 (ua ++ ub)
  = match AddressBalances_uxs t c0 h0 ua with
    | Ok (c, h) => AddressBalances_uxs t c h ub
    | Err e => Err e
    end.
Proof.
  revert c0 h0. induction ua as [|ux ua IH]; intros c0 h0; [done|].
  cbn [app AddressBalances_uxs].
  destruct (coin.UxOut_CoinHours ux t); [|done]. cbn [mbind result_bind].
  destruct (mathutil.AddUint64 c0 _); [|done]. cbn [mbind result_bind].
  destruct (mathutil.AddUint64 h0 _); [|done]. cbn [mbind result_bind].
  apply IH.
Qed.

Lemma AddressBalances_entries_concat (t c0 h0 : Z) (entries : list (Address * UxArray)) :
  AddressBalances_entries t c0 h0 entries
  = AddressBalances_uxs t c0 h0 (concat (snd <$> entries)).
Proof.
  revert c0 h0. induction entries as [|[a uxs] entries IH]; intros c0 h0; [done|].
  cbn [AddressBalances_entries fmap list_fmap concat snd].
  rewrite AddressBalances_uxs_app.
  destruct (AddressBalances_uxs t c0 h0 uxs) as [[c h]|]; [|done].
  cbn [mbind result_bind]. apply IH.
Qed.

(** X10. [AddressBalances] succeeds exactly when the hours of every
    output can be computed and the coins and the hours of all outputs add
    up within 64 bits; it then returns these exact totals.  In whatever
    order the map of addresses is walked, the call succeeds or fails
    alike and the totals of a call that succeeds are the same; which
    error a failing call returns is left to the order. *)
Theorem AddressBalances_exact (head : SignedBlock) (auxs : AddressUxOuts)
    (entries : list (Address * UxArray)) (coins hours : uint64) :
  entries ≡ₚ map_to_list auxs →
  Forall (fun ux => wf_UxOut ux = true) (concat (snd <$> map_to_list auxs)) →
  let all := concat (snd <$> map_to_list auxs) in
  let t := sb_Time head in
  (AddressBalances head auxs = Ok (coins, hours) ↔
   (∀ ux, ux ∈ all → ∃ v, coin.UxOut_CoinHours ux t = Ok v) ∧
   coins = totalCoins all ∧ coins ≤ mathutil.MaxUint64 ∧
   hours = totalHours all t ∧ hours ≤ mathutil.MaxUint64) ∧
  (AddressBalances_entries t 0 0 entries = Ok (coins, hours) ↔
   AddressBalances head auxs = Ok (coins, hours)) ∧
  (is_Err (AddressBalances_entries t 0 0 entries) ↔
   is_Err (AddressBalances head auxs)).
Proof.
  intros Hperm Hwf all t.
  assert (H0 : is_uint64 0) by (unfold is_uint64, mathutil.MaxUint64; lia).
  assert (Hall : concat (snd <$> entries) ≡ₚ all).
  { subst all. by rewrite Hperm. }
  assert (Hmain : ∀ c h, AddressBalances head auxs = Ok (c, h) ↔
    (∀ ux, ux ∈ all → ∃ v, coin.UxOut_CoinHours ux t = Ok v) ∧
    c = totalCoins all ∧ c ≤ mathutil.MaxUint64 ∧
    h = totalHours all t ∧ h ≤ mathutil.MaxUint64).
  { intros c h. unfold AddressBalances. rewrite AddressBalances_entries_concat.
    rewrite AddressBalances_uxs_spec by done. by rewrite !Z.add_0_l. }
  assert (Hsame : ∀ c h, AddressBalances_entries t 0 0 entries = Ok (c, h) ↔
                         AddressBalances head auxs = Ok (c, h)).
  { intros c h. rewrite Hmain, AddressBalances_entries_concat.
    rewrite AddressBalances_uxs_spec; [|done|done|by rewrite Hall].
    rewrite !Z.add_0_l.
    rewrite (totalCoins_Permutation _ _ Hall), (totalHours_Permutation _ _ _ Hall).
    split; intros (Hok & ?); (split; [|done]); intros ux Hux; apply Hok;
      [by rewrite Hall|by rewrite <-Hall]. }
  split; [apply Hmain|]. split; [apply Hsame|].
  unfold is_Err. split; intros [e He].
  - destruct (AddressBalances head auxs) as [[c h]|e'] eqn:Hm; [|by eexists].
    pose proof (proj2 (Hsame c h) eq_refl) as Hok. congruence.
  - destruct (AddressBalances_entries t 0 0 entries) as [[c h]|e'] eqn:Hm; [|by eexists].
    pose proof (proj1 (Hsame c h) eq_refl) as Hok. congruence.
Qed.

End AddressBalancesFacts.

(** ** Transactions and their inputs *)

Section TransactionFacts.
Context `{!Externals} `{!VisorExternals} {S : Type}.

(** X11. A transaction [getTransaction] finds is either the pool's, and
    then reported unconfirmed with the time it was received, or the
    history's, and then the chain has a head at or above
    the block that holds it, the block itself is in the chain and gives
    the time, and the confirmations are the head's sequence number minus
    the block's plus one, on 64 bits: at least one, unless the head sits
    at the last sequence number there is. *)
Theorem getTransaction_status (vs : VisorQ S) (tx : S) (txnHash : SHA256)
    (txn : visor_Transaction) :
  getTransaction vs tx txnHash = Ok (Some txn) →
  (∃ utxn,
     Get (vq_unconfirmed vs) tx txnHash = Ok (Some utxn) ∧
     txn = mkVisorTransaction (ut_Transaction utxn)
             (mkTransactionStatus false true 0 0)
             (nanoToUnix (ut_Received utxn))) ∨
  (∃ htxn headSeq b,
     Get (vq_unconfirmed vs) tx txnHash = Ok None ∧
     History_GetTransaction (vq_history vs) tx txnHash = Ok (Some htxn) ∧
     HeadSeq (blockchain (vq_visor vs)) tx = Ok (headSeq, true) ∧
     GetSignedBlockBySeq (blockchain (vq_visor vs)) tx (ht_BlockSeq htxn)
     = Ok (Some b) ∧
     ht_BlockSeq htxn ≤ headSeq ∧
     vt_Transaction txn = ht_Txn htxn ∧
     vt_Time txn = sb_Time b ∧
     ts_Confirmed (vt_Status txn) = true ∧
     ts_Unconfirmed (vt_Status txn) = false ∧
     ts_BlockSeq (vt_Status txn) = ht_BlockSeq htxn ∧
     ts_Height (vt_Status txn) = (headSeq - ht_BlockSeq htxn + 1) mod 2 ^ 64 ∧
     (0 ≤ ht_BlockSeq htxn → headSeq < mathutil.MaxUint64 →
      ts_Height (vt_Status txn) = headSeq - ht_BlockSeq htxn + 1 ∧
      1 ≤ ts_Height (vt_Status txn))).
Proof.
  unfold getTransaction. intros Hres.
  destruct (Get _ tx txnHash) as [[utxn|]|] eqn:Hget; cbn in Hres; [| |done].
  - left. exists utxn. split; [done|]. by injection Hres as <-.
  - right.
    destruct (History_GetTransaction _ tx txnHash) as [[htxn|]|] eqn:Hh;
      cbn in Hres; [|done|done].
    destruct (HeadSeq _ tx) as [[headSeq ok]|] eqn:Hs; cbn in Hres; [|done].
    destruct ok; cbn in Hres; [|done].
    destruct (GetSignedBlockBySeq _ tx _) as [[b|]|] eqn:Hb; cbn in Hres; [|done|done].
    destruct (headSeq <? ht_BlockSeq htxn) eqn:Hlt; [done|].
    apply Z.ltb_ge in Hlt. injection Hres as <-.
    exists htxn, headSeq, b. cbn.
    repeat (split; [done|]).
    unfold mathutil.MaxUint64. intros Hnn Hmax.
    change (2 ^ 64) with 18446744073709551616 in *.
    rewrite Z.mod_small by lia. lia.
Qed.

Lemma getTransactionInputs_fill_Ok (t : uint64) (uxOuts : list historydb_UxOut) :
  ∀ (i : nat) (ret ret' : list TransactionInput),
  getTransactionInputs_fill t uxOuts i ret = Returns (Ok ret') →
  length ret' = length ret ∧
  (uxOuts ≠ [] → (i + length uxOuts ≤ length ret)%nat) ∧
  (∀ k o, uxOuts !! k = Some o →
     ∃ r, NewTransactionInput (hu_Out o) t = Ok r ∧ ret' !! (i + k)%nat = Some r) ∧
  (∀ j, (j < i ∨ i + length uxOuts ≤ j)%nat → ret' !! j = ret !! j).
Proof.
  induction uxOuts as [|o rest IH]; intros i ret ret' Hres; cbn [getTransactionInputs_fill] in Hres.
  - injection Hres as <-. split; [done|]. split; [done|]. split; [|done].
    intros k o Hk. by rewrite lookup_nil in Hk.
  - destruct (NewTransactionInput (hu_Out o) t) as [r|] eqn:Hr; [|done].
    case_bool_decide as Hi; [|done].
    apply IH in Hres as (Hlen & Hbound & Hset & Hkeep).
    rewrite length_insert in Hlen, Hbound.
    split; [done|]. split; [|split].
    + intros _. cbn [length]. destruct rest; [cbn; lia|].
      specialize (Hbound ltac:(done)). lia.
    + intros [|k] o' Hk.
      * injection Hk as <-. exists r. split; [done|].
        rewrite Nat.add_0_r, Hkeep by lia. by rewrite list_lookup_insert_eq.
      * destruct (Hset k o' Hk) as (r' & Hr' & Hl). exists r'. split; [done|].
        by rewrite <-Nat.add_succ_comm.
    + intros j Hj. cbn [length] in Hj.
      rewrite Hkeep by lia. apply list_lookup_insert_ne. lia.
Qed.

Lemma getTransactionInputs_length (vs : VisorQ S) (tx : S) (t : uint64)
    (inputs : list SHA256) (ret : list TransactionInput) :
  getTransactionInputs vs tx t inputs = Returns (Ok ret) →
  inputs ≠ [] ∧ length ret = length inputs.
Proof.
  unfold getTransactionInputs. case_bool_decide as Hz; [done|].
  destruct (GetUxOuts _ tx inputs) as [uxOuts|]; [|done].
  intros Hres. apply getTransactionInputs_fill_Ok in Hres as (Hlen & _).
  rewrite length_replicate in Hlen. split; [|done]. by intros ->.
Qed.

(** X13. The list [getTransactionInputs] returns is as long as the list
    of inputs asked for, which is not empty.  The history returned no
    more outputs than were asked for; the first entries are made of
    these outputs, one by one and in order, with the hours computed at
    the given time, and any entry beyond them is the zero value. *)
Theorem getTransactionInputs_result (vs : VisorQ S) (tx : S) (t : uint64)
    (inputs : list SHA256) (ret : list TransactionInput) :
  getTransactionInputs vs tx t inputs = Returns (Ok ret) →
  inputs ≠ [] ∧ length ret = length inputs ∧
  ∃ uxOuts,
    GetUxOuts (vq_history vs) tx inputs = Ok uxOuts ∧
    (length uxOuts ≤ length inputs)%nat ∧
    (∀ i o, uxOuts !! i = Some o →
       ∃ r, NewTransactionInput (hu_Out o) t = Ok r ∧ ret !! i = Some r) ∧
    (∀ i, (length uxOuts ≤ i < length inputs)%nat →
       ret !! i = Some TransactionInput_zero).
Proof.
  intros Hres. destruct (getTransactionInputs_length _ _ _ _ _ Hres) as (Hne & Hlen).
  split; [done|]. split; [done|].
  unfold getTransactionInputs in Hres. case_bool_decide as Hz; [done|].
  destruct (GetUxOuts _ tx inputs) as [uxOuts|]; [|done].
  exists uxOuts. split; [done|].
  apply getTransactionInputs_fill_Ok in Hres as (_ & Hbound & Hset & Hkeep).
  rewrite length_replicate in Hbound.
  split; [|split].
  - destruct uxOuts; [cbn; lia|]. specialize (Hbound ltac:(done)). lia.
  - intros i o Hi. apply (Hset i o Hi).
  - intros i Hi. rewrite Hkeep by lia. apply lookup_replicate_2. lia.
Qed.

(** X12. When [GetTransactionWithInputs] returns a transaction, it is the
    one [getTransaction] finds.  A transaction confirmed in the block of
    sequence number 0 comes without inputs, and the history is not asked
    for any; any other comes with as many inputs as it spends outputs, at
    least one, computed at the time of the block before its own when it
    is confirmed and at the time of the chain when it is not. *)
Theorem GetTransactionWithInputs_inputs (vs : VisorQ S) (txnHash : SHA256)
    (db : S) (txn : visor_Transaction) (inputs : list TransactionInput) :
  GetTransactionWithInputs vs txnHash db = Returns (Ok (Some txn, inputs)) →
  getTransaction vs db txnHash = Ok (Some txn) ∧
  if ts_Confirmed (vt_Status txn) && (ts_BlockSeq (vt_Status txn) =? 0)
  then inputs = []
  else
    (0 < length inputs)%nat ∧
    length inputs = length (txn_In (vt_Transaction txn)) ∧
    ∃ feeCalcTime,
      getTransactionInputs vs db feeCalcTime (txn_In (vt_Transaction txn))
      = Returns (Ok inputs) ∧
      if ts_Confirmed (vt_Status txn)
      then ∃ prevBlock,
             GetSignedBlockBySeq (blockchain (vq_visor vs)) db
               ((ts_BlockSeq (vt_Status txn) - 1) mod 2 ^ 64) = Ok (Some prevBlock) ∧
             feeCalcTime = sb_Time prevBlock
      else Blockchain_Time (vq_blockchain vs) db = Ok feeCalcTime.
Proof.
  unfold GetTransactionWithInputs. intros Hres.
  destruct (getTransaction vs db txnHash) as [[txn'|]|] eqn:Hget; [|done|done].
  assert (Hfee : ∀ ft, getFeeCalcTimeForTransaction vs db txn' = Ok ft →
            match getFeeCalcTimeForTransaction vs db txn' with
            | Ok None => Returns (Ok (Some txn', []))
            | Ok (Some feeCalcTime) =>
                match getTransactionInputs vs db feeCalcTime
                        (txn_In (vt_Transaction txn')) with
                | Panics msg => Panics msg
                | Returns (Err err) => Returns (Err err)
                | Returns (Ok inputs) => Returns (Ok (Some txn', inputs))
                end
            | Err err => Returns (Err err)
            end = Returns (Ok (Some txn, inputs)) →
            txn' = txn ∧
            match ft with
            | None => inputs = []
            | Some feeCalcTime =>
                getTransactionInputs vs db feeCalcTime (txn_In (vt_Transaction txn))
                = Returns (Ok inputs)
            end).
  { intros ft Hft. rewrite Hft. destruct ft as [feeCalcTime|].
    - destruct (getTransactionInputs _ _ _ _) as [[i|]|] eqn:Hi; [|done|done].
      intros [= <- <-]. done.
    - by intros [= <- <-]. }
  destruct (getFeeCalcTimeForTransaction vs db txn') as [ft|] eqn:Hft; [|done].
  destruct (Hfee ft eq_refl Hres) as (-> & Hin). clear Hfee Hres. split; [done|].
  unfold getFeeCalcTimeForTransaction in Hft.
  rewrite (andb_comm (ts_Confirmed _)).
  destruct (ts_BlockSeq (vt_Status txn) =? 0) eqn:Hz;
    destruct (ts_Confirmed (vt_Status txn)) eqn:Hc; cbn [andb] in *.
  - by injection Hft as <-.
  - destruct (Blockchain_Time _ db) as [feeCalcTime|] eqn:Ht; [|done].
    cbn in Hft. injection Hft as <-.
    destruct (getTransactionInputs_length _ _ _ _ _ Hin) as (Hne & Hlen).
    split; [|split; [done|]].
    { rewrite Hlen. destruct (txn_In _); [done|cbn; lia]. }
    by exists feeCalcTime.
  - destruct (GetSignedBlockBySeq _ db _) as [[prevBlock|]|] eqn:Hb;
      cbn in Hft; [|done|done].
    injection Hft as <-.
    destruct (getTransactionInputs_length _ _ _ _ _ Hin) as (Hne & Hlen).
    split; [|split; [done|]].
    { rewrite Hlen. destruct (txn_In _); [done|cbn; lia]. }
    exists (sb_Time prevBlock). split; [done|]. by exists prevBlock.
  - destruct (Blockchain_Time _ db) as [feeCalcTime|] eqn:Ht; [|done].
    cbn in Hft. injection Hft as <-.
    destruct (getTransactionInputs_length _ _ _ _ _ Hin) as (Hne & Hlen).
    split; [|split; [done|]].
    { rewrite Hlen. destruct (txn_In _); [done|cbn; lia]. }
    by exists feeCalcTime.
Qed.

End TransactionFacts.

(** ** The inputs of blocks and of pooled transactions *)

Section BlockInputsFacts.
Context `{!Externals} `{!VisorExternals} {S : Type}.

Lemma getBlockInputs_loop_Ok (vs : VisorQ S) (tx : S) (prevTime : uint64)
    (txns : list Transaction) :
  ∀ acc inputs,
  getBlockInputs_loop vs tx prevTime txns acc = Returns (Ok inputs) →
  ∃ new,
    inputs = acc ++ new ∧
    Forall2 (fun i txn =>
               getTransactionInputs vs tx prevTime (txn_In txn) = Returns (Ok i))
            new txns.
Proof.
  induction txns as [|txn rest IH]; intros acc inputs Hres;
    cbn [getBlockInputs_loop] in Hres.
  - injection Hres as <-. exists []. by rewrite app_nil_r.
  - destruct (getTransactionInputs vs tx prevTime (txn_In txn)) as [[i|]|] eqn:Hi;
      [|done|done].
    apply IH in Hres as (new & -> & Hall).
    exists (i :: new). rewrite <-app_assoc. split; [done|]. by constructor.
Qed.

Lemma getBlockInputs_Ok (vs : VisorQ S) (tx : S) (b : SignedBlock)
    (inputs : list (list TransactionInput)) :
  getBlockInputs vs tx (Some b) = Returns (Ok inputs) →
  Forall2 (fun i txn => length i = length (txn_In txn))
          inputs (bk_Transactions (sb_Block b)) ∧
  (bk_Seq (sb_Block b) = 0 → inputs = [[]]) ∧
  (bk_Seq (sb_Block b) ≠ 0 →
   Forall (fun txn => txn_In txn ≠ []) (bk_Transactions (sb_Block b)) ∧
   ∃ prevBlock,
     GetSignedBlockBySeq (blockchain (vq_visor vs)) tx
       ((bk_Seq (sb_Block b) - 1) mod 2 ^ 64) = Ok (Some prevBlock) ∧
     Forall2 (fun i txn =>
                getTransactionInputs vs tx (sb_Time prevBlock) (txn_In txn)
                = Returns (Ok i))
             inputs (bk_Transactions (sb_Block b))).
Proof.
  unfold getBlockInputs. cbn zeta.
  destruct (bk_Seq (sb_Block b) =? 0) eqn:Hz.
  - apply Z.eqb_eq in Hz.
    case_bool_decide as Hlen; [done|]. case_bool_decide as Hin; [done|].
    intros [= <-].
    destruct (bk_Transactions (sb_Block b)) as [|txn [|]] eqn:Htxns; [done| |done].
    cbn in Hin. split; [|split; [done|by intros []]].
    constructor; [|constructor]. cbn. destruct (length (txn_In txn)); [done|].
    by destruct Hin.
  - apply Z.eqb_neq in Hz.
    destruct (GetSignedBlockBySeq _ tx _) as [[prevBlock|]|] eqn:Hb; [|done|done].
    intros Hres. apply getBlockInputs_loop_Ok in Hres as (new & -> & Hall).
    cbn [app]. split; [|split; [done|intros _; split]].
    + eapply Forall2_impl; [exact Hall|]. cbn. intros i txn Hi.
      by apply getTransactionInputs_length in Hi as (_ & ?).
    + clear Hb. induction Hall as [|i txn new txns Hi _ IH]; constructor; [|done].
      by apply getTransactionInputs_length in Hi as (? & _).
    + by exists prevBlock.
Qed.

(** X15. The inputs [getBlockInputs] returns for a block come one list
    per transaction of the block, each as long as the transaction has
    inputs.  For the block of sequence number 0 that is one empty list;
    for any other block every transaction has at least one input, the
    block before it is in the chain, and each list is what
    [getTransactionInputs] gives at that block's time. *)
Theorem getBlockInputs_shape (vs : VisorQ S) (tx : S) (b : SignedBlock)
    (inputs : list (list TransactionInput)) :
  getBlockInputs vs tx (Some b) = Returns (Ok inputs) →
  Forall2 (fun i txn => length i = length (txn_In txn))
          inputs (bk_Transactions (sb_Block b)) ∧
  (bk_Seq (sb_Block b) = 0 → inputs = [[]]) ∧
  (bk_Seq (sb_Block b) ≠ 0 →
   Forall (fun txn => txn_In txn ≠ []) (bk_Transactions (sb_Block b)) ∧
   ∃ prevBlock,
     GetSignedBlockBySeq (blockchain (vq_visor vs)) tx
       ((bk_Seq (sb_Block b) - 1) mod 2 ^ 64) = Ok (Some prevBlock) ∧
     Forall2 (fun i txn =>
                getTransactionInputs vs tx (sb_Time prevBlock) (txn_In txn)
                = Returns (Ok i))
             inputs (bk_Transactions (sb_Block b))).
Proof. apply getBlockInputs_Ok. Qed.

Lemma getBlocksVerbose_loop_Ok (vs : VisorQ S) (tx : S) (blocks : list SignedBlock) :
  ∀ inputs,
  getBlocksVerbose_loop vs tx blocks = Returns (Ok inputs) →
  Forall2 (fun b i => getBlockInputs vs tx (Some b) = Returns (Ok i)) blocks inputs.
Proof.
  induction blocks as [|b rest IH]; intros inputs Hres;
    cbn [getBlocksVerbose_loop] in Hres.
  - injection Hres as <-. constructor.
  - destruct (getBlockInputs vs tx (Some b)) as [[i|]|] eqn:Hi; [|done|done].
    destruct (getBlocksVerbose_loop vs tx rest) as [[ins|]|]; [|done|done].
    injection Hres as <-. constructor; [done|by apply IH].
Qed.

(** X16. What [getBlocksVerbose] returns are the blocks its source of
    blocks gave, in their order, with one entry of inputs per block; the
    entry of a block is what [getBlockInputs] returns for it, so it holds
    one list per transaction of the block. *)
Theorem getBlocksVerbose_shape (vs : VisorQ S) (tx : S)
    (getBlocks : S → result (list SignedBlock))
    (blocks : list SignedBlock) (inputs : list (list (list TransactionInput))) :
  getBlocksVerbose vs tx getBlocks = Returns (Ok (blocks, inputs)) →
  getBlocks tx = Ok blocks ∧
  length inputs = length blocks ∧
  ∀ k b, blocks !! k = Some b →
    ∃ i, inputs !! k = Some i ∧
         getBlockInputs vs tx (Some b) = Returns (Ok i) ∧
         length i = length (bk_Transactions (sb_Block b)).
Proof.
  unfold getBlocksVerbose.
  destruct (getBlocks tx) as [bs|]; [|done].
  case_bool_decide as Hz.
  - intros [= <- <-]. destruct bs; [|done]. split; [done|]. split; [done|].
    intros k b Hk. by rewrite lookup_nil in Hk.
  - destruct (getBlocksVerbose_loop vs tx bs) as [[ins|]|] eqn:Hl; [|done|done].
    intros [= <- <-]. apply getBlocksVerbose_loop_Ok in Hl.
    split; [done|]. split; [symmetry; by eapply Forall2_length|].
    intros k b Hk.
    destruct (Forall2_lookup_l _ _ _ _ _ Hl Hk) as (i & Hi & Hb).
    exists i. split; [done|]. split; [done|].
    apply getBlockInputs_Ok in Hb as (Hlen & _). by eapply Forall2_length.
Qed.

Lemma getTransactionInputsForUnconfirmedTxns_loop_Ok (vs : VisorQ S) (tx : S)
    (headTime : uint64) (txns : list UnconfirmedTransaction) :
  ∀ inputs,
  getTransactionInputsForUnconfirmedTxns_loop vs tx headTime txns
  = Returns (Ok inputs) →
  Forall2 (fun i txn =>
             if decide (txn_In (ut_Transaction txn) = []) then i = []
             else getTransactionInputs vs tx headTime (txn_In (ut_Transaction txn))
                  = Returns (Ok i))
          inputs txns.
Proof.
  induction txns as [|txn rest IH]; intros inputs Hres;
    cbn [getTransactionInputsForUnconfirmedTxns_loop] in Hres.
  - injection Hres as <-. constructor.
  - case_bool_decide as Hz.
    + destruct (getTransactionInputsForUnconfirmedTxns_loop vs tx headTime rest)
        as [[ins|]|]; [|done|done].
      injection Hres as <-. constructor; [|by apply IH].
      rewrite decide_True; [done|]. by apply length_zero_iff_nil.
    + destruct (getTransactionInputs vs tx headTime _) as [[i|]|] eqn:Hi; [|done|done].
      destruct (getTransactionInputsForUnconfirmedTxns_loop vs tx headTime rest)
        as [[ins|]|]; [|done|done].
      injection Hres as <-. constructor; [|by apply IH].
      rewrite decide_False; [done|]. intros Hnil. by rewrite Hnil in Hz.
Qed.

(** X17. [getTransactionInputsForUnconfirmedTxns] returns one list of
    inputs per transaction, each as long as the transaction has inputs.
    A transaction without inputs is passed over and keeps an empty list,
    where [getBlockInputs] would fail; the others get what
    [getTransactionInputs] gives at the time of the chain. *)
Theorem getTransactionInputsForUnconfirmedTxns_shape (vs : VisorQ S) (tx : S)
    (txns : list UnconfirmedTransaction)
    (inputs : list (list TransactionInput)) :
  getTransactionInputsForUnconfirmedTxns vs tx txns = Returns (Ok inputs) →
  Forall2 (fun i txn => length i = length (txn_In (ut_Transaction txn)))
          inputs txns ∧
  (txns ≠ [] →
   ∃ headTime,
     Blockchain_Time (vq_blockchain vs) tx = Ok headTime ∧
     Forall2 (fun i txn =>
                if decide (txn_In (ut_Transaction txn) = []) then i = []
                else getTransactionInputs vs tx headTime
                       (txn_In (ut_Transaction txn)) = Returns (Ok i))
             inputs txns).
Proof.
  unfold getTransactionInputsForUnconfirmedTxns.
  case_bool_decide as Hz.
  - intros [= <-]. destruct txns; [|done]. split; [constructor|done].
  - destruct (Blockchain_Time _ tx) as [headTime|] eqn:Ht; [|done].
    intros Hres. apply getTransactionInputsForUnconfirmedTxns_loop_Ok in Hres.
    split; [|intros _; by exists headTime].
    eapply Forall2_impl; [exact Hres|]. cbn. intros i txn Hi.
    destruct (decide _) as [Hnil|Hnil]; [by rewrite Hi, Hnil|].
    by apply getTransactionInputs_length in Hi as (_ & ?).
Qed.

End BlockInputsFacts.

(** ** Verifying a transaction with its inputs *)

Section VerificationFacts.
Context `{!Externals} `{!VisorExternals} {S : Type}.

Lemma VerifyTxnVerbose_Aborts (vs : VisorQ S) (txn : Transaction)
    (signed : TxnSignedFlag) (db : S) (msg : string) :
  VerifyTxnVerbose vs txn signed db = Aborts msg ↔
  VerifyTxnVerbose_view vs txn signed db = Aborts msg.
Proof.
  unfold VerifyTxnVerbose.
  destruct (VerifyTxnVerbose_view vs txn signed db)
    as [[[[uxa c] t] verr]|msg'].
  2:{ split; by intros [= ->]. }
  destruct (negb _ && negb _); [|by split].
  by destruct (NewTransactionInputs uxa t); split.
Qed.

(** X18. [VerifyTxnVerbose] panics exactly when the inputs of the
    transaction are no longer all unspent, the history still knows
    outputs for them, and the history does not know the transaction
    itself: the block sequence number of the missing record is read.  So
    it is when somebody else's confirmed transaction has spent the
    inputs. *)
Theorem VerifyTxnVerbose_unrecorded_panics (vs : VisorQ S) (txn : Transaction)
    (signed : TxnSignedFlag) (db : S) :
  (∃ msg, VerifyTxnVerbose vs txn signed db = Aborts msg) ↔
  ∃ head e uxID outs,
    Head (blockchain (vq_visor vs)) db = Ok head ∧
    Unspent_GetArray (blockchain (vq_visor vs)) db (txn_In txn) = Err e ∧
    asErrUnspentNotExist e = Some uxID ∧
    GetUxOuts (vq_history vs) db (txn_In txn) = Ok outs ∧ outs ≠ [] ∧
    History_GetTransaction (vq_history vs) db (TxnHash txn) = Ok None.
Proof.
  split.
  - intros [msg Hres]. apply VerifyTxnVerbose_Aborts in Hres.
    unfold VerifyTxnVerbose_view in Hres.
    destruct (Head _ db) as [head|] eqn:Hh; [|done].
    destruct (Unspent_GetArray _ db _) as [uxa|e] eqn:Ha; [done|].
    destruct (asErrUnspentNotExist e) as [uxID|] eqn:He; [|done].
    destruct (GetUxOuts _ db _) as [outs|] eqn:Ho; [|done].
    case_bool_decide as Hz; [done|]. cbn zeta in Hres.
    destruct (History_GetTransaction _ db _) as [[htxn|]|] eqn:Ht; [| |done].
    + destruct (0 <? ht_BlockSeq htxn); [|done].
      by destruct (GetSignedBlockBySeq _ db _) as [[?|]|].
    + exists head, e, uxID, outs. repeat (split; [done|]). split; [|done].
      by intros ->.
  - intros (head & e & uxID & outs & Hh & Ha & He & Ho & Hne & Ht).
    exists "runtime error: invalid memory address or nil pointer dereference".
    apply VerifyTxnVerbose_Aborts. unfold VerifyTxnVerbose_view.
    rewrite Hh, Ha, He, Ho. rewrite bool_decide_false; [|by destruct outs].
    cbn zeta. by rewrite Ht.
Qed.

(** X19. When [VerifyTxnVerbose] reports a transaction as not confirmed
    and without an error, the inputs of the transaction are all unspent
    and the transaction passes the user, the soft and the hard
    constraints against them, at the time and the header of the head
    block.  The inputs returned are made of these unspent outputs at the
    head's time; there are none when that time is 0. *)
Theorem VerifyTxnVerbose_sound (vs : VisorQ S) (txn : Transaction)
    (signed : TxnSignedFlag) (db : S) (inputs : list TransactionInput) :
  VerifyTxnVerbose vs txn signed db = Completes (inputs, false, None) →
  ∃ head uxa,
    Head (blockchain (vq_visor vs)) db = Ok head ∧
    Unspent_GetArray (blockchain (vq_visor vs)) db (txn_In txn) = Ok uxa ∧
    VerifySingleTxnUserConstraints txn = None ∧
    VerifySingleTxnSoftConstraints txn (sb_Time head) uxa
      (cfg_Distribution (config (vq_visor vs))) UserVerifyTxn = None ∧
    VerifySingleTxnHardConstraints txn (sb_Head head) uxa signed = None ∧
    (if decide (uxa = [] ∨ sb_Time head = 0) then inputs = []
     else NewTransactionInputs uxa (sb_Time head) = Ok inputs).
Proof.
  unfold VerifyTxnVerbose, VerifyTxnVerbose_view.
  destruct (Head _ db) as [head|] eqn:Hh; [|done].
  destruct (Unspent_GetArray _ db _) as [uxa|e] eqn:Ha.
  - cbn zeta. intros Hres. exists head, uxa. split; [done|]. split; [done|].
    assert (Hv : match VerifySingleTxnUserConstraints txn with
                 | Some err => Some err
                 | None =>
                     match VerifySingleTxnSoftConstraints txn (sb_Time head) uxa
                             (cfg_Distribution (config (vq_visor vs))) UserVerifyTxn with
                     | Some err => Some err
                     | None => VerifySingleTxnHardConstraints txn (sb_Head head) uxa signed
                     end
                 end = None ∧
                 (if decide (uxa = [] ∨ sb_Time head = 0) then inputs = []
                  else NewTransactionInputs uxa (sb_Time head) = Ok inputs)).
    { destruct (decide (uxa = [] ∨ sb_Time head = 0)) as [Hd|Hd].
      - assert (negb (bool_decide (length uxa = 0%nat)) && negb (sb_Time head =? 0)
                = false) as Hb.
        { destruct Hd as [-> | ->]; [done|]. by rewrite andb_comm. }
        rewrite Hb in Hres. by injection Hres as <- <-.
      - assert (negb (bool_decide (length uxa = 0%nat)) && negb (sb_Time head =? 0)
                = true) as Hb.
        { rewrite bool_decide_false, (proj2 (Z.eqb_neq _ _)); [done|tauto|].
          intros Hl. apply Hd. left. by apply length_zero_iff_nil. }
        rewrite Hb in Hres.
        destruct (NewTransactionInputs uxa (sb_Time head)); [|done].
        by injection Hres as -> ->. }
    destruct Hv as (Hv & Hin).
    destruct (VerifySingleTxnUserConstraints txn); [done|]. split; [done|].
    destruct (VerifySingleTxnSoftConstraints _ _ _ _ _); [done|]. done.
  - destruct (asErrUnspentNotExist e) as [uxID|]; [|done].
    destruct (GetUxOuts _ db _) as [outs|]; [|done].
    case_bool_decide; [done|]. cbn zeta.
    destruct (History_GetTransaction _ db _) as [[htxn|]|]; [| done |].
    + destruct (0 <? ht_BlockSeq htxn).
      * destruct (GetSignedBlockBySeq _ db _) as [[prev|]|]; cbn.
        -- destruct (_ && _); [|done]. by destruct (NewTransactionInputs _ _).
        -- by rewrite andb_false_r.
        -- by rewrite andb_false_r.
      * cbn. by rewrite andb_false_r.
    + cbn. rewrite andb_false_r. done.
Qed.

(** X20. When [VerifyTxnVerbose] reports a transaction as confirmed, the
    history holds the transaction, and outputs for its inputs, which the
    unspent index no longer has.  The transaction is not checked against
    any constraint: the report does not depend on whether signatures
    were asked for.  A transaction recorded in the block of sequence
    number 0 comes without inputs and without an error. *)
Theorem VerifyTxnVerbose_confirmed (vs : VisorQ S) (txn : Transaction)
    (signed : TxnSignedFlag) (db : S) (inputs : list TransactionInput)
    (verifyErr : option error) :
  VerifyTxnVerbose vs txn signed db = Completes (inputs, true, verifyErr) →
  (∃ e uxID outs htxn,
     Unspent_GetArray (blockchain (vq_visor vs)) db (txn_In txn) = Err e ∧
     asErrUnspentNotExist e = Some uxID ∧
     GetUxOuts (vq_history vs) db (txn_In txn) = Ok outs ∧ outs ≠ [] ∧
     History_GetTransaction (vq_history vs) db (TxnHash txn) = Ok (Some htxn) ∧
     (ht_BlockSeq htxn ≤ 0 → inputs = [] ∧ verifyErr = None)) ∧
  ∀ signed', VerifyTxnVerbose vs txn signed' db = Completes (inputs, true, verifyErr).
Proof.
  intros Hres. split.
  - revert Hres. unfold VerifyTxnVerbose, VerifyTxnVerbose_view.
    destruct (Head _ db) as [head|] eqn:Hh; [|done].
    destruct (Unspent_GetArray _ db _) as [uxa|e] eqn:Ha.
    { cbn zeta. destruct (_ && _); [|done]. by destruct (NewTransactionInputs _ _). }
    destruct (asErrUnspentNotExist e) as [uxID|] eqn:He; [|done].
    destruct (GetUxOuts _ db _) as [outs|] eqn:Ho; [|done].
    case_bool_decide as Hz; [done|]. cbn zeta.
    destruct (History_GetTransaction _ db _) as [[htxn|]|] eqn:Ht; [|done|].
    + intros Hres. exists e, uxID, outs, htxn. repeat (split; [done|]).
      split; [by intros ->|]. split; [done|]. intros Hle.
      rewrite (proj2 (Z.ltb_ge 0 (ht_BlockSeq htxn))) in Hres by done.
      cbn in Hres. rewrite andb_false_r in Hres. by injection Hres as <- <-.
    + cbn. rewrite andb_false_r. done.
  - intros signed'. rewrite <-Hres. unfold VerifyTxnVerbose.
    assert (Hview : ∀ uxa t verr,
              VerifyTxnVerbose_view vs txn signed db = Completes (uxa, true, t, verr) →
              VerifyTxnVerbose_view vs txn signed' db = Completes (uxa, true, t, verr)).
    { unfold VerifyTxnVerbose_view. intros uxa t verr.
      destruct (Head _ db) as [head|]; [|done].
      by destruct (Unspent_GetArray _ db _) as [uxa'|e]. }
    unfold VerifyTxnVerbose in Hres.
    destruct (VerifyTxnVerbose_view vs txn signed db)
      as [[[[uxa c] t] verr]|msg] eqn:Hv; [|done].
    assert (c = true) as ->.
    { destruct (_ && _); [|by injection Hres].
      destruct (NewTransactionInputs uxa t); by injection Hres. }
    by rewrite (Hview _ _ _ eq_refl).
Qed.

(** X21. When the inputs of a transaction are all unspent and the head
    block's time is not 0, [VerifyTxnVerbose] returns the inputs made of
    these outputs whether or not the transaction passes: the error, if
    any, comes beside them, and there is none exactly when the user, the
    soft and the hard constraints all hold. *)
Theorem VerifyTxnVerbose_inputs_on_failure (vs : VisorQ S) (txn : Transaction)
    (signed : TxnSignedFlag) (db : S) (head : SignedBlock) (uxa : UxArray)
    (inputs : list TransactionInput) :
  Head (blockchain (vq_visor vs)) db = Ok head →
  Unspent_GetArray (blockchain (vq_visor vs)) db (txn_In txn) = Ok uxa →
  uxa ≠ [] → sb_Time head ≠ 0 →
  NewTransactionInputs uxa (sb_Time head) = Ok inputs →
  ∃ verifyErr,
    VerifyTxnVerbose vs txn signed db = Completes (inputs, false, verifyErr) ∧
    (verifyErr = None ↔
     VerifySingleTxnUserConstraints txn = None ∧
     VerifySingleTxnSoftConstraints txn (sb_Time head) uxa
       (cfg_Distribution (config (vq_visor vs))) UserVerifyTxn = None ∧
     VerifySingleTxnHardConstraints txn (sb_Head head) uxa signed = None).
Proof.
  intros Hh Ha Hne Ht Hin. unfold VerifyTxnVerbose, VerifyTxnVerbose_view.
  rewrite Hh, Ha. cbn zeta.
  rewrite bool_decide_false.
  2:{ intros Hl. by apply length_zero_iff_nil in Hl. }
  rewrite (proj2 (Z.eqb_neq _ _) Ht). cbn [negb andb]. rewrite Hin.
  eexists. split; [reflexivity|].
  destruct (VerifySingleTxnUserConstraints txn); [split; [done|by intros (? & _)]|].
  destruct (VerifySingleTxnSoftConstraints _ _ _ _ _);
    [split; [done|by intros (_ & ? & _)]|].
  destruct (VerifySingleTxnHardConstraints _ _ _ _); split; try done.
  by intros (_ & _ & ?).
Qed.

End VerificationFacts.

(** ** The transactions of a created block *)

Section BlockContentsFacts.
Context `{!Externals} {S : Type}.

Lemma filterTxns_kept (vs : Visor S) (tx : S) (txns : list Transaction) :
  ∀ acc filtered,
  filterTxns vs tx txns acc = Ok filtered →
  ∃ kept,
    filtered = acc ++ kept ∧
    ∀ txn, txn ∈ kept →
      txn ∈ txns ∧
      ∃ v, VerifySingleTxnSoftHardConstraints (blockchain vs) tx txn
             (cfg_Distribution (config vs)) (CreateBlockVerifyTxn (config vs))
             TxnSigned = Ok v.
Proof.
  induction txns as [|txn rest IH]; intros acc filtered Hres; cbn [filterTxns] in Hres.
  - injection Hres as <-. exists []. rewrite app_nil_r. split; [done|].
    intros txn Hin. by apply elem_of_nil in Hin.
  - destruct (VerifySingleTxnSoftHardConstraints _ tx txn _ _ _) as [v|e] eqn:Hv.
    + apply IH in Hres as (kept & -> & Hall). exists (txn :: kept).
      rewrite <-app_assoc. split; [done|]. intros t Ht.
      apply elem_of_cons in Ht as [-> | Ht].
      * split; [apply list_elem_of_here|by exists v].
      * destruct (Hall t Ht) as (? & ?). split; [by apply list_elem_of_further|done].
    + assert (Hskip : filterTxns vs tx rest acc = Ok filtered).
      { by destruct e. }
      apply IH in Hskip as (kept & -> & Hall). exists kept. split; [done|].
      intros t Ht. destruct (Hall t Ht) as (? & ?).
      split; [by apply list_elem_of_further|done].
Qed.

Lemma TruncateBytesTo_from_elem (txns : list Transaction) (size : Z) :
  ∀ total kept txn,
  coin.TruncateBytesTo_from total txns size = Ok kept → txn ∈ kept → txn ∈ txns.
Proof.
  induction txns as [|t rest IH]; intros total kept txn Hres Hin;
    cbn [coin.TruncateBytesTo_from] in Hres.
  - injection Hres as <-. by apply elem_of_nil in Hin.
  - destruct (TxnSize t) as [pending|]; [|done].
    destruct (mathutil.AddUint32 total pending) as [pendingTotal|].
    2:{ injection Hres as <-. by apply elem_of_nil in Hin. }
    destruct (size <? pendingTotal).
    { injection Hres as <-. by apply elem_of_nil in Hin. }
    destruct (coin.TruncateBytesTo_from pendingTotal rest size) as [kept'|] eqn:Hk;
      [|done].
    cbn in Hres. injection Hres as <-.
    apply elem_of_cons in Hin as [-> | Hin]; [apply list_elem_of_here|].
    apply list_elem_of_further. by eapply IH.
Qed.

(** X22. When the sorting of candidates hands back the transactions it
    was given, a block [createBlockFromTxns] returns is the one the chain
    makes of a list of chosen transactions for the given time: at least
    one and at most [MaxBlockTransactions] of them, each one of the
    candidates, and each one accepted by the verifier of the
    block-creation context. *)
Theorem createBlockFromTxns_contents (vs : Visor S) (tx : S)
    (txns : list Transaction) (when : uint64) (b : Block) :
  (∀ l f l', SortTransactions l f = Ok l' → l' ≡ₚ l) →
  createBlockFromTxns vs tx txns when = Returns (Ok b) →
  ∃ chosen,
    NewBlock (blockchain vs) tx chosen when = Ok b ∧
    (0 < length chosen ≤ MaxBlockTransactions)%nat ∧
    ∀ txn, txn ∈ chosen →
      txn ∈ txns ∧
      ∃ v, VerifySingleTxnSoftHardConstraints (blockchain vs) tx txn
             (cfg_Distribution (config vs)) (CreateBlockVerifyTxn (config vs))
             TxnSigned = Ok v.
Proof.
  intros Hsort. unfold createBlockFromTxns.
  case_bool_decide as Hz; [done|].
  destruct (filterTxns vs tx txns []) as [filtered|] eqn:Hf; [|done].
  case_bool_decide as Hz2; [done|].
  destruct (Head _ tx) as [head|]; [|done].
  destruct (SortTransactions filtered _) as [sorted|] eqn:Hs; [|done].
  destruct (coin.TruncateBytesTo sorted _) as [kept|] eqn:Ht; [|done].
  set (chosen := if bool_decide (MaxBlockTransactions < length kept)%nat
                 then take MaxBlockTransactions kept else kept).
  case_bool_decide as Hz3; [done|]. intros [= Hnew].
  exists chosen. split; [done|]. split.
  - split; [lia|]. subst chosen. case_bool_decide as Hm; [|lia].
    rewrite length_take. lia.
  - apply filterTxns_kept in Hf as (kept' & -> & Hall). cbn [app] in *.
    intros txn Hin. apply Hall. rewrite <-(Hsort _ _ _ Hs).
    apply (TruncateBytesTo_from_elem _ _ _ _ _ Ht).
    subst chosen. case_bool_decide; [|done].
    apply elem_of_take in Hin as (i & Hi & _). by eapply list_elem_of_lookup_2.
Qed.

End BlockContentsFacts.

(** ** Wallet entries *)

Section WalletFacts.
Import wallet.
Context `{!Cipher}.

(** X23. Entries written in their readable form and read back are the
    entries themselves as far as the form keeps them, whenever each
    address and key decodes from its own encoding: of a wallet that is not
    encrypted the address, the public key and the secret key come back
    and the encrypted secret is empty; of an encrypted wallet the
    address, the public key and the encrypted secret come back and the
    secret key is the zero key.  The readable form of an encrypted wallet
    carries the encrypted secrets and no encoding of a secret key. *)
Theorem toWalletEntries_round_trip (es : list Entry) (isEncrypted : bool) :
  Forall (fun e =>
            DecodeBase58Address (Address_String (e_Address e)) = Ok (e_Address e) ∧
            PubKeyFromHex (PubKey_Hex (e_Public e)) = Ok (e_Public e) ∧
            (isEncrypted = false →
             SecKeyFromHex (SecKey_Hex (e_Secret e)) = Ok (e_Secret e))) es →
  toWalletEntries ((fun e => NewReadableEntry e isEncrypted) <$> es) isEncrypted
  = Ok ((fun e =>
           if isEncrypted
           then mkEntry (e_Address e) (e_Public e) 0 (e_EncryptedSecret e)
           else mkEntry (e_Address e) (e_Public e) (e_Secret e) EmptyString) <$> es) ∧
  (isEncrypted = true →
   re_Secret <$> ((fun e => NewReadableEntry e isEncrypted) <$> es)
   = e_EncryptedSecret <$> es).
Proof.
  intros Hall. split.
  - unfold toWalletEntries. induction Hall as [|e es (Ha & Hp & Hs) _ IH]; [done|].
    rewrite !fmap_cons, mapM_result_cons, IH.
    unfold newEntryFromReadable, NewReadableEntry at 1. cbn.
    rewrite Ha. cbn. rewrite Hp. cbn.
    destruct isEncrypted; cbn; [done|]. by rewrite Hs.
  - intros ->. rewrite <-list_fmap_compose. by apply list_fmap_ext.
Qed.

(** X24. [toWalletEntries] converts every readable entry or none: it
    returns as many entries as it was given, each the conversion of the
    readable entry at its place, or else the error of the first readable
    entry that does not convert. *)
Theorem toWalletEntries_all_or_first_error (res : list ReadableEntry)
    (isEncrypted : bool) :
  match toWalletEntries res isEncrypted with
  | Ok es =>
      length es = length res ∧
      ∀ i re, res !! i = Some re →
        ∃ e, es !! i = Some e ∧ newEntryFromReadable re isEncrypted = Ok e
  | Err err =>
      ∃ i re,
        res !! i = Some re ∧ newEntryFromReadable re isEncrypted = Err err ∧
        ∀ j re', (j < i)%nat → res !! j = Some re' →
          ∃ e, newEntryFromReadable re' isEncrypted = Ok e
  end.
Proof.
  unfold toWalletEntries. induction res as [|re res IH]; [done|].
  rewrite mapM_result_cons.
  destruct (newEntryFromReadable re isEncrypted) as [e|err] eqn:He.
  - destruct (mapM _ res) as [es|err].
    + destruct IH as (Hlen & Hall). split; [cbn; by rewrite Hlen|].
      intros [|i] re' Hi.
      * injection Hi as <-. by exists e.
      * apply (Hall i re' Hi).
    + destruct IH as (i & re' & Hi & Herr & Hbefore).
      exists (Datatypes.S i), re'. split; [done|]. split; [done|].
      intros [|j] re'' Hj Hl.
      * injection Hl as <-. by exists e.
      * apply (Hbefore j re''); [lia|done].
  - exists 0%nat, re. split; [done|]. split; [done|]. intros j re' Hj. lia.
Qed.

End WalletFacts.

(** ** The accounts of the rich list *)

Section RichlistFacts.

Lemma heldBy_cons (out : UxOut) (rest : UxArray) (a : Address) :
  totalCoins (filter (fun ux => ux_Address (ux_Body ux) = a) (out :: rest))
  = (if decide (ux_Address (ux_Body out) = a) then ux_Coins (ux_Body out) else 0)
    + totalCoins (filter (fun ux => ux_Address (ux_Body ux) = a) rest).
Proof.
  rewrite filter_cons. destruct (decide _); [by rewrite totalCoins_cons|done].
Qed.

Lemma heldBy_nonneg (uxs : UxArray) (a : Address) :
  Forall (fun ux => wf_UxOut ux = true) uxs →
  0 ≤ totalCoins (filter (fun ux => ux_Address (ux_Body ux) = a) uxs).
Proof.
  intros Hwf. apply totalCoins_nonneg. apply Forall_forall. intros ux Hux.
  apply list_elem_of_filter in Hux as (_ & Hux). revert ux Hux. by apply Forall_forall.
Qed.

Lemma GetRichlist_accounts_from (confirmed : UxArray) :
  Forall (fun ux => wf_UxOut ux = true) confirmed →
  ∀ allAccounts : gmap Address uint64,
  (∀ a c, allAccounts !! a = Some c → is_uint64 c) →
  match GetRichlist_accounts allAccounts confirmed with
  | Ok accounts =>
      ∀ a,
        accounts !! a
        = (if decide (is_Some (allAccounts !! a) ∨
                      a ∈ (fun ux => ux_Address (ux_Body ux)) <$> confirmed)
           then Some (default 0 (allAccounts !! a)
                      + totalCoins (filter (fun ux => ux_Address (ux_Body ux) = a)
                                      confirmed))
           else None) ∧
        default 0 (allAccounts !! a)
        + totalCoins (filter (fun ux => ux_Address (ux_Body ux) = a) confirmed)
        ≤ mathutil.MaxUint64
  | Err err =>
      err = ErrUint64AddOverflow ∧
      ∃ a, mathutil.MaxUint64
           < default 0 (allAccounts !! a)
             + totalCoins (filter (fun ux => ux_Address (ux_Body ux) = a) confirmed)
  end.
Proof.
  induction 1 as [|out rest Hout Hwf IH]; intros m Hm; cbn [GetRichlist_accounts].
  - intros a. unfold totalCoins. cbn. rewrite Z.add_0_r.
    destruct (m !! a) as [c|] eqn:Ha; cbn.
    + rewrite decide_True by (left; by eexists).
      split; [done|]. by destruct (Hm a c Ha).
    + rewrite decide_False; [by unfold mathutil.MaxUint64|].
      intros [[? [=]] | Hin]. by apply elem_of_nil in Hin.
  - cbn zeta. set (a0 := ux_Address (ux_Body out)).
    destruct (wf_UxOut_fields _ Hout) as [Hc0 _].
    set (c0 := ux_Coins (ux_Body out)) in *.
    assert (Hstep : ∀ (c : Z) (m1 : gmap Address uint64),
              default 0 (m !! a0) = c → is_uint64 (c + c0) →
              m1 = <[a0 := c + c0]> m →
              match GetRichlist_accounts m1 rest with
              | Ok accounts =>
                  ∀ a,
                    accounts !! a
                    = (if decide (is_Some (m !! a) ∨
                                  a ∈ (fun ux => ux_Address (ux_Body ux)) <$> out :: rest)
                       then Some (default 0 (m !! a)
                                  + totalCoins
                                      (filter (fun ux => ux_Address (ux_Body ux) = a)
                                         (out :: rest)))
                       else None) ∧
                    default 0 (m !! a)
                    + totalCoins (filter (fun ux => ux_Address (ux_Body ux) = a)
                                    (out :: rest))
                    ≤ mathutil.MaxUint64
              | Err err =>
                  err = ErrUint64AddOverflow ∧
                  ∃ a, mathutil.MaxUint64
                       < default 0 (m !! a)
                         + totalCoins
                             (filter (fun ux => ux_Address (ux_Body ux) = a)
                                (out :: rest))
              end).
    { intros c m1 Hc Hrange ->.
      assert (Hm1 : ∀ a c', <[a0 := c + c0]> m !! a = Some c' → is_uint64 c').
      { intros a c'. destruct (decide (a = a0)) as [->|Hne].
        - rewrite lookup_insert_eq. by intros [= <-].
        - rewrite lookup_insert_ne by done. apply Hm. }
      specialize (IH _ Hm1).
      assert (Htot : ∀ a,
                default 0 (<[a0 := c + c0]> m !! a)
                + totalCoins (filter (fun ux => ux_Address (ux_Body ux) = a) rest)
                = default 0 (m !! a)
                  + totalCoins (filter (fun ux => ux_Address (ux_Body ux) = a)
                                  (out :: rest))).
      { intros a. rewrite heldBy_cons. fold a0 c0.
        destruct (decide (a0 = a)) as [<-|Hne].
        - rewrite lookup_insert_eq. cbn. lia.
        - rewrite lookup_insert_ne by done. lia. }
      destruct (GetRichlist_accounts _ rest) as [accounts|err].
      - intros a. destruct (IH a) as (Hl & Hle). rewrite Htot in Hl, Hle.
        split; [|done]. rewrite Hl. apply decide_ext.
        rewrite fmap_cons, elem_of_cons. fold a0.
        destruct (decide (a = a0)) as [->|Hne].
        + rewrite lookup_insert_eq. split; intros _; [by right; left|by left; eexists].
        + rewrite lookup_insert_ne by done. split; intros [?|?]; try tauto.
      - destruct IH as (-> & a & Ha). split; [done|]. exists a. by rewrite <-Htot. }
    destruct (m !! a0) as [c|] eqn:Ha0.
    + pose proof (Hm a0 c Ha0) as Hc.
      rewrite (AddUint64_spec c c0 Hc Hc0).
      destruct (c + c0 <=? mathutil.MaxUint64) eqn:Hle.
      * apply Z.leb_le in Hle. apply (Hstep c); [done| |done].
        unfold is_uint64 in *. lia.
      * apply Z.leb_gt in Hle. split; [done|]. exists a0.
        rewrite Ha0, heldBy_cons. fold a0 c0. rewrite decide_True by done. cbn.
        pose proof (heldBy_nonneg rest a0 Hwf). lia.
    + apply (Hstep 0); [done|by rewrite Z.add_0_l|by rewrite Z.add_0_l].
Qed.

(** X14. Out of confirmed outputs whose coins fit 64 bits, the loop of
    [GetRichlist] makes the map that gives every address owning one of
    them the exact total of the coins of its outputs, and nothing to any
    other address.  It fails, with the overflow error of the checked
    addition, exactly when the total of one address does not fit 64
    bits: the totals of different addresses are never added. *)
Theorem GetRichlist_accounts_totals (confirmed : UxArray) :
  Forall (fun ux => wf_UxOut ux = true) confirmed →
  match GetRichlist_accounts ∅ confirmed with
  | Ok allAccounts =>
      ∀ a,
        allAccounts !! a
        = (if decide (a ∈ (fun ux => ux_Address (ux_Body ux)) <$> confirmed)
           then Some (totalCoins (filter (fun ux => ux_Address (ux_Body ux) = a)
                                    confirmed))
           else None) ∧
        totalCoins (filter (fun ux => ux_Address (ux_Body ux) = a) confirmed)
        ≤ mathutil.MaxUint64
  | Err err =>
      err = ErrUint64AddOverflow ∧
      ∃ a, mathutil.MaxUint64
           < totalCoins (filter (fun ux => ux_Address (ux_Body ux) = a) confirmed)
  end.
Proof.
  intros Hwf.
  assert (Hempty : ∀ (a : Address) (c : Z),
            (∅ : gmap Address uint64) !! a = Some c → is_uint64 c).
  { intros a c. by rewrite lookup_empty. }
  pose proof (GetRichlist_accounts_from confirmed Hwf ∅ Hempty) as Hfrom.
  destruct (GetRichlist_accounts ∅ confirmed) as [accounts|err].
  - intros a. destruct (Hfrom a) as (Hl & Hle).
    rewrite lookup_empty in Hl, Hle. cbn in Hl, Hle. rewrite Z.add_0_l in Hl, Hle.
    split; [|done]. rewrite Hl. apply decide_ext.
    split; [intros [[? [=]]|?]; done|by right].
  - destruct Hfrom as (-> & a & Ha).
    split; [done|]. exists a. by rewrite lookup_empty in Ha.
Qed.

End RichlistFacts.

(** ** The further properties at concrete stores *)

Module MoreRuns.
Import Ref RefQueries Examples MoreExamples.
#[local] Existing Instance Examples.externals.
#[local] Existing Instance MoreExamples.visor_externals.
#[local] Existing Instance MoreExamples.cipher.

(** X6 at the pool of [db_pay], which spends the only output of [a0]. *)
Lemma unconfirmedSpendsOfAddresses_groups_run :
  unconfirmedSpendsOfAddresses (visor cfg) db_pay [a0; a1]
  = Ok (spendsOf [a0; a1] [ux_funds]) ∧
  ∃ uxa,
    unconfirmedOutgoingOutputs (visor cfg) db_pay = Ok uxa ∧
    ∀ a,
      default [] (spendsOf [a0; a1] [ux_funds] !! a)
      = (if decide (a ∈ [a0; a1])
         then filter (fun ux => ux_Address (ux_Body ux) = a) uxa else []) ∧
      spendsOf [a0; a1] [ux_funds] !! a ≠ Some [].
Proof.
  split; [reflexivity|].
  apply (unconfirmedSpendsOfAddresses_groups (visor cfg) db_pay [a0; a1]).
  reflexivity.
Defined.


(** X8 at a chain of three blocks: the two above block 0 are returned. *)
Lemma GetSignedBlocksSince_blocks_run :
  GetSignedBlocksSince (visor cfg) 0 5 db_unparsed
  = Returns (Ok [blk 1 2 [t1] 99; blk 2 3 [] 99]) ∧
  Z.of_nat (length [blk 1 2 [t1] 99; blk 2 3 [] 99])
  = Z.min 5 (Z.max 0 (bk_Seq (sb_Block (blk 2 3 [] 99)) - 0)) ∧
  ∀ k b, [blk 1 2 [t1] 99; blk 2 3 [] 99] !! k = Some b →
    GetSignedBlockBySeq (blockchain (visor cfg)) db_unparsed (0 + 1 + Z.of_nat k)
    = Ok (Some b) ∧
    0 + 1 + Z.of_nat k ≤ bk_Seq (sb_Block (blk 2 3 [] 99)).
Proof.
  split; [reflexivity|].
  apply (GetSignedBlocksSince_blocks (visor cfg) 0 5 db_unparsed (blk 2 3 [] 99)).
  - reflexivity.
  - unfold is_uint64, mathutil.MaxUint64. lia.
  - unfold is_uint64, mathutil.MaxUint64. lia.
  - change (is_uint64 2). unfold is_uint64, mathutil.MaxUint64. lia.
  - reflexivity.
Defined.

(** X9 at a chain that lacks block 1: the first lookup finds
    nothing. *)
Lemma GetSignedBlocksSince_missing_block_run :
  GetSignedBlockBySeq (blockchain (visor cfg)) db_gap (0 + 1 + Z.of_nat 0) = Ok None ∧
  GetSignedBlocksSince (visor cfg) 0 5 db_gap
  = Panics "runtime error: invalid memory address or nil pointer dereference".
Proof.
  split; [reflexivity|].
  refine (proj2 (GetSignedBlocksSince_missing_block (visor cfg) 0 5 db_gap
                   (blk 2 3 [] 99) _ _ _ _) _).
  - reflexivity.
  - unfold is_uint64, mathutil.MaxUint64. lia.
  - unfold is_uint64, mathutil.MaxUint64. lia.
  - change (is_uint64 2). unfold is_uint64, mathutil.MaxUint64. lia.
  - exists 0%nat. split; [simpl; lia|].
    split; [change (0 + 1 + Z.of_nat 0 ≤ 2); simpl; lia|].
    split; [intros k' Hk'; lia|reflexivity].
Defined.

(** X10 at the outputs of two addresses, walked in the other order. *)
Lemma AddressBalances_exact_run :
  AddressBalances (blk 0 1 [] 99)
    {[a0 := [ux_funds]; a1 := [mkUxOut (mkUxHead 0 0) (mkUxBody 9 a1 2000 0)]]}
  = Ok (3000, 5) ∧
  (AddressBalances_entries 1 0 0
     [(a0, [ux_funds]); (a1, [mkUxOut (mkUxHead 0 0) (mkUxBody 9 a1 2000 0)])]
   = Ok (3000, 5) ↔
   AddressBalances (blk 0 1 [] 99)
     {[a0 := [ux_funds]; a1 := [mkUxOut (mkUxHead 0 0) (mkUxBody 9 a1 2000 0)]]}
   = Ok (3000, 5)).
Proof.
  split; [vm_compute; reflexivity|].
  refine (proj1 (proj2 (AddressBalances_exact (blk 0 1 [] 99)
           {[a0 := [ux_funds]; a1 := [mkUxOut (mkUxHead 0 0) (mkUxBody 9 a1 2000 0)]]}
           [(a0, [ux_funds]); (a1, [mkUxOut (mkUxHead 0 0) (mkUxBody 9 a1 2000 0)])]
           3000 5 _ _))).
  - vm_compute. apply perm_swap.
  - replace (concat (snd <$> map_to_list _))
      with [mkUxOut (mkUxHead 0 0) (mkUxBody 9 a1 2000 0); ux_funds]
      by (vm_compute; reflexivity).
    repeat constructor.
Defined.

(** The same outputs fail in either order, with the overflow error of
    the sum in one and that of an output's earned hours in the other. *)
Example AddressBalances_error_by_order :
  AddressBalances_entries 1 0 0
    [(a0, [ux_half1; ux_half2]);
     (a1, [mkUxOut (mkUxHead 0 0) (mkUxBody 13 a1 3600000000 (2 ^ 64 - 1))])]
  = Err ErrUint64AddOverflow ∧
  AddressBalances_entries 1 0 0
    [(a1, [mkUxOut (mkUxHead 0 0) (mkUxBody 13 a1 3600000000 (2 ^ 64 - 1))]);
     (a0, [ux_half1; ux_half2])]
  = Err ErrAddEarnedCoinHoursAdditionOverflow.
Proof. split; vm_compute; reflexivity. Qed.

(** The input made of [ux_gen] at time 1. *)
Example ux_gen_input :
  NewTransactionInput ux_gen 1 = Ok (mkTransactionInput ux_gen 5).
Proof. reflexivity. Qed.

(** X11 at [t_pay], once confirmed by block 1 under a head at 1 and
    once waiting in the pool. *)
Lemma getTransaction_status_run :
  getTransaction (visorq cfg) db_spent 104
  = Ok (Some (mkVisorTransaction t_pay (mkTransactionStatus true false 1 1) 2)) ∧
  getTransaction (visorq cfg) db_mid 104
  = Ok (Some (mkVisorTransaction t_pay (mkTransactionStatus false true 0 0) 3)) ∧
  ((∃ utxn,
      Get (vq_unconfirmed (visorq cfg)) db_spent 104 = Ok (Some utxn) ∧
      mkVisorTransaction t_pay (mkTransactionStatus true false 1 1) 2
      = mkVisorTransaction (ut_Transaction utxn)
          (mkTransactionStatus false true 0 0)
          (nanoToUnix (ut_Received utxn))) ∨
   (∃ htxn headSeq b,
      Get (vq_unconfirmed (visorq cfg)) db_spent 104 = Ok None ∧
      History_GetTransaction (vq_history (visorq cfg)) db_spent 104 = Ok (Some htxn) ∧
      HeadSeq (blockchain (vq_visor (visorq cfg))) db_spent = Ok (headSeq, true) ∧
      GetSignedBlockBySeq (blockchain (vq_visor (visorq cfg))) db_spent
        (ht_BlockSeq htxn) = Ok (Some b) ∧
      ht_BlockSeq htxn ≤ headSeq ∧
      vt_Transaction (mkVisorTransaction t_pay (mkTransactionStatus true false 1 1) 2)
      = ht_Txn htxn ∧
      vt_Time (mkVisorTransaction t_pay (mkTransactionStatus true false 1 1) 2)
      = sb_Time b ∧
      ts_Confirmed (mkTransactionStatus true false 1 1) = true ∧
      ts_Unconfirmed (mkTransactionStatus true false 1 1) = false ∧
      ts_BlockSeq (mkTransactionStatus true false 1 1) = ht_BlockSeq htxn ∧
      ts_Height (mkTransactionStatus true false 1 1)
      = (headSeq - ht_BlockSeq htxn + 1) mod 2 ^ 64 ∧
      (0 ≤ ht_BlockSeq htxn → headSeq < mathutil.MaxUint64 →
       ts_Height (mkTransactionStatus true false 1 1)
       = headSeq - ht_BlockSeq htxn + 1 ∧
       1 ≤ ts_Height (mkTransactionStatus true false 1 1)))).
Proof.
  split; [reflexivity|]. split; [reflexivity|].
  apply (getTransaction_status (visorq cfg) db_spent 104
           (mkVisorTransaction t_pay (mkTransactionStatus true false 1 1) 2)).
  reflexivity.
Defined.

(** X13 at the one input of [t_pay]. *)
Lemma getTransactionInputs_result_run :
  getTransactionInputs (visorq cfg) db_spent 1 [7]
  = Returns (Ok [mkTransactionInput ux_gen 5]) ∧
  [7] ≠ [] ∧
  length [mkTransactionInput ux_gen 5] = length [7] ∧
  ∃ uxOuts,
    GetUxOuts (vq_history (visorq cfg)) db_spent [7] = Ok uxOuts ∧
    (length uxOuts ≤ length [7])%nat ∧
    (∀ i o, uxOuts !! i = Some o →
       ∃ r, NewTransactionInput (hu_Out o) 1 = Ok r ∧
            [mkTransactionInput ux_gen 5] !! i = Some r) ∧
    (∀ i, (length uxOuts ≤ i < length [7])%nat →
       [mkTransactionInput ux_gen 5] !! i = Some TransactionInput_zero).
Proof.
  split; [reflexivity|].
  apply (getTransactionInputs_result (visorq cfg) db_spent 1 [7]
           [mkTransactionInput ux_gen 5]).
  reflexivity.
Defined.

(** X12 at [t_pay] confirmed by block 1: its input is computed at the
    time of block 0. *)
Lemma GetTransactionWithInputs_inputs_run :
  GetTransactionWithInputs (visorq cfg) 104 db_spent
  = Returns (Ok (Some (mkVisorTransaction t_pay
                         (mkTransactionStatus true false 1 1) 2),
                 [mkTransactionInput ux_gen 5])) ∧
  getTransaction (visorq cfg) db_spent 104
  = Ok (Some (mkVisorTransaction t_pay (mkTransactionStatus true false 1 1) 2)) ∧
  (0 < length [mkTransactionInput ux_gen 5])%nat ∧
  length [mkTransactionInput ux_gen 5] = length (txn_In t_pay) ∧
  ∃ feeCalcTime,
    getTransactionInputs (visorq cfg) db_spent feeCalcTime (txn_In t_pay)
    = Returns (Ok [mkTransactionInput ux_gen 5]) ∧
    ∃ prevBlock,
      GetSignedBlockBySeq (blockchain (vq_visor (visorq cfg))) db_spent
        ((1 - 1) mod 2 ^ 64) = Ok (Some prevBlock) ∧
      feeCalcTime = sb_Time prevBlock.
Proof.
  split; [reflexivity|].
  apply (GetTransactionWithInputs_inputs (visorq cfg) 104 db_spent
           (mkVisorTransaction t_pay (mkTransactionStatus true false 1 1) 2)
           [mkTransactionInput ux_gen 5]).
  reflexivity.
Defined.

(** X15 at block 1 of [db_spent], which holds [t_pay]. *)
Lemma getBlockInputs_shape_run :
  getBlockInputs (visorq cfg) db_spent (Some (blk 1 2 [t_pay] 99))
  = Returns (Ok [[mkTransactionInput ux_gen 5]]) ∧
  Forall2 (fun i txn => length i = length (txn_In txn))
          [[mkTransactionInput ux_gen 5]] [t_pay].
Proof.
  split; [reflexivity|].
  apply (getBlockInputs_shape (visorq cfg) db_spent (blk 1 2 [t_pay] 99)
           [[mkTransactionInput ux_gen 5]]).
  reflexivity.
Defined.

(** X16 at the two blocks of [db_spent]. *)
Lemma getBlocksVerbose_shape_run :
  getBlocksVerbose (visorq cfg) db_spent (fun db => Ok (db_blocks db))
  = Returns (Ok ([blk 0 1 [t_gen] 99; blk 1 2 [t_pay] 99],
                 [[[]]; [[mkTransactionInput ux_gen 5]]])) ∧
  length [[[]]; [[mkTransactionInput ux_gen 5]]]
  = length [blk 0 1 [t_gen] 99; blk 1 2 [t_pay] 99].
Proof.
  split; [reflexivity|].
  apply (getBlocksVerbose_shape (visorq cfg) db_spent (fun db => Ok (db_blocks db))
           [blk 0 1 [t_gen] 99; blk 1 2 [t_pay] 99]
           [[[]]; [[mkTransactionInput ux_gen 5]]]).
  reflexivity.
Defined.

(** X17 at the pool of [db_mid]: [t1] has no inputs and keeps an empty
    list. *)
Lemma getTransactionInputsForUnconfirmedTxns_shape_run :
  getTransactionInputsForUnconfirmedTxns (visorq cfg) db_mid (snd <$> db_pool db_mid)
  = Returns (Ok [[]; [mkTransactionInput ux_gen 5]]) ∧
  Forall2 (fun i txn => length i = length (txn_In (ut_Transaction txn)))
          [[]; [mkTransactionInput ux_gen 5]] (snd <$> db_pool db_mid).
Proof.
  split; [reflexivity|].
  apply (getTransactionInputsForUnconfirmedTxns_shape (visorq cfg) db_mid
           (snd <$> db_pool db_mid) [[]; [mkTransactionInput ux_gen 5]]).
  reflexivity.
Defined.

(** X18 at [t_double], which spends the output [t_pay] has spent
    already. *)
Lemma VerifyTxnVerbose_unrecorded_panics_run :
  VerifyTxnVerbose (visorq cfg) t_double TxnSigned db_spent
  = Aborts "runtime error: invalid memory address or nil pointer dereference" ∧
  ∃ msg, VerifyTxnVerbose (visorq cfg) t_double TxnSigned db_spent = Aborts msg.
Proof.
  split; [reflexivity|].
  apply (proj2 (VerifyTxnVerbose_unrecorded_panics (visorq cfg) t_double TxnSigned
                  db_spent)).
  exists (blk 1 2 [t_pay] 99), (ErrStore "unspent output does not exist"),
    "an input", [mkHistoryUxOut ux_gen].
  split; [reflexivity|]. split; [reflexivity|]. split; [reflexivity|].
  split; [reflexivity|]. split; [discriminate|reflexivity].
Defined.

(** X19 at [t_pay] while its input is unspent. *)
Lemma VerifyTxnVerbose_sound_run :
  VerifyTxnVerbose (visorq cfg) t_pay TxnSigned db_mid
  = Completes ([mkTransactionInput ux_gen 5], false, None) ∧
  ∃ head uxa,
    Head (blockchain (vq_visor (visorq cfg))) db_mid = Ok head ∧
    Unspent_GetArray (blockchain (vq_visor (visorq cfg))) db_mid (txn_In t_pay)
    = Ok uxa ∧
    VerifySingleTxnUserConstraints t_pay = None ∧
    VerifySingleTxnSoftConstraints t_pay (sb_Time head) uxa
      (cfg_Distribution (config (vq_visor (visorq cfg)))) UserVerifyTxn = None ∧
    VerifySingleTxnHardConstraints t_pay (sb_Head head) uxa TxnSigned = None ∧
    (if decide (uxa = [] ∨ sb_Time head = 0)
     then [mkTransactionInput ux_gen 5] = []
     else NewTransactionInputs uxa (sb_Time head)
          = Ok [mkTransactionInput ux_gen 5]).
Proof.
  split; [reflexivity|].
  apply (VerifyTxnVerbose_sound (visorq cfg) t_pay TxnSigned db_mid
           [mkTransactionInput ux_gen 5]).
  reflexivity.
Defined.

(** X20 at [t_pay] once it is confirmed. *)
Lemma VerifyTxnVerbose_confirmed_run :
  VerifyTxnVerbose (visorq cfg) t_pay TxnSigned db_spent
  = Completes ([mkTransactionInput ux_gen 5], true, None) ∧
  ∀ signed',
    VerifyTxnVerbose (visorq cfg) t_pay signed' db_spent
    = Completes ([mkTransactionInput ux_gen 5], true, None).
Proof.
  split; [reflexivity|].
  apply (VerifyTxnVerbose_confirmed (visorq cfg) t_pay TxnSigned db_spent
           [mkTransactionInput ux_gen 5] None).
  reflexivity.
Defined.

(** X21 at [t_greedy], which pays more than its input holds. *)
Lemma VerifyTxnVerbose_inputs_on_failure_run :
  VerifyTxnVerbose (visorq cfg) t_greedy TxnSigned db_mid
  = Completes ([mkTransactionInput ux_gen 5], false,
               Some (ErrTxnViolatesHardConstraint "Insufficient coins")) ∧
  ∃ verifyErr,
    VerifyTxnVerbose (visorq cfg) t_greedy TxnSigned db_mid
    = Completes ([mkTransactionInput ux_gen 5], false, verifyErr) ∧
    (verifyErr = None ↔
     VerifySingleTxnUserConstraints t_greedy = None ∧
     VerifySingleTxnSoftConstraints t_greedy (sb_Time (blk 0 1 [t_gen] 99)) [ux_gen]
       (cfg_Distribution (config (vq_visor (visorq cfg)))) UserVerifyTxn = None ∧
     VerifySingleTxnHardConstraints t_greedy (sb_Head (blk 0 1 [t_gen] 99)) [ux_gen]
       TxnSigned = None).
Proof.
  split; [reflexivity|].
  apply (VerifyTxnVerbose_inputs_on_failure (visorq cfg) t_greedy TxnSigned db_mid
           (blk 0 1 [t_gen] 99) [ux_gen] [mkTransactionInput ux_gen 5]).
  - reflexivity.
  - reflexivity.
  - discriminate.
  - discriminate.
  - reflexivity.
Defined.

(** X22 at the pool of [db_mid] under a byte budget that has room:
    [t1] and [t_pay] are both chosen. *)
Lemma createBlockFromTxns_contents_run :
  createBlockFromTxns (visor cfg_wide) db_mid [t1; t_pay] 5
  = Returns (Ok (mkBlock (mkBlockHeader 0 5 1 0 0 0) [t1; t_pay])) ∧
  ∃ chosen,
    NewBlock (blockchain (visor cfg_wide)) db_mid chosen 5
    = Ok (mkBlock (mkBlockHeader 0 5 1 0 0 0) [t1; t_pay]) ∧
    (0 < length chosen ≤ MaxBlockTransactions)%nat ∧
    ∀ txn, txn ∈ chosen →
      txn ∈ [t1; t_pay] ∧
      ∃ v, VerifySingleTxnSoftHardConstraints (blockchain (visor cfg_wide)) db_mid txn
             (cfg_Distribution (config (visor cfg_wide)))
             (CreateBlockVerifyTxn (config (visor cfg_wide))) TxnSigned = Ok v.
Proof.
  split; [reflexivity|].
  apply (createBlockFromTxns_contents (visor cfg_wide) db_mid [t1; t_pay] 5).
  - intros l f l' Hs. injection Hs as <-. reflexivity.
  - reflexivity.
Defined.

(** X23 at an entry with its secret in the clear and at one with its
    secret encrypted, both written and read as not encrypted: the
    encrypted secret of the second is not kept. *)
Lemma toWalletEntries_round_trip_run :
  wallet.toWalletEntries [wallet.NewReadableEntry e_sealed true] true
  = Ok [e_sealed] ∧
  wallet.re_Secret (wallet.NewReadableEntry e_sealed true) = "c2VhbGVk" ∧
  wallet.toWalletEntries
    ((fun e => wallet.NewReadableEntry e false) <$> [e_clear; e_sealed]) false
  = Ok [e_clear; wallet.mkEntry a1 21 0 EmptyString].
Proof.
  split; [reflexivity|]. split; [reflexivity|].
  apply (proj1 (toWalletEntries_round_trip [e_clear; e_sealed] false
                  ltac:(repeat constructor))).
Defined.

(** X14 at three outputs of two addresses, and at two outputs of one
    address that hold 2^64 droplets together. *)
Lemma GetRichlist_accounts_totals_run :
  GetRichlist_accounts ∅
    [ux_funds; mkUxOut (mkUxHead 0 0) (mkUxBody 9 a1 2000 0);
     mkUxOut (mkUxHead 0 0) (mkUxBody 12 a0 500 0)]
  = Ok {[a0 := 1500; a1 := 2000]} ∧
  GetRichlist_accounts ∅ [ux_half1; ux_half2] = Err ErrUint64AddOverflow ∧
  match GetRichlist_accounts ∅ [ux_half1; ux_half2] with
  | Ok allAccounts =>
      ∀ a,
        allAccounts !! a
        = (if decide (a ∈ (fun ux => ux_Address (ux_Body ux)) <$> [ux_half1; ux_half2])
           then Some (totalCoins (filter (fun ux => ux_Address (ux_Body ux) = a)
                                    [ux_half1; ux_half2]))
           else None) ∧
        totalCoins (filter (fun ux => ux_Address (ux_Body ux) = a) [ux_half1; ux_half2])
        ≤ mathutil.MaxUint64
  | Err err =>
      err = ErrUint64AddOverflow ∧
      ∃ a, mathutil.MaxUint64
           < totalCoins (filter (fun ux => ux_Address (ux_Body ux) = a)
                           [ux_half1; ux_half2])
  end.
Proof.
  split; [vm_compute; reflexivity|]. split; [vm_compute; reflexivity|].
  apply (GetRichlist_accounts_totals [ux_half1; ux_half2]).
  repeat constructor.
Defined.
End MoreRuns.

(** ** Creating and executing a block *)

Section PublisherFacts.
Context `{!Externals} `{!VisorExternals} {S : Type}.

(** X25. [CreateAndExecuteBlock] changes the store only when it returns
    a block without an error.  Then the node is a block publisher, the
    block was made by [createBlockFromTxns] of all the transactions of
    the pool at the given time and signed, its signature verifies
    against the configured key of the chain, and the store is the one
    the execution of that block leaves, started from the store the
    block was made from.  A node that is not a block publisher panics. *)
Theorem CreateAndExecuteBlock_outcomes (vs : Visor S)
    (MustSignHash : Block → completion Sig) (now : uint64) (db : S) :
  (IsBlockPublisher (config vs) = false →
   CreateAndExecuteBlock vs MustSignHash now db
   = (db, Aborts "Only a block publisher node can create blocks")) ∧
  (∀ db' sb,
     CreateAndExecuteBlock vs MustSignHash now db = (db', Completes (sb, None)) →
     IsBlockPublisher (config vs) = true ∧
     ∃ txns b sig,
       AllRawTransactions (unconfirmed vs) db = Ok txns ∧
       createBlockFromTxns vs db txns now = Returns (Ok b) ∧
       MustSignHash b = Completes sig ∧
       sb = mkSignedBlock b sig ∧
       VerifySignature sb (BlockchainPubkey (config vs)) = None ∧
       runTx (executeSignedBlockUnsafe vs sb) db = (db', Ok ())) ∧
  (∀ db' r,
     CreateAndExecuteBlock vs MustSignHash now db = (db', r) →
     (∀ sb, r ≠ Completes (sb, None)) → db' = db).
Proof.
  unfold CreateAndExecuteBlock, createBlock, signBlock.
  split; [by intros ->|].
  destruct (IsBlockPublisher (config vs)); cbn [negb];
    [|split; [done|by intros db' r [= <- _]]].
  destruct (AllRawTransactions _ db) as [txns|] eqn:Ha;
    [|split; [done|by intros db' r [= <- _]]].
  destruct (createBlockFromTxns vs db txns now) as [[b|]|] eqn:Hc;
    [|split; [done|by intros db' r [= <- _]]..].
  destruct (MustSignHash b) as [sig|] eqn:Hs;
    [|split; [done|by intros db' r [= <- _]]].
  destruct (Update _ db) as [db1 [[]|err]] eqn:Hu.
  - split.
    + intros db' sb [= <- <-]. split; [done|]. exists txns, b, sig.
      repeat (split; [done|]).
      apply Update_inv_Ok in Hu. unfold executeSignedBlock in Hu.
      destruct (VerifySignature _ _); [by cbn in Hu|by split].
    + intros db' r [= <- <-] Hne. by destruct (Hne (mkSignedBlock b sig)).
  - apply Update_rollback in Hu as ->.
    split; [done|by intros db' r [= <- _]].
Qed.

Lemma GetTransactionsWithInputs_loop_Ok (vs : VisorQ S) (tx : S)
    (txns : list visor_Transaction) :
  ∀ inputs,
  GetTransactionsWithInputs_loop vs tx txns = Returns (Ok inputs) →
  Forall2 (fun i txn =>
             if ts_Confirmed (vt_Status txn) && (ts_BlockSeq (vt_Status txn) =? 0)
             then i = []
             else (0 < length i)%nat ∧
                  length i = length (txn_In (vt_Transaction txn)))
          inputs txns.
Proof.
  induction txns as [|txn rest IH]; intros inputs Hres;
    cbn [GetTransactionsWithInputs_loop] in Hres.
  - injection Hres as <-. constructor.
  - destruct (getFeeCalcTimeForTransaction vs tx txn) as [ft|] eqn:Hft; [|done].
    cbn zeta in Hres.
    assert (Hfirst : ∀ i,
              match ft with
              | None => Returns (Ok [])
              | Some feeCalcTime =>
                  getTransactionInputs vs tx feeCalcTime (txn_In (vt_Transaction txn))
              end = Returns (Ok i) →
              if ts_Confirmed (vt_Status txn) && (ts_BlockSeq (vt_Status txn) =? 0)
              then i = []
              else (0 < length i)%nat ∧
                   length i = length (txn_In (vt_Transaction txn))).
    { intros i Hi. unfold getFeeCalcTimeForTransaction in Hft.
      rewrite (andb_comm (ts_Confirmed _)).
      destruct (ts_BlockSeq (vt_Status txn) =? 0);
        destruct (ts_Confirmed (vt_Status txn)); cbn [andb] in *.
      - injection Hft as <-. by injection Hi as <-.
      - destruct (Blockchain_Time _ tx); [|done]. cbn in Hft. injection Hft as <-.
        apply getTransactionInputs_length in Hi as (Hne & Hlen).
        split; [|done]. rewrite Hlen. destruct (txn_In _); [done|cbn; lia].
      - destruct (GetSignedBlockBySeq _ tx _) as [[prev|]|]; cbn in Hft; [|done|done].
        injection Hft as <-.
        apply getTransactionInputs_length in Hi as (Hne & Hlen).
        split; [|done]. rewrite Hlen. destruct (txn_In _); [done|cbn; lia].
      - destruct (Blockchain_Time _ tx); [|done]. cbn in Hft. injection Hft as <-.
        apply getTransactionInputs_length in Hi as (Hne & Hlen).
        split; [|done]. rewrite Hlen. destruct (txn_In _); [done|cbn; lia]. }
    destruct (match ft with None => _ | Some _ => _ end) as [[i|]|]; [|done|done].
    destruct (GetTransactionsWithInputs_loop vs tx rest) as [[ins|]|]; [|done|done].
    injection Hres as <-. constructor; [by apply Hfirst|by apply IH].
Qed.

(** X26. When [GetTransactionsWithInputs] succeeds it returns the
    transactions and the number of pages its source of transactions
    gave, with one list of inputs per transaction: empty for a
    transaction confirmed in the block of sequence number 0, and for any
    other as long as the transaction has inputs, at least one. *)
Theorem GetTransactionsWithInputs_shape (vs : VisorQ S)
    (getTransactions : S → result (list visor_Transaction * uint64)) (db : S)
    (txns : list visor_Transaction) (inputs : list (list TransactionInput))
    (pages : uint64) :
  GetTransactionsWithInputs vs getTransactions db = Returns (Ok (txns, inputs, pages)) →
  getTransactions db = Ok (txns, pages) ∧
  length inputs = length txns ∧
  Forall2 (fun i txn =>
             if ts_Confirmed (vt_Status txn) && (ts_BlockSeq (vt_Status txn) =? 0)
             then i = []
             else (0 < length i)%nat ∧
                  length i = length (txn_In (vt_Transaction txn)))
          inputs txns.
Proof.
  unfold GetTransactionsWithInputs.
  destruct (getTransactions db) as [[txns' pages']|]; [|done].
  destruct (GetTransactionsWithInputs_loop vs db txns') as [[ins|]|] eqn:Hl;
    [|done|done].
  intros [= <- <- <-]. apply GetTransactionsWithInputs_loop_Ok in Hl.
  split; [done|]. split; [by eapply Forall2_length|done].
Qed.

End PublisherFacts.

Module PublisherRuns.
Import Ref RefQueries Examples MoreExamples.
#[local] Existing Instance Examples.externals.
#[local] Existing Instance MoreExamples.visor_externals.

(** X25 at the pool of [db_mid], signed with the key of the chain: the
    block of [t1] and [t_pay] becomes the head, the pool is left empty
    and the history has parsed the block. *)
Lemma CreateAndExecuteBlock_outcomes_run :
  CreateAndExecuteBlock (visor cfg_wide) (fun _ => Completes 99) 5 db_mid
  = (mkDB [blk 0 1 [t_gen] 99; blk 1 5 [t1; t_pay] 99]
          [coin.CreateUnspent (sb_Head (blk 1 5 [t1; t_pay] 99)) t1
             (mkTransactionOutput a1 0 0);
           coin.CreateUnspent (sb_Head (blk 1 5 [t1; t_pay] 99)) t_pay
             (mkTransactionOutput a1 100 0)]
          [] (Some 1)
          [sb_Block (blk 0 1 [t_gen] 99); sb_Block (blk 1 5 [t1; t_pay] 99)],
     Completes (blk 1 5 [t1; t_pay] 99, None)) ∧
  IsBlockPublisher (config (visor cfg_wide)) = true ∧
  ∃ txns b sig,
    AllRawTransactions (unconfirmed (visor cfg_wide)) db_mid = Ok txns ∧
    createBlockFromTxns (visor cfg_wide) db_mid txns 5 = Returns (Ok b) ∧
    (fun _ : Block => Completes 99) b = Completes sig ∧
    blk 1 5 [t1; t_pay] 99 = mkSignedBlock b sig ∧
    VerifySignature (blk 1 5 [t1; t_pay] 99) (BlockchainPubkey (config (visor cfg_wide)))
    = None ∧
    runTx (executeSignedBlockUnsafe (visor cfg_wide) (blk 1 5 [t1; t_pay] 99)) db_mid
    = (mkDB [blk 0 1 [t_gen] 99; blk 1 5 [t1; t_pay] 99]
          [coin.CreateUnspent (sb_Head (blk 1 5 [t1; t_pay] 99)) t1
             (mkTransactionOutput a1 0 0);
           coin.CreateUnspent (sb_Head (blk 1 5 [t1; t_pay] 99)) t_pay
             (mkTransactionOutput a1 100 0)]
          [] (Some 1)
          [sb_Block (blk 0 1 [t_gen] 99); sb_Block (blk 1 5 [t1; t_pay] 99)],
       Ok ()).
Proof.
  split; [vm_compute; reflexivity|].
  apply (proj1 (proj2 (CreateAndExecuteBlock_outcomes (visor cfg_wide)
                         (fun _ => Completes 99) 5 db_mid))).
  vm_compute. reflexivity.
Defined.

(** X26 at the two confirmed transactions of [db_spent]. *)
Lemma GetTransactionsWithInputs_shape_run :
  GetTransactionsWithInputs (visorq cfg)
    (fun _ => Ok ([mkVisorTransaction t_gen (mkTransactionStatus true false 2 0) 1;
                   mkVisorTransaction t_pay (mkTransactionStatus true false 1 1) 2], 1))
    db_spent
  = Returns (Ok ([mkVisorTransaction t_gen (mkTransactionStatus true false 2 0) 1;
                  mkVisorTransaction t_pay (mkTransactionStatus true false 1 1) 2],
                 [[]; [mkTransactionInput ux_gen 5]], 1)) ∧
  length [[]; [mkTransactionInput ux_gen 5]]
  = length [mkVisorTransaction t_gen (mkTransactionStatus true false 2 0) 1;
            mkVisorTransaction t_pay (mkTransactionStatus true false 1 1) 2].
Proof.
  split; [reflexivity|].
  apply (GetTransactionsWithInputs_shape (visorq cfg)
           (fun _ => Ok ([mkVisorTransaction t_gen (mkTransactionStatus true false 2 0) 1;
                          mkVisorTransaction t_pay (mkTransactionStatus true false 1 1) 2],
                         1))
           db_spent _ [[]; [mkTransactionInput ux_gen 5]] 1).
  reflexivity.
Defined.

End PublisherRuns.

(** ** Addresses without unspent outputs *)

Section NoUnspentsFacts.
Context `{!Externals} {S : Type}.



End NoUnspentsFacts.

Module BalanceRuns.
Import Ref Examples.
#[local] Existing Instance Examples.externals.



End BalanceRuns.
